(** * MoltMarket: a shallow embedding of the gateway's bookkeeping code

    The development follows the JavaScript sources module by module:

    - [JS]          the fragment of JavaScript semantics the code relies on
                    (truthiness, BigInt division, binary64 numbers, thrown
                    errors);
    - [Treasury]    services/treasury.js, the simulated yield account;
    - [Ledger]      services/ledger.js, the settlement ledger and the
                    revenue distributor;
    - [Skills]      services/skills.js, the bounty board;
    - [PaymentGate] middleware/paymentGate.js, the payment proof gate.

    Module-level [let] variables of the sources (the yield balance, the
    ledger array, the bounty array) are passed explicitly: every operation
    takes the current value and returns the new one.  Objects found with
    [Array.prototype.find] and then mutated are updated in place in the
    array, as the aliasing of the sources has it.  External collaborators
    ([sendSTX], [fetch], the clock) are section variables, so every theorem
    holds for all their behaviours. *)

From Stdlib Require Import ZArith Lia Bool Sorted.
From stdpp Require Import base option list strings pretty gmap.

Local Open Scope string_scope.
Local Open Scope list_scope.
Local Open Scope Z_scope.

(* ===================================================================== *)
(** ** JavaScript fragment *)
(* ===================================================================== *)

Module JS.

(** Outcome of code that may throw. *)
Inductive result (A : Type) : Type :=
| Ok (a : A)
| Throw (err : string).
Arguments Ok {A} a.
Arguments Throw {A} err.

Definition bind {A B} (r : result A) (k : A -> result B) : result B :=
  match r with
  | Ok a => k a
  | Throw e => Throw e
  end.

(** Values stored in the plain objects the gateway passes around. *)
Inductive value : Type :=
| Null
| Bool (b : bool)
| Num (z : Z)
| Str (s : string).

(** [if (v)], [v || w], [!v] on a string that may be absent. *)
Definition truthy_str (s : string) : bool :=
  if decide (s = "") then false else true.

Definition truthy_opt (o : option string) : bool :=
  match o with
  | Some s => truthy_str s
  | None => false
  end.

Definition truthy (v : option value) : bool :=
  match v with
  | None | Some Null => false
  | Some (Bool b) => b
  | Some (Num z) => negb (Z.eqb z 0)
  | Some (Str s) => truthy_str s
  end.

(** [a || b] where [a] may be undefined and [b] is a string. *)
Definition or_str (o : option string) (d : string) : string :=
  match o with
  | Some s => if truthy_str s then s else d
  | None => d
  end.

(** [BigInt(v)] for a property that may be missing: amounts are carried
    as decimal strings or integers, which convert exactly; [undefined]
    makes the conversion throw. *)
Definition BigInt (v : option Z) : result Z :=
  match v with
  | Some z => Ok z
  | None => Throw "TypeError: Cannot convert undefined to a BigInt"
  end.

(** BigInt [/] rounds towards zero. *)
Definition bigint_div (a b : Z) : Z := Z.quot a b.

(** Numbers.  A number is a binary64 float.  The code adds, subtracts and
    compares amounts that are integers, so a finite number is carried as
    the integer it is worth: [Fin z] is the double worth [z], for the
    integers a double can hold (53 significant bits, below 2^1024 in
    magnitude).  Sums and differences are rounded as IEEE 754 has it, to
    the nearest double with ties to the even significand, and overflow
    to the infinities. *)
Inductive number : Type :=
| Fin (z : Z)
| PosInf
| NegInf
| NaN.

(** The integer nearest to [z] that has at most 53 significant bits. *)
Definition round53 (z : Z) : Z :=
  let e := Z.log2 (Z.abs z) - 52 in
  if e <=? 0 then z
  else
    let u := 2 ^ e in
    let q := Z.abs z / u in
    let r := Z.abs z mod u in
    let q' := if 2 * r <? u then q
              else if u <? 2 * r then q + 1
              else if Z.even q then q else q + 1 in
    Z.sgn z * (q' * u).

(** The integers that are the value of a finite double. *)
Definition isDouble (z : Z) : Prop :=
  round53 z = z /\ Z.abs z < 2 ^ 1024.

(** The number an exact integer result is rounded to. *)
Definition toNumber (z : Z) : number :=
  let r := round53 z in
  if 2 ^ 1024 <=? r then PosInf
  else if r <=? - 2 ^ 1024 then NegInf
  else Fin r.

(** [Fin z] names a number when [z] is the value of a double. *)
Definition isNumber (a : number) : Prop :=
  match a with
  | Fin z => isDouble z
  | _ => True
  end.

(** [a + b] *)
Definition num_add (a b : number) : number :=
  match a with
  | NaN => NaN
  | PosInf => match b with NaN | NegInf => NaN | _ => PosInf end
  | NegInf => match b with NaN | PosInf => NaN | _ => NegInf end
  | Fin x => match b with
             | NaN => NaN
             | PosInf => PosInf
             | NegInf => NegInf
             | Fin y => toNumber (x + y)
             end
  end.

(** [a - b] *)
Definition num_sub (a b : number) : number :=
  match a with
  | NaN => NaN
  | PosInf => match b with NaN | PosInf => NaN | _ => PosInf end
  | NegInf => match b with NaN | NegInf => NaN | _ => NegInf end
  | Fin x => match b with
             | NaN => NaN
             | PosInf => NegInf
             | NegInf => PosInf
             | Fin y => toNumber (x - y)
             end
  end.

(** [a >= b]; false as soon as one side is NaN. *)
Definition num_geb (a b : number) : bool :=
  match a with
  | NaN => false
  | PosInf => match b with NaN => false | _ => true end
  | NegInf => match b with NegInf => true | _ => false end
  | Fin x => match b with
             | NaN | PosInf => false
             | NegInf => true
             | Fin y => y <=? x
             end
  end.

(** [a <= b] *)
Definition num_leb (a b : number) : bool := num_geb b a.

(** [!a] on a number: zero and NaN are falsy. *)
Definition num_falsy (a : number) : bool :=
  match a with
  | Fin z => z =? 0
  | NaN => true
  | PosInf | NegInf => false
  end.

End JS.

(* ===================================================================== *)
(** ** services/treasury.js: the simulated yield account *)
(* ===================================================================== *)

Module Treasury.
Import JS.

Record SpendResult : Type := mkSpend {
  success : bool;
  remaining : number;
  needed : option number
}.

(** [let simulatedYield = 1420] *)
Definition initialYield : number := Fin 1420.

Definition getSimulatedYield (simulatedYield : number) : number :=
  simulatedYield.

(** [accrueSimulatedYield(amount = null)]; [rnd] is the value of
    [Math.floor(Math.random() * 3) + 1] drawn by the call. *)
Definition accrueSimulatedYield (amount : option number) (rnd : Z)
    (simulatedYield : number) : number * number :=
  let accrual := default (Fin rnd) amount in
  let y := num_add simulatedYield accrual in
  (y, y).

(** [spendSimulatedYield(amount)]: the result and the new balance. *)
Definition spendSimulatedYield (amount : number) (simulatedYield : number)
    : SpendResult * number :=
  if num_geb simulatedYield amount then
    let y := num_sub simulatedYield amount in
    (mkSpend true y None, y)
  else
    (mkSpend false simulatedYield (Some amount), simulatedYield).

Definition resetSimulatedYield (amount : option number)
    (simulatedYield : number) : number * number :=
  let y := default (Fin 1420) amount in (y, y).

(** The calls the API can make on the account with amounts that are
    integers, and their history. *)
Inductive YieldOp : Type :=
| Accrue (amount : option Z) (rnd : Z)
| Spend (amount : Z)
| Reset (amount : option Z).

Definition yieldStep (y : number) (op : YieldOp) : number :=
  match op with
  | Accrue a rnd => snd (accrueSimulatedYield (Fin <$> a) rnd y)
  | Spend a => snd (spendSimulatedYield (Fin a) y)
  | Reset a => snd (resetSimulatedYield (Fin <$> a) y)
  end.

Definition runYield (ops : list YieldOp) (y : number) : number :=
  fold_left yieldStep ops y.

(** Whether some debit of the history went through. *)
Fixpoint debitOccurred (ops : list YieldOp) (y : number) : bool :=
  match ops with
  | [] => false
  | Spend a :: rest =>
      success (fst (spendSimulatedYield (Fin a) y))
      || debitOccurred rest (yieldStep y (Spend a))
  | op :: rest => debitOccurred rest (yieldStep y op)
  end.

End Treasury.

(* ===================================================================== *)
(** ** services/ledger.js: settlement ledger and revenue distributor *)
(* ===================================================================== *)

Module Ledger.
Import JS.

(** One element of [entry.distributions]. *)
Record Distribution : Type := mkDistribution {
  d_txid : string;
  toAddress : string;
  toName : string;
  d_amount : Z;
  d_timestamp : string
}.

(** The two shapes of ledger entry: [type: "incoming"] carries
    [txid, from, amount, skillId]; [type: "negotiation"] carries
    [bountyId, oldReward, newReward, updatedBy] and has no [amount]. *)
Inductive EntryType : Type :=
| incoming (txid from : string) (amount : Z) (skillId : string)
| negotiation (bountyId oldReward newReward updatedBy : string).

Record LedgerEntry : Type := mkEntry {
  id : nat;
  entry_type : EntryType;
  timestamp : string;
  distributions : list Distribution
}.

(** [entry.amount]: [undefined] on a negotiation entry. *)
Definition amount (entry : LedgerEntry) : option Z :=
  match entry_type entry with
  | incoming _ _ a _ => Some a
  | negotiation _ _ _ _ => None
  end.

Definition isNegotiation (entry : LedgerEntry) : bool :=
  match entry_type entry with
  | incoming _ _ _ _ => false
  | negotiation _ _ _ _ => true
  end.

(** [recordIncomingPayment({ txid, from, amount, skillId, timestamp })];
    [now] is the clock reading used when no timestamp is passed.  The
    write to ledger.json that follows the push swallows its own errors
    and changes neither the array nor the value returned. *)
Definition recordIncomingPayment (txid from : string) (amt : Z)
    (skillId : string) (ts : option string) (now : string)
    (entries : list LedgerEntry) : LedgerEntry * list LedgerEntry :=
  let entry :=
    mkEntry (length entries + 1)%nat (incoming txid from amt skillId)
            (or_str ts now) [] in
  (entry, entries ++ [entry]).

(** [recordDistribution({ ledgerEntryId, txid, toAddress, toName, amount })]:
    the first entry with that id, when there is one, gets the record
    pushed on its [distributions]; the entry is the very object held by
    the array.  Nothing is returned. *)
Definition recordDistribution (ledgerEntryId : nat)
    (txid toAddress toName : string) (amt : Z) (now : string)
    (entries : list LedgerEntry) : list LedgerEntry :=
  match list_find (fun e => id e = ledgerEntryId) entries with
  | Some (i, entry) =>
      <[ i := mkEntry (id entry) (entry_type entry) (timestamp entry)
                (distributions entry
                   ++ [mkDistribution txid toAddress toName amt now]) ]>
        entries
  | None => entries
  end.

(** [recordNegotiation({ bountyId, oldReward, newReward, updatedBy })] *)
Definition recordNegotiation (bountyId oldReward newReward : string)
    (updatedBy : option string) (now : string)
    (entries : list LedgerEntry) : LedgerEntry * list LedgerEntry :=
  let entry :=
    mkEntry (length entries + 1)%nat
            (negotiation bountyId oldReward newReward
               (or_str updatedBy "anonymous-agent"))
            now [] in
  (entry, entries ++ [entry]).

Definition getLedger (entries : list LedgerEntry) : list LedgerEntry :=
  entries.

(** The object returned by [getLedgerSummary]; the three totals are
    BigInts printed in decimal. *)
Record Summary : Type := mkSummary {
  totalPayments : nat;
  totalIncomingMicroSTX : Z;
  totalDistributedMicroSTX : Z;
  platformBalanceMicroSTX : Z;
  s_entries : list LedgerEntry
}.

(** The inner loop, [totalDistributed += BigInt(dist.amount)]. *)
Fixpoint addDistributions (dists : list Distribution)
    (totalDistributed : Z) : result Z :=
  match dists with
  | [] => Ok totalDistributed
  | dist :: rest =>
      bind (BigInt (Some (d_amount dist)))
           (fun a => addDistributions rest (totalDistributed + a))
  end.

(** The outer loop over [entries]. *)
Fixpoint summaryLoop (rest : list LedgerEntry)
    (totalIncoming totalDistributed : Z) : result (Z * Z) :=
  match rest with
  | [] => Ok (totalIncoming, totalDistributed)
  | entry :: rest' =>
      bind (BigInt (amount entry)) (fun a =>
      bind (addDistributions (distributions entry) totalDistributed)
           (fun td => summaryLoop rest' (totalIncoming + a) td))
  end.

Definition getLedgerSummary (entries : list LedgerEntry) : result Summary :=
  bind (summaryLoop entries 0 0) (fun '(totalIncoming, totalDistributed) =>
    Ok (mkSummary (length entries) totalIncoming totalDistributed
                  (totalIncoming - totalDistributed) entries)).

(** Calls on the ledger, for talking about reachable states. *)
Inductive LedgerOp : Type :=
| OpIncoming (txid from : string) (amt : Z) (skillId : string)
             (ts : option string) (now : string)
| OpDistribution (ledgerEntryId : nat) (txid toAddress toName : string)
                 (amt : Z) (now : string)
| OpNegotiation (bountyId oldReward newReward : string)
                (updatedBy : option string) (now : string).

Definition ledgerStep (entries : list LedgerEntry) (op : LedgerOp)
    : list LedgerEntry :=
  match op with
  | OpIncoming txid from amt skillId ts now =>
      snd (recordIncomingPayment txid from amt skillId ts now entries)
  | OpDistribution eid txid toAddress toName amt now =>
      recordDistribution eid txid toAddress toName amt now entries
  | OpNegotiation bountyId oldReward newReward updatedBy now =>
      snd (recordNegotiation bountyId oldReward newReward updatedBy now
             entries)
  end.

Definition runLedger (ops : list LedgerOp) (entries : list LedgerEntry)
    : list LedgerEntry :=
  fold_left ledgerStep ops entries.

Definition opIsNegotiation (op : LedgerOp) : bool :=
  match op with
  | OpNegotiation _ _ _ _ _ => true
  | _ => false
  end.

(** The id a call hands out, that of the entry it returns;
    [recordDistribution] returns nothing. *)
Definition assignedId (entries : list LedgerEntry) (op : LedgerOp)
    : option nat :=
  match op with
  | OpIncoming txid from amt skillId ts now =>
      Some (id (fst (recordIncomingPayment txid from amt skillId ts now
                       entries)))
  | OpDistribution _ _ _ _ _ _ => None
  | OpNegotiation bountyId oldReward newReward updatedBy now =>
      Some (id (fst (recordNegotiation bountyId oldReward newReward updatedBy
                       now entries)))
  end.

(** The ids handed out by a sequence of calls, in the order of the
    calls, each call working on the ledger the previous ones left. *)
Fixpoint assignedIds (ops : list LedgerOp) (entries : list LedgerEntry)
    : list nat :=
  match ops with
  | [] => []
  | op :: rest =>
      option_list (assignedId entries op)
        ++ assignedIds rest (ledgerStep entries op)
  end.

(** A recipient as [resolveProviders] hands it over: the address is the
    empty string when none is configured. *)
Record Provider : Type := mkProvider {
  name : string;
  address : string;
  sharePercent : Z
}.

(** One element of the array [distributeRevenue] returns. *)
Inductive Payout : Type :=
| Paid (name txid : string) (amt : Z) (explorerUrl : string)
| Failed (name error : string) (amt : Z).

Section Distributor.

(** [config.platformFeePercent] *)
Variable platformFeePercent : Z.

(** [sendSTX({ recipientAddress, amount, senderKey, memo })], the
    transfer collaborator: the position of the recipient in the list
    stands for the moment of the call, so that two calls with the same
    arguments may fare differently.  It gives the txid and the
    explorer URL, or throws. *)
Variable sendSTX : nat -> string -> Z -> string -> result (string * string).

(** [new Date().toISOString()] at the same moments. *)
Variable clock : nat -> string.

Definition platformFee (totalAmount : Z) : Z :=
  bigint_div (totalAmount * platformFeePercent) 100.

Definition distributable (totalAmount : Z) : Z :=
  totalAmount - platformFee totalAmount.

Definition providerAmount (dist : Z) (provider : Provider) : Z :=
  bigint_div (dist * sharePercent provider) 100.

(** The [for (const provider of providers)] loop; [k] counts the
    recipients already visited. *)
Fixpoint payProviders (k : nat) (ledgerEntryId : nat) (dist : Z)
    (providers : list Provider) (entries : list LedgerEntry)
    : list Payout * list LedgerEntry :=
  match providers with
  | [] => ([], entries)
  | provider :: rest =>
      if negb (truthy_str (address provider)) then
        payProviders (S k) ledgerEntryId dist rest entries
      else
        let amt := providerAmount dist provider in
        if amt <=? 0 then
          payProviders (S k) ledgerEntryId dist rest entries
        else
          match sendSTX k (address provider) amt
                  ("moltmarket:" +:+ name provider) with
          | Ok (txid, explorerUrl) =>
              let entries1 :=
                recordDistribution ledgerEntryId txid (address provider)
                  (name provider) amt (clock k) entries in
              let '(results, entries2) :=
                payProviders (S k) ledgerEntryId dist rest entries1 in
              (Paid (name provider) txid amt explorerUrl :: results,
               entries2)
          | Throw err =>
              let '(results, entries2) :=
                payProviders (S k) ledgerEntryId dist rest entries in
              (Failed (name provider) err amt :: results, entries2)
          end
  end.

(** [distributeRevenue({ ledgerEntryId, totalAmount, providers })] *)
Definition distributeRevenue (ledgerEntryId : nat) (totalAmount : Z)
    (providers : list Provider) (entries : list LedgerEntry)
    : list Payout * list LedgerEntry :=
  payProviders 0 ledgerEntryId (distributable totalAmount) providers
    entries.

End Distributor.

(** The amounts on the [distributions] of the entry that
    [recordDistribution] would pick for an id. *)
Definition recordedAmounts (ledgerEntryId : nat)
    (entries : list LedgerEntry) : list Z :=
  match list_find (fun e => id e = ledgerEntryId) entries with
  | Some (_, entry) => map d_amount (distributions entry)
  | None => []
  end.

Definition sumZ (l : list Z) : Z := fold_right Z.add 0 l.

(** The ids of a ledger that was only ever grown by this module. *)
Definition wellNumbered (entries : list LedgerEntry) : Prop :=
  map id entries = seq 1 (length entries).

(** The two totals of the summary as plain sums: the amounts of the
    entries that have one, and the amounts of every distribution. *)
Definition incomingTotal (entries : list LedgerEntry) : Z :=
  sumZ (omap amount entries).

Definition distributedTotal (entries : list LedgerEntry) : Z :=
  sumZ (map d_amount (concat (map distributions entries))).

(** What a payout result says about whom and how much. *)
Definition payoutKey (r : Payout) : string * Z :=
  match r with
  | Paid n _ a _ => (n, a)
  | Failed n _ a => (n, a)
  end.

(** The amounts [distributeRevenue] passed on to [recordDistribution]. *)
Definition paidAmounts (results : list Payout) : list Z :=
  omap (fun r => match r with
                 | Paid _ _ a _ => Some a
                 | Failed _ _ _ => None
                 end) results.

Definition entryExists (ledgerEntryId : nat) (entries : list LedgerEntry)
    : bool :=
  existsb (fun e => Nat.eqb (id e) ledgerEntryId) entries.

(** Steps 1 and 2 of the distribution algorithm as the specification
    words them, with floor division, to compare the code with. *)
Definition specFee (feePercent totalAmount : Z) : Z :=
  totalAmount * feePercent / 100.

Definition specShare (dist : Z) (recipient : Provider) : Z :=
  dist * sharePercent recipient / 100.

Definition specAttempts (dist : Z) (recipients : list Provider)
    : list (string * Z) :=
  omap (fun r =>
          if decide (address r = "") then None
          else if specShare dist r <=? 0 then None
          else Some (name r, specShare dist r))
       recipients.

(** Step 3 as the specification words it: for each recipient that is
    not skipped, a transfer of the share through the collaborator,
    whatever became of the others.  An attempt keeps the position of the
    recipient in the list, the share and what the collaborator
    answered. *)
Record Attempt : Type := mkAttempt {
  at_position : nat;
  at_recipient : Provider;
  at_share : Z;
  at_outcome : result (string * string)
}.

Fixpoint specOutcomes
    (transfer : nat -> string -> Z -> string -> result (string * string))
    (k : nat) (dist : Z) (recipients : list Provider) : list Attempt :=
  match recipients with
  | [] => []
  | r :: rest =>
      if decide (address r = "") then specOutcomes transfer (S k) dist rest
      else if specShare dist r <=? 0 then
        specOutcomes transfer (S k) dist rest
      else
        mkAttempt k r (specShare dist r)
          (transfer k (address r) (specShare dist r)
             ("moltmarket:" +:+ name r))
        :: specOutcomes transfer (S k) dist rest
  end.

(** What the caller is told of an attempt. *)
Definition specResult (a : Attempt) : Payout :=
  match at_outcome a with
  | Ok (txid, explorerUrl) =>
      Paid (name (at_recipient a)) txid (at_share a) explorerUrl
  | Throw err => Failed (name (at_recipient a)) err (at_share a)
  end.

(** What the ledger keeps of an attempt: a record when the transfer went
    through, nothing when it failed. *)
Definition specRecord (clock : nat -> string) (a : Attempt)
    : option Distribution :=
  match at_outcome a with
  | Ok (txid, _) =>
      Some (mkDistribution txid (address (at_recipient a))
              (name (at_recipient a)) (at_share a) (clock (at_position a)))
  | Throw _ => None
  end.

(** An entry with more records at the end of its [distributions]. *)
Definition withDistributions (entry : LedgerEntry)
    (more : list Distribution) : LedgerEntry :=
  mkEntry (id entry) (entry_type entry) (timestamp entry)
          (distributions entry ++ more).

End Ledger.

(* ===================================================================== *)
(** ** services/skills.js: the bounty board *)
(* ===================================================================== *)

Module Skills.
Import JS.

Record Submission : Type := mkSubmission {
  submittedBy : string;
  result : string;
  submittedAt : string
}.

(** One element of [bounty.negotiationHistory]. *)
Record Change : Type := mkChange {
  action : string;
  oldReward : option string;
  newReward : option string;
  c_timestamp : string
}.

(** A bounty; [reward] may have been left out when posting, and
    [updatedAt] and [negotiationHistory] exist only once an update went
    through. *)
Record Bounty : Type := mkBounty {
  id : string;
  title : string;
  description : string;
  reward : option string;
  postedBy : string;
  status : string;
  postedAt : string;
  submissions : list Submission;
  updatedAt : option string;
  negotiationHistory : option (list Change)
}.

(** [postBounty({ title, description, reward, postedBy })] *)
Definition postBounty (title description : string) (reward : option string)
    (postedBy : option string) (now : string) (bounties : list Bounty)
    : Bounty * list Bounty :=
  let bounty :=
    mkBounty ("bounty-" +:+ pretty (length bounties + 1)%nat)
             title description reward
             (or_str postedBy "anonymous-agent")
             "open" now [] None None in
  (bounty, bounties ++ [bounty]).

(** [listBounties(status = null)] *)
Definition listBounties (st : option string) (bounties : list Bounty)
    : list Bounty :=
  if truthy_opt st
  then filter (fun b => Some (status b) = st) bounties
  else bounties.

(** [getBounty(bountyId)]: the position is kept along with the object,
    since callers mutate what they are handed. *)
Definition getBounty (bountyId : string) (bounties : list Bounty)
    : option (nat * Bounty) :=
  list_find (fun b => id b = bountyId) bounties.

(** What [submitBountyWork] returns: [null], [{ error }] or
    [{ bounty, submission }]. *)
Inductive SubmitResult : Type :=
| SubmitNull
| SubmitError (error : string)
| Submitted (bounty : Bounty) (submission : Submission).

(** [submitBountyWork({ bountyId, submittedBy, result })] *)
Definition submitBountyWork (bountyId submittedBy res now : string)
    (bounties : list Bounty) : SubmitResult * list Bounty :=
  match getBounty bountyId bounties with
  | None => (SubmitNull, bounties)
  | Some (i, bounty) =>
      if decide (status bounty <> "open") then
        (SubmitError "Bounty is not open", bounties)
      else
        let submission := mkSubmission submittedBy res now in
        let bounty' :=
          mkBounty (id bounty) (title bounty) (description bounty)
                   (reward bounty) (postedBy bounty) "submitted"
                   (postedAt bounty) (submissions bounty ++ [submission])
                   (updatedAt bounty) (negotiationHistory bounty) in
        (Submitted bounty' submission, <[ i := bounty' ]> bounties)
  end.

(** The [updates] argument of [updateBounty]. *)
Record Updates : Type := mkUpdates {
  u_reward : option string;
  u_description : option string;
  u_postedBy : option string
}.

(** What [updateBounty] returns: [null], [{ error }] or the bounty. *)
Inductive UpdateResult : Type :=
| UpdateNull
| UpdateError (error : string)
| Updated (bounty : Bounty).

Definition notOpenError : string := "Bounty is not open".
Definition posterOnlyError : string :=
  "Only the bounty poster can update the reward".

(** [updateBounty(bountyId, updates)] *)
Definition updateBounty (bountyId : string) (updates : Updates)
    (now : string) (bounties : list Bounty) : UpdateResult * list Bounty :=
  match list_find (fun b => id b = bountyId) bounties with
  | None => (UpdateNull, bounties)
  | Some (i, bounty) =>
      if decide (status bounty <> "open") then
        (UpdateError notOpenError, bounties)
      else if truthy_opt (u_postedBy updates)
              && bool_decide (u_postedBy updates <> Some (postedBy bounty))
      then (UpdateError posterOnlyError, bounties)
      else
        let oldReward := reward bounty in
        let reward' :=
          if truthy_opt (u_reward updates) then u_reward updates
          else reward bounty in
        let description' :=
          if truthy_opt (u_description updates)
          then default (description bounty) (u_description updates)
          else description bounty in
        let history := default [] (negotiationHistory bounty) in
        let newReward :=
          if truthy_opt (u_reward updates) then u_reward updates
          else oldReward in
        let bounty' :=
          mkBounty (id bounty) (title bounty) description' reward'
                   (postedBy bounty) (status bounty) (postedAt bounty)
                   (submissions bounty) (Some now)
                   (Some (history
                            ++ [mkChange "reward_updated" oldReward
                                  newReward now])) in
        (Updated bounty', <[ i := bounty' ]> bounties)
  end.

(** Calls on the board, for talking about its reachable states. *)
Inductive BoardOp : Type :=
| OpPost (title description : string) (reward postedBy : option string)
         (now : string)
| OpSubmit (bountyId submittedBy res now : string)
| OpUpdate (bountyId : string) (updates : Updates) (now : string).

Definition boardStep (bounties : list Bounty) (op : BoardOp) : list Bounty :=
  match op with
  | OpPost t d r p now => snd (postBounty t d r p now bounties)
  | OpSubmit b s r now => snd (submitBountyWork b s r now bounties)
  | OpUpdate b u now => snd (updateBounty b u now bounties)
  end.

Definition runBoard (ops : list BoardOp) (bounties : list Bounty)
    : list Bounty :=
  fold_left boardStep ops bounties.

End Skills.

(* ===================================================================== *)
(** ** middleware/paymentGate.js: the payment proof gate *)
(* ===================================================================== *)

Module PaymentGate.
Import JS.

(** A plain JavaScript object: its own properties by name.  A property
    that was never set reads as [undefined], here [None]. *)
Abbreviation object := (gmap string value).

(** What [await fetch(url)] followed by [verifyRes.json()] can do: the
    fetch rejects, or it gives a response with its [ok] flag and a body
    that parses to an object or makes the handler throw (a body that is
    not JSON, or [null], on which reading [tx_status] throws). *)
Inductive FetchResult : Type :=
| FetchRejects (message : string)
| FetchResponse (ok : bool) (json : result object).

(** One element of [acceptedAssets]. *)
Record AssetOption : Type := mkAssetOption {
  opt_asset : string;
  opt_amount : value
}.

(** How the middleware ends: [req.x402] set and [next()] called; the 402
    built by [handleMultiAsset402]; or the request handed to the
    middleware of the x402-stacks package, which settles a
    [payment-signature] or answers 402 itself. *)
Inductive GateOutcome : Type :=
| Next (x402 : object)
| MultiAsset402 (accepts : list AssetOption)
| BaseMiddleware (hasPayment : bool).

Section Gate.

(** [config.stacksNetwork] *)
Variable stacksNetwork : string.

(** The global [fetch]. *)
Variable fetch : string -> FetchResult.

(** The options of [paymentGate({ price, description, asset, acceptedAssets })]
    that the wrapper reads. *)
Variable price : value.
Variable asset : string.
Variable acceptedAssets : option (list AssetOption).

Definition verifyUrl (directTxid : string) : string :=
  "https://api."
    +:+ (if decide (stacksNetwork = "mainnet") then "" else "testnet.")
    +:+ "hiro.so/extended/v1/tx/" +:+ directTxid.

Definition explorerUrl (directTxid : string) : string :=
  "https://explorer.hiro.so/txid/" +:+ directTxid +:+ "?chain="
    +:+ stacksNetwork.

(** The object attached for a yield payment. *)
Definition yieldX402 (yieldPayment : string) : object :=
  <[ "txid" := Str yieldPayment ]>
  (<[ "amount" := price ]>
  (<[ "asset" := Str "sBTC-yield" ]>
  (<[ "payer" := Str "yield-engine" ]>
  (<[ "explorerUrl" := Null ]>
  (<[ "yieldPowered" := Bool true ]> ∅))))).

(** The object attached for a direct txid, with the payer it names. *)
Definition directX402 (directTxid : string) (payer : value) : object :=
  <[ "txid" := Str directTxid ]>
  (<[ "amount" := price ]>
  (<[ "asset" := Str asset ]>
  (<[ "payer" := payer ]>
  (<[ "explorerUrl" := Str (explorerUrl directTxid) ]> ∅)))).

(** [txData.sender_address || "unknown"] *)
Definition senderOrUnknown (txData : object) : value :=
  if truthy (txData !! "sender_address")
  then default (Str "unknown") (txData !! "sender_address")
  else Str "unknown".

(** The middleware returned by [paymentGate(...)], run on the headers
    of a request.  It runs in the process that holds the yield balance
    of services/treasury.js, which is threaded through. *)
Definition paymentGate (headers : gmap string string)
    (simulatedYield : number) : GateOutcome * number :=
  if truthy_opt (headers !! "x-yield-payment") then
    (Next (yieldX402 (default "" (headers !! "x-yield-payment"))),
     simulatedYield)
  else if truthy_opt (headers !! "x-payment-txid") then
    let directTxid := default "" (headers !! "x-payment-txid") in
    match fetch (verifyUrl directTxid) with
    | FetchResponse true (Ok txData) =>
        (Next (directX402 directTxid (senderOrUnknown txData)),
         simulatedYield)
    | FetchResponse true (Throw _) =>
        (Next (directX402 directTxid (Str "unverified")), simulatedYield)
    | FetchResponse false _ =>
        (Next (directX402 directTxid (Str "pending")), simulatedYield)
    | FetchRejects _ =>
        (Next (directX402 directTxid (Str "unverified")), simulatedYield)
    end
  else
    let hasPayment := truthy_opt (headers !! "payment-signature") in
    if negb hasPayment
       && match acceptedAssets with
          | Some l => (1 <? length l)%nat
          | None => false
          end
    then (MultiAsset402 (default [] acceptedAssets), simulatedYield)
    else (BaseMiddleware hasPayment, simulatedYield).

End Gate.

End PaymentGate.

(* ===================================================================== *)
(** ** Observations on histories and ledgers *)
(* ===================================================================== *)

Module Observations.
Import JS Treasury Ledger.

(** What a history of calls credited to the yield account through
    [accrueSimulatedYield], and what its spends took out of a balance that
    started at [y]: only the spends that went through count. *)
Fixpoint accruedTotal (ops : list YieldOp) : Z :=
  match ops with
  | [] => 0
  | Accrue a rnd :: rest => default rnd a + accruedTotal rest
  | _ :: rest => accruedTotal rest
  end.

Fixpoint spentTotal (ops : list YieldOp) (y : number) : Z :=
  match ops with
  | [] => 0
  | Spend a :: rest =>
      (if success (fst (spendSimulatedYield (Fin a) y)) then a else 0)
      + spentTotal rest (yieldStep y (Spend a))
  | op :: rest => spentTotal rest (yieldStep y op)
  end.

Definition isReset (op : YieldOp) : bool :=
  match op with
  | Reset _ => true
  | _ => false
  end.


(** The amount of the call is a number and is not negative. *)
Definition amountValid (op : YieldOp) : Prop :=
  match op with
  | Accrue a rnd => 0 <= default rnd a /\ isDouble (default rnd a)
  | Spend a => 0 <= a /\ isDouble a
  | Reset a => 0 <= default 1420 a /\ isDouble (default 1420 a)
  end.

(** [e'] is the entry [e] with, at most, more distributions at the end. *)
Definition grownFrom (e e' : LedgerEntry) : Prop :=
  id e' = id e
  /\ entry_type e' = entry_type e
  /\ timestamp e' = timestamp e
  /\ distributions e `prefix_of` distributions e'.

(** The amounts of the transfers a call attempted, paid or failed. *)
Definition attemptedTotal (results : list Payout) : Z :=
  sumZ (map (fun r => snd (payoutKey r)) results).

End Observations.

(* ===================================================================== *)
(** ** Observations on the bounty board *)
(* ===================================================================== *)

Module BoardObservations.
Import JS Skills.

(** The bounty [submitBountyWork] writes back for an accepted submission,
    and the one [updateBounty] writes back for an accepted update: the
    objects built in the bodies of the two functions. *)
Definition afterSubmit (bounty : Bounty) (submission : Submission) : Bounty :=
  mkBounty (id bounty) (title bounty) (description bounty)
           (reward bounty) (postedBy bounty) "submitted"
           (postedAt bounty) (submissions bounty ++ [submission])
           (updatedAt bounty) (negotiationHistory bounty).

Definition afterUpdate (bounty : Bounty) (updates : Updates) (now : string)
    : Bounty :=
  let reward' :=
    if truthy_opt (u_reward updates) then u_reward updates
    else reward bounty in
  mkBounty (id bounty) (title bounty)
           (if truthy_opt (u_description updates)
            then default (description bounty) (u_description updates)
            else description bounty)
           reward' (postedBy bounty) (status bounty) (postedAt bounty)
           (submissions bounty) (Some now)
           (Some (default [] (negotiationHistory bounty)
                    ++ [mkChange "reward_updated" (reward bounty) reward'
                          now])).

(** A history whose records follow one another: each starts from the
    reward the one before ended with, the first from [start], and the
    last ends with [current]. *)
Fixpoint chainEndsAt (h : list Change) (start current : option string)
    : Prop :=
  match h with
  | [] => start = current
  | c :: rest => oldReward c = start /\ chainEndsAt rest (newReward c) current
  end.

Definition historyConsistent (b : Bounty) : Prop :=
  exists start,
    chainEndsAt (default [] (negotiationHistory b)) start (reward b).

(** Open without a submission, or submitted with exactly one. *)
Definition submissionsMatchStatus (b : Bounty) : Prop :=
  (status b = "open" /\ submissions b = [])
  \/ (status b = "submitted" /\ length (submissions b) = 1%nat).

(** The id of the bounty posted at position [k] of the board. *)
Definition bountyIdAt (k : nat) : string := "bounty-" +:+ pretty (k + 1)%nat.

End BoardObservations.

(* ===================================================================== *)
(** ** config.js: the configuration the other modules read *)
(* ===================================================================== *)

Module Config.
Import JS.

(** One element of [config.providers]. *)
Record Wallet : Type := mkWallet {
  privateKey : string;
  w_address : string
}.

(** The fields of [config] read by [validateConfig] and by
    [resolveProviders]; the network and the fee percent are parameters of
    the functions that read them. *)
Record Configuration : Type := mkConfiguration {
  platformPrivateKey : string;
  platformAddress : string;
  providers : gmap string Wallet
}.

(** [key.toUpperCase()], on the ASCII letters. *)
Definition upperAscii (c : Ascii.ascii) : Ascii.ascii :=
  let n := Ascii.nat_of_ascii c in
  if (97 <=? n)%nat && (n <=? 122)%nat
  then Ascii.ascii_of_nat (n - 32) else c.

Fixpoint toUpperCase (s : string) : string :=
  match s with
  | EmptyString => EmptyString
  | String c rest => String (upperAscii c) (toUpperCase rest)
  end.

Definition missingKeyError : string :=
  "PLATFORM_PRIVATE_KEY is not set. Run: npm run setup:wallets".
Definition missingAddressError : string :=
  "PLATFORM_ADDRESS is not set. Run: npm run setup:wallets".
Definition missingConfigurationError : string :=
  "Missing required configuration. See errors above.".

Definition providerWarning (key : string) : string :=
  "PROVIDER_" +:+ toUpperCase key
    +:+ "_ADDRESS not set. Multi-hop payments to provider " +:+ key
    +:+ " will be skipped.".

(** The [for (const key of providerKeys)] loop; reading [.address] of a
    provider that is not there throws. *)
Fixpoint providerWarnings (cfg : Configuration) (keys : list string)
    (warnings : list string) : result (list string) :=
  match keys with
  | [] => Ok warnings
  | key :: rest =>
      match providers cfg !! key with
      | None =>
          Throw "TypeError: Cannot read properties of undefined (reading 'address')"
      | Some w =>
          providerWarnings cfg rest
            (if truthy_str (w_address w) then warnings
             else warnings ++ [providerWarning key])
      end
  end.

(** [validateConfig()]: the warnings it prints when it returns, or the
    error it throws. *)
Definition validateConfig (cfg : Configuration) : result (list string) :=
  let errors :=
    (if truthy_str (platformPrivateKey cfg) then [] else [missingKeyError])
    ++ (if truthy_str (platformAddress cfg) then []
        else [missingAddressError]) in
  bind (providerWarnings cfg ["a"; "b"; "c"] []) (fun warnings =>
    if (0 <? length errors)%nat then Throw missingConfigurationError
    else Ok warnings).

End Config.

(* ===================================================================== *)
(** ** services/skills.js: the skill catalogue and its providers *)
(* ===================================================================== *)

Module Catalogue.
Import JS Config Ledger PaymentGate.

(** One element of [skill.providers]. *)
Record ProviderSpec : Type := mkProviderSpec {
  ps_name : string;
  addressKey : string;
  ps_sharePercent : Z
}.

(** The fields of a skill that pricing, payment and distribution read.
    The price is a decimal string in the source, here the integer it
    denotes; [display] of an accepted asset is left out, as are the
    texts and the [execute] function. *)
Record Skill : Type := mkSkill {
  sk_id : string;
  sk_name : string;
  sk_price : Z;
  sk_asset : string;
  sk_acceptedAssets : option (list AssetOption);
  sk_providers : list ProviderSpec
}.

Definition SKILLS : list Skill :=
  [ mkSkill "wallet-auditor" "Stacks Wallet Auditor" 5000 "STX" None
      [ mkProviderSpec "chain-data-provider" "a" 70;
        mkProviderSpec "risk-analysis-provider" "b" 30 ];
    mkSkill "stacks-intel" "Stacks Chain Intelligence" 3000 "STX" None
      [ mkProviderSpec "block-data-provider" "b" 60;
        mkProviderSpec "analytics-provider" "c" 40 ];
    mkSkill "alpha-leak" "Alpha Signal Feed" 10000 "STX"
      (Some [ mkAssetOption "STX" (Str "10000");
              mkAssetOption "sBTC" (Str "1000") ])
      [ mkProviderSpec "signal-detector" "a" 60;
        mkProviderSpec "alpha-analyst" "c" 40 ];
    mkSkill "bounty-executor" "Moltbot Bounty Executor" 8000 "STX"
      (Some [ mkAssetOption "STX" (Str "8000");
              mkAssetOption "sBTC" (Str "800") ])
      [ mkProviderSpec "orchestrator-provider" "a" 50;
        mkProviderSpec "data-provider" "c" 50 ] ].

(** [getSkill(skillId)] *)
Definition getSkill (skillId : string) : option Skill :=
  snd <$> list_find (fun sk => sk_id sk = skillId) SKILLS.

(** [config.providers[p.addressKey]?.address || ""] *)
Definition configuredAddress (cfg : Configuration) (key : string) : string :=
  match providers cfg !! key with
  | Some w => if truthy_str (w_address w) then w_address w else ""
  | None => ""
  end.

(** [resolveProviders(providers)] *)
Definition resolveProviders (cfg : Configuration)
    (specs : list ProviderSpec) : list Provider :=
  map (fun p => mkProvider (ps_name p) (configuredAddress cfg (addressKey p))
                  (ps_sharePercent p))
      specs.

End Catalogue.

(* ===================================================================== *)
(** ** middleware/paymentGate.js: the multi-asset 402 *)
(* ===================================================================== *)

Module MultiAsset.
Import JS PaymentGate.

Section Printing.

(** [Number::toString] of the engine for magnitudes above 2^53, where it
    prints the shortest digits that tell the double from its neighbours,
    padded with zeros ("18446744073709552000" for 2^64), and switches to
    exponent notation from 10^21 on ("1e+21"). *)
Variable numberToString : Z -> string.

(** [String(v)] on the values an amount can be.  [Num z] is the number
    written [z], the double nearest to it; up to 2^53 in magnitude it is
    printed with all its digits. *)
Definition toString (v : value) : string :=
  match v with
  | Null => "null"
  | Bool true => "true"
  | Bool false => "false"
  | Num z =>
      let n := round53 z in
      if Z.abs n <=? 2 ^ 53 then pretty n else numberToString n
  | Str s => s
  end.

End Printing.

(** How an amount of an option comes out in a 402 body: a string as it
    is, an integer of at most 2^53 in magnitude with all its digits. *)
Definition printedAs (v : value) (printed : string) : Prop :=
  match v with
  | Str s => printed = s
  | Num z => Z.abs z <= 2 ^ 53 -> printed = pretty z
  | _ => True
  end.

(** The [extra] of an accepted option. *)
Record Extra : Type := mkExtra {
  tokenContract : option string;
  extraName : string;
  decimals : option Z
}.

(** One element of [accepts] in the 402 body. *)
Record Accept : Type := mkAccept {
  scheme : string;
  network : string;
  amount : string;
  acc_asset : string;
  payTo : string;
  maxTimeoutSeconds : Z;
  extra : option Extra
}.

(** The body sent with status 402 (and, base64-encoded, in the
    [payment-required] header). *)
Record PaymentRequired : Type := mkPaymentRequired {
  x402Version : Z;
  resourceUrl : string;
  resourceDescription : string;
  accepts : list Accept
}.

Section Handler.

(** [config.stacksNetwork], [config.platformAddress] and
    [config.usdcxContract] (a key the configuration may lack). *)
Variable stacksNetwork : string.
Variable platformAddress : string.
Variable usdcxContract : option string.

(** [getDefaultSBTCContract] of the x402-stacks package. *)
Variable getDefaultSBTCContract : string -> string.

(** The engine's printing of large numbers, for [String(opt.amount)]. *)
Variable numberToString : Z -> string.

Definition networkId : string :=
  if decide (stacksNetwork = "mainnet") then "stacks:1"
  else "stacks:2147483648".

(** The callback of [acceptedAssets.map]. *)
Definition acceptOf (opt : AssetOption) : Accept :=
  let extra0 :=
    if decide (opt_asset opt = "sBTC")
    then Some (mkExtra (Some (getDefaultSBTCContract stacksNetwork)) "sBTC"
                 None)
    else None in
  let extra1 :=
    if decide (opt_asset opt = "USDCx")
    then Some (mkExtra usdcxContract "USDCx" (Some 6))
    else extra0 in
  mkAccept "exact" networkId (toString numberToString (opt_amount opt))
           (opt_asset opt)
           platformAddress 300 extra1.

(** [handleMultiAsset402(req, res, { description, acceptedAssets })]:
    the body of the 402 response, for the request url. *)
Definition handleMultiAsset402 (originalUrl description : string)
    (acceptedAssets : list AssetOption) : PaymentRequired :=
  mkPaymentRequired 2 originalUrl description (map acceptOf acceptedAssets).

End Handler.

End MultiAsset.

(* ===================================================================== *)
(** ** utils/x402.js: building the payment requirements *)
(* ===================================================================== *)

Module X402.
Import JS PaymentGate MultiAsset.

(** One element of [accepts] as [buildPaymentRequired] builds it: the
    sBTC options carry [contractAddress] and [tokenType]. *)
Record RequiredAccept : Type := mkRequiredAccept {
  r_scheme : string;
  r_network : string;
  r_amount : string;
  r_asset : string;
  r_payTo : string;
  r_maxTimeoutSeconds : Z;
  r_contractAddress : option string;
  r_tokenType : option string
}.

Record Requirements : Type := mkRequirements {
  r_x402Version : Z;
  r_url : string;
  r_description : string;
  r_accepts : list RequiredAccept
}.

Section Builder.

(** [config.sbtcContract] *)
Variable sbtcContract : string.

(** The engine's printing of large numbers, for [String(amount)]. *)
Variable numberToString : Z -> string.

(** [buildPaymentRequired({ payTo, amount, resource, description, asset,
    acceptedAssets, maxTimeoutSeconds })], defaults filled in by the
    caller of the model. *)
Definition buildPaymentRequired (payTo : string) (amount : value)
    (resource description asset : string)
    (acceptedAssets : option (list AssetOption)) (maxTimeoutSeconds : Z)
    : Requirements :=
  let accepts :=
    match acceptedAssets with
    | Some (opt0 :: opts) =>
        map (fun opt =>
               let sbtc := bool_decide (opt_asset opt = "sBTC") in
               mkRequiredAccept "exact" "stacks:1"
                 (toString numberToString (opt_amount opt))
                 (opt_asset opt) payTo maxTimeoutSeconds
                 (if sbtc then Some sbtcContract else None)
                 (if sbtc then Some "sip-010" else None))
            (opt0 :: opts)
    | _ =>
        [mkRequiredAccept "exact" "stacks:1" (toString numberToString amount)
           asset payTo maxTimeoutSeconds None None]
    end in
  mkRequirements 2 resource description accepts.

End Builder.

End X402.

(* ===================================================================== *)
(** ** routes/api.js: the handlers over the services *)
(* ===================================================================== *)

Module Api.
Import JS Treasury Ledger Skills Config Catalogue.

(** What the bounty routes answer. *)
Inductive BountyResponse : Type :=
| BadRequest (error : string)
| NotFound (error : string)
| Created (bounty : Bounty)
| Updated200 (bounty : Bounty).

Definition bountyStatus (r : BountyResponse) : nat :=
  match r with
  | BadRequest _ => 400
  | NotFound _ => 404
  | Created _ => 201
  | Updated200 _ => 200
  end.

(** [POST /bounties] on the body fields. *)
Definition postBounties (title description reward postedBy : option string)
    (now : string) (bounties : list Bounty)
    : BountyResponse * list Bounty :=
  if negb (truthy_opt title) || negb (truthy_opt description) then
    (BadRequest "Missing required fields: title, description", bounties)
  else
    let '(bounty, bounties') :=
      postBounty (default "" title) (default "" description) reward postedBy
        now bounties in
    (Created bounty, bounties').

(** [PATCH /bounties/:id] on the body fields. *)
Definition patchBounty (bountyId : string)
    (reward description postedBy : option string) (now : string)
    (bounties : list Bounty) : BountyResponse * list Bounty :=
  if negb (truthy_opt reward) && negb (truthy_opt description) then
    (BadRequest "Provide 'reward' or 'description' to update", bounties)
  else
    match updateBounty bountyId (mkUpdates reward description postedBy) now
            bounties with
    | (UpdateNull, bounties') =>
        (NotFound ("Bounty '" +:+ bountyId +:+ "' not found"), bounties')
    | (UpdateError error, bounties') => (BadRequest error, bounties')
    | (Updated bounty, bounties') => (Updated200 bounty, bounties')
    end.

(** What [POST /treasury/yield/spend] answers. *)
Inductive SpendResponse : Type :=
| SpendInvalid
| SpendDone (spent remaining : number)
| SpendInsufficient (available : number) (needed : option number).

Definition spendStatus (r : SpendResponse) : nat :=
  match r with
  | SpendDone _ _ => 200
  | _ => 400
  end.

(** [POST /treasury/yield/spend] on the [amount] of the body, a number
    when there is one. *)
Definition postYieldSpend (amount : option number) (simulatedYield : number)
    : SpendResponse * number :=
  match amount with
  | None => (SpendInvalid, simulatedYield)
  | Some a =>
      if num_falsy a || num_leb a (Fin 0) then (SpendInvalid, simulatedYield)
      else
        let '(result, y) := spendSimulatedYield a simulatedYield in
        if success result then (SpendDone a (remaining result), y)
        else (SpendInsufficient (remaining result) (needed result), y)
  end.

(** What the second handler of [POST /skills/:id/execute] answers: 500
    with the error of the skill, or 200 with the output, the payment and
    the distribution results. *)
Inductive ExecuteResponse : Type :=
| ExecutionFailed (details : string)
| Executed (skillId skillName output txid : string) (amount : Z)
           (platformFeePercent : Z) (distributions : list Payout).

Definition distributionsOf (r : ExecuteResponse) : list Payout :=
  match r with
  | ExecutionFailed _ => []
  | Executed _ _ _ _ _ _ ds => ds
  end.

Section Execute.

Variable cfg : Configuration.
Variable platformFeePercent : Z.
Variable sendSTX :
  nat -> string -> Z -> string -> JS.result (string * string).
Variable clock : nat -> string.

(** The second handler of [POST /skills/:id/execute], once the gate has
    attached the payment: [txid] and [amount] are the fields it reads off
    [req.x402], [executed] is what [skill.execute(input)] came to, [now]
    the clock reading for the ledger entry. *)
Definition executePaid (skill : Skill) (txid : string) (amount : Z)
    (executed : JS.result string) (now : string)
    (entries : list LedgerEntry) : ExecuteResponse * list LedgerEntry :=
  match executed with
  | Throw err => (ExecutionFailed err, entries)
  | Ok output =>
      let '(ledgerEntry, entries1) :=
        recordIncomingPayment txid "agent" amount (sk_id skill) None now
          entries in
      let providers := resolveProviders cfg (sk_providers skill) in
      if existsb (fun p => truthy_str (address p)) providers then
        let '(distributions, entries2) :=
          distributeRevenue platformFeePercent sendSTX clock
            (Ledger.id ledgerEntry) amount providers entries1 in
        (Executed (sk_id skill) (sk_name skill) output txid amount
           platformFeePercent distributions, entries2)
      else
        (Executed (sk_id skill) (sk_name skill) output txid amount
           platformFeePercent [], entries1)
  end.

End Execute.

End Api.

(* ===================================================================== *)
(** ** utils/hiro.js: activity counters and risk score of [auditWallet] *)
(* ===================================================================== *)

Module Hiro.
Import JS.



Record Activity : Type := mkActivity {
  sentCount : nat;
  receivedCount : nat;
  contractCallCount : nat;
  totalSentMicroSTX : Z;
  totalReceivedMicroSTX : Z;
  uniqueInteractions : gset string
}.




(** The risk block: score, level and the factors listed.  [totalTxCount]
    is [txData.total || 0], [missingNonces] is
    [nonceData.detected_missing_nonces]. *)
Record Risk : Type := mkRisk {
  score : Z;
  level : string;
  factors : list string
}.

Definition joinNonces (l : list Z) : string :=
  String.concat ", " (map pretty l).

Definition auditRisk (totalTxCount : Z) (activity : Activity)
    (availableMicroSTX lockedMicroSTX : Z) (missingNonces : option (list Z))
    : Risk :=
  let step (cond : bool) (points : Z) (factor : string)
           (acc : Z * list string) : Z * list string :=
    if cond then (fst acc + points, snd acc ++ [factor]) else acc in
  let r0 := (0, []) in
  let r1 := step (totalTxCount <? 5) 20
              "Very low transaction history (< 5 total)" r0 in
  let r2 := step ((0 <? sentCount activity)%nat
                  && (receivedCount activity =? 0)%nat) 15
              "Only outbound transactions — possible drain pattern" r1 in
  let r3 := step ((0 <? receivedCount activity)%nat
                  && (sentCount activity =? 0)%nat) 10
              "Only inbound transactions — accumulation only" r2 in
  let r4 := step ((100000000000 <? availableMicroSTX)
                  && (lockedMicroSTX =? 0)) 10
              "Large balance (>100K STX) not stacking — missing yield" r3 in
  let r5 := step ((contractCallCount activity =? 0)%nat
                  && (10 <? totalTxCount)) 5
              "No DeFi or contract interactions despite activity" r4 in
  let r6 := step (match missingNonces with
                  | Some l => (0 <? length l)%nat
                  | None => false
                  end) 15
              ("Missing nonces detected: ["
                 +:+ joinNonces (default [] missingNonces) +:+ "]") r5 in
  let riskScore := Z.min (fst r6) 100 in
  mkRisk riskScore
         (if riskScore <? 20 then "low"
          else if riskScore <? 50 then "medium" else "high")
         (snd r6).

End Hiro.

(* ===================================================================== *)
(** ** routes/api.js: the execute route, gate and handler together *)
(* ===================================================================== *)

Module ExecuteRoute.
Import JS Ledger Config Catalogue PaymentGate MultiAsset Api.

(** How [POST /skills/:id/execute] ends: 404 for an unknown skill; the
    multi-asset 402; the request handed over to the x402-stacks
    middleware (which answers 402 or settles and goes on by itself); or
    the answer of the paid handler. *)
Inductive RouteOutcome : Type :=
| SkillNotFound (error : string)
| PaymentRequired402 (body : PaymentRequired)
| HandedToX402Stacks (hasPayment : bool)
| Handled (response : ExecuteResponse).

(** [payment.txid] of the object the gate attached. *)
Definition txidOf (x402 : object) : string :=
  match x402 !! "txid" with
  | Some (Str s) => s
  | _ => ""
  end.

Section Route.

Variable cfg : Configuration.
Variable stacksNetwork : string.
Variable usdcxContract : option string.
Variable getDefaultSBTCContract : string -> string.
Variable platformFeePercent : Z.
Variable sendSTX :
  nat -> string -> Z -> string -> JS.result (string * string).
Variable clock : nat -> string.
Variable fetch : string -> FetchResult.
Variable numberToString : Z -> string.

(** The two handlers of the route in a row, on the state the process
    holds: the ledger and the yield balance.  The gate is built with the
    price of the skill as its decimal string, which is the amount it
    attaches and the paid handler records. *)
Definition executeRoute (skillId originalUrl : string)
    (headers : gmap string string) (executed : JS.result string)
    (now : string) (entries : list LedgerEntry) (simulatedYield : number)
    : RouteOutcome * list LedgerEntry * number :=
  match getSkill skillId with
  | None =>
      (SkillNotFound ("Skill '" +:+ skillId +:+ "' not found"), entries,
       simulatedYield)
  | Some skill =>
      match paymentGate stacksNetwork fetch (Str (pretty (sk_price skill)))
              (sk_asset skill) (sk_acceptedAssets skill) headers
              simulatedYield with
      | (Next payment, y) =>
          let '(response, entries') :=
            executePaid cfg platformFeePercent sendSTX clock skill
              (txidOf payment) (sk_price skill) executed now entries in
          (Handled response, entries', y)
      | (MultiAsset402 offered, y) =>
          (PaymentRequired402
             (handleMultiAsset402 stacksNetwork (platformAddress cfg)
                usdcxContract getDefaultSBTCContract numberToString originalUrl
                (sk_name skill) offered),
           entries, y)
      | (BaseMiddleware hasPayment, y) =>
          (HandedToX402Stacks hasPayment, entries, y)
      end
  end.

End Route.

End ExecuteRoute.

(* ===================================================================== *)
(** * Theorems *)
(* ===================================================================== *)

Module NumberFacts.
Import JS.

(** Up to 2^53 in magnitude every integer is a double, and nothing is
    rounded. *)
Lemma round53_small z : Z.abs z <= 2 ^ 53 -> round53 z = z.
Proof.
  intros H. unfold round53.
  destruct (Z.eq_dec (Z.abs z) (2 ^ 53)) as [Heq|Hne].
  - assert (Hz : z = 2 ^ 53 \/ z = - 2 ^ 53) by lia.
    destruct Hz as [-> | ->]; vm_compute; reflexivity.
  - assert (Hlt : Z.abs z < 2 ^ 53) by lia.
    assert (He : Z.log2 (Z.abs z) - 52 <= 0).
    { destruct (Z.eq_dec z 0) as [-> | Hz]; [vm_compute; discriminate|].
      assert (Z.log2 (Z.abs z) < 53) by (apply Z.log2_lt_pow2; lia). lia. }
    cbn zeta. rewrite (proj2 (Z.leb_le _ _) He). reflexivity.
Qed.

(** Rounding keeps the sign. *)
Lemma round53_nonneg z : 0 <= z -> 0 <= round53 z.
Proof.
  intros H. unfold round53. cbn zeta.
  destruct (Z.leb_spec (Z.log2 (Z.abs z) - 52) 0) as [_|He]; [exact H|].
  set (u := 2 ^ (Z.log2 (Z.abs z) - 52)).
  assert (Hu : 0 < u) by (apply Z.pow_pos_nonneg; lia).
  assert (Hq : 0 <= Z.abs z / u) by (apply Z.div_pos; lia).
  assert (Hs : 0 <= Z.sgn z) by lia.
  destruct (2 * (Z.abs z mod u) <? u); [nia|].
  destruct (u <? 2 * (Z.abs z mod u)); [nia|].
  destruct (Z.even (Z.abs z / u)); nia.
Qed.

Lemma toNumber_small z : Z.abs z <= 2 ^ 53 -> toNumber z = Fin z.
Proof.
  intros H. unfold toNumber. cbn zeta. rewrite (round53_small z H).
  assert (Hb : 2 ^ 53 < 2 ^ 1024) by reflexivity.
  destruct (Z.leb_spec (2 ^ 1024) z); [lia|].
  destruct (Z.leb_spec z (- 2 ^ 1024)); [lia|]. reflexivity.
Qed.

Lemma toNumber_nonneg z : 0 <= z -> num_geb (toNumber z) (Fin 0) = true.
Proof.
  intros H. pose proof (round53_nonneg z H) as Hr. unfold toNumber. cbn zeta.
  destruct (Z.leb_spec (2 ^ 1024) (round53 z)); [reflexivity|].
  assert (Hb : 0 < 2 ^ 1024) by reflexivity.
  destruct (Z.leb_spec (round53 z) (- 2 ^ 1024)); [lia|].
  cbn. apply Z.leb_le. exact Hr.
Qed.

(** The numbers that are [>= 0]. *)
Lemma num_geb_zero n :
  num_geb n (Fin 0) = true <-> n = PosInf \/ exists z, n = Fin z /\ 0 <= z.
Proof.
  destruct n as [z| | |]; cbn.
  - rewrite Z.leb_le. split.
    + intros H. right. exists z. split; [reflexivity | exact H].
    + intros [H|(z' & [= <-] & H)]; [discriminate | exact H].
  - split; [intros _; left; reflexivity | reflexivity].
  - split; [discriminate | intros [H|(z & H & _)]; discriminate].
  - split; [discriminate | intros [H|(z & H & _)]; discriminate].
Qed.

End NumberFacts.

Module TreasuryFacts.
Import JS Treasury NumberFacts.

Lemma spend_enough amount y :
  num_geb y amount = true ->
  spendSimulatedYield amount y
  = (mkSpend true (num_sub y amount) None, num_sub y amount).
Proof. intros H. unfold spendSimulatedYield. rewrite H. reflexivity. Qed.

Lemma spend_short amount y :
  num_geb y amount = false ->
  spendSimulatedYield amount y = (mkSpend false y (Some amount), y).
Proof. intros H. unfold spendSimulatedYield. rewrite H. reflexivity. Qed.

(** A spend that is covered leaves a balance that is [>= 0] so, whatever
    the amount asked for. *)
Lemma spend_nonneg (amount : Z) balance :
  num_geb balance (Fin 0) = true ->
  num_geb (snd (spendSimulatedYield (Fin amount) balance)) (Fin 0) = true.
Proof.
  intros Hb. unfold spendSimulatedYield.
  destruct (num_geb balance (Fin amount)) eqn:Hge; cbn [snd]; [|exact Hb].
  apply num_geb_zero in Hb as [-> | (y & -> & Hy)]; [reflexivity|].
  cbn in Hge |- *. apply Z.leb_le in Hge. apply toNumber_nonneg. lia.
Qed.

(** C9, as the code has it.  For an amount that is a number and not
    negative, a spend succeeds exactly when the balance is [>=] the
    amount; it then sets the balance to the binary64
    difference of the two and returns it as [remaining]; a spend that is
    not covered reports failure, leaves the balance alone, and returns
    the balance as [remaining] and the amount as [needed].  On an
    integer balance of at most 2^53 the difference is exact, balance -
    amount; above, it is that difference rounded to the nearest double.  A balance that is not
    negative stays so.  From 1420, spending 800 twice gives
    [{success:true, remaining:620}] and then
    [{success:false, remaining:620, needed:800}]. *)
Theorem C9_spend_iff_sufficient (amount : Z) (balance : number) :
  0 <= amount -> isDouble amount -> isNumber balance ->
  let r := fst (spendSimulatedYield (Fin amount) balance) in
  let y' := snd (spendSimulatedYield (Fin amount) balance) in
  success r = num_geb balance (Fin amount)
  /\ (success r = true ->
      y' = num_sub balance (Fin amount) /\ remaining r = y'
      /\ needed r = None)
  /\ (success r = false ->
      y' = balance /\ remaining r = balance
      /\ needed r = Some (Fin amount))
  /\ (forall y, balance = Fin y ->
        (success r = true <-> amount <= y)
        /\ (amount <= y -> y' = toNumber (y - amount))
        /\ (amount <= y -> y <= 2 ^ 53 ->
            y' = Fin (y - amount) /\ remaining r = Fin (y - amount)))
  /\ (num_geb balance (Fin 0) = true -> num_geb y' (Fin 0) = true)
  /\ (let first := spendSimulatedYield (Fin 800) initialYield in
      let second := spendSimulatedYield (Fin 800) (snd first) in
      fst first = mkSpend true (Fin 620) None
      /\ fst second = mkSpend false (Fin 620) (Some (Fin 800))
      /\ snd second = Fin 620).
Proof.
  intros Hamt _ _ r y'.
  assert (Hnn : num_geb balance (Fin 0) = true -> num_geb y' (Fin 0) = true)
    by (subst y'; apply spend_nonneg).
  assert (Hscenario :
    let first := spendSimulatedYield (Fin 800) initialYield in
    let second := spendSimulatedYield (Fin 800) (snd first) in
    fst first = mkSpend true (Fin 620) None
    /\ fst second = mkSpend false (Fin 620) (Some (Fin 800))
    /\ snd second = Fin 620).
  { cbn zeta. split; [|split]; vm_compute; reflexivity. }
  subst r y'.
  destruct (num_geb balance (Fin amount)) eqn:Hge.
  - rewrite (spend_enough _ _ Hge) in *.
    cbn [fst snd success remaining needed] in *.
    split; [reflexivity|].
    split; [intros _; split; [|split]; reflexivity|].
    split; [discriminate|].
    split; [|split; [exact Hnn | exact Hscenario]].
    intros y ->. cbn in Hge. apply Z.leb_le in Hge.
    split; [split; [intros _; exact Hge | reflexivity]|].
    split; [reflexivity|].
    intros _ Hy. cbn [num_sub]. rewrite toNumber_small by lia.
    split; reflexivity.
  - rewrite (spend_short _ _ Hge) in *.
    cbn [fst snd success remaining needed] in *.
    split; [reflexivity|].
    split; [discriminate|].
    split; [intros _; split; [|split]; reflexivity|].
    split; [|split; [exact Hnn | exact Hscenario]].
    intros y ->. cbn in Hge. apply Z.leb_gt in Hge.
    split; [split; [discriminate | lia]|].
    split; intros; lia.
Qed.

Lemma C9_spend_witness :
  0 <= 800 /\ isDouble 800 /\ isNumber (Fin 1420) /\
  snd (spendSimulatedYield (Fin 800) (Fin 1420)) = Fin 620.
Proof.
  assert (H800 : isDouble 800) by (split; vm_compute; reflexivity).
  assert (H1420 : isNumber (Fin 1420)) by (split; vm_compute; reflexivity).
  split; [lia|]. split; [exact H800|]. split; [exact H1420|].
  destruct (C9_spend_iff_sufficient 800 (Fin 1420) ltac:(lia) H800 H1420)
    as (_ & _ & _ & Hfin & _).
  destruct (Hfin 1420 eq_refl) as (_ & _ & Hexact).
  exact (proj1 (Hexact ltac:(lia) ltac:(lia))).
Defined.

(** C9 as stated fails above 2^53.  An accrual of 2^53 - 1418 brings the
    balance from 1420 to 2^53 + 2; spending 1 then succeeds and leaves
    2^53, not 2^53 + 1: the balance drops by 2. *)
Lemma C9_counterexample :
  let y := 2 ^ 53 + 2 in
  runYield [Accrue (Some (2 ^ 53 - 1418)) 1] initialYield = Fin y
  /\ isDouble (2 ^ 53 - 1418) /\ isDouble y /\ isDouble 1
  /\ 0 <= 1 <= y
  /\ spendSimulatedYield (Fin 1) (Fin y)
     = (mkSpend true (Fin (2 ^ 53)) None, Fin (2 ^ 53))
  /\ 2 ^ 53 <> y - 1.
Proof.
  cbn zeta. split; [vm_compute; reflexivity|].
  split; [split; vm_compute; reflexivity|].
  split; [split; vm_compute; reflexivity|].
  split; [split; vm_compute; reflexivity|].
  split; [lia|]. split; [vm_compute; reflexivity | lia].
Qed.

End TreasuryFacts.

Module LedgerFacts.
Import JS Ledger.

(** *** Shape of the ledger under its three operations *)

Lemma recordDistribution_length eid txid toA toN amt now entries :
  length (recordDistribution eid txid toA toN amt now entries)
  = length entries.
Proof.
  unfold recordDistribution.
  destruct (list_find _ entries) as [[i e]|]; [|reflexivity].
  apply length_insert.
Qed.

Lemma recordDistribution_ids eid txid toA toN amt now entries :
  map id (recordDistribution eid txid toA toN amt now entries)
  = map id entries.
Proof.
  unfold recordDistribution.
  destruct (list_find _ entries) as [[i e]|] eqn:Hfind; [|reflexivity].
  apply list_find_Some in Hfind as (Hi & _ & _).
  change (map id) with (fmap (M:=list) id).
  rewrite list_fmap_insert. cbn [id].
  apply list_insert_id. rewrite list_lookup_fmap, Hi. reflexivity.
Qed.

Lemma recordDistribution_types eid txid toA toN amt now entries :
  map entry_type (recordDistribution eid txid toA toN amt now entries)
  = map entry_type entries.
Proof.
  unfold recordDistribution.
  destruct (list_find _ entries) as [[i e]|] eqn:Hfind; [|reflexivity].
  apply list_find_Some in Hfind as (Hi & _ & _).
  change (map entry_type) with (fmap (M:=list) entry_type).
  rewrite list_fmap_insert. cbn [entry_type].
  apply list_insert_id. rewrite list_lookup_fmap, Hi. reflexivity.
Qed.

Lemma wellNumbered_push entries e :
  wellNumbered entries ->
  id e = (length entries + 1)%nat ->
  wellNumbered (entries ++ [e]).
Proof.
  unfold wellNumbered. intros Hwn He.
  rewrite map_app, length_app, seq_app, Hwn. cbn.
  rewrite He. do 2 f_equal. lia.
Qed.

Lemma wellNumbered_step entries op :
  wellNumbered entries -> wellNumbered (ledgerStep entries op).
Proof.
  intros Hwn. destruct op; cbn.
  - apply wellNumbered_push; [assumption | reflexivity].
  - unfold wellNumbered.
    rewrite recordDistribution_ids, recordDistribution_length. exact Hwn.
  - apply wellNumbered_push; [assumption | reflexivity].
Qed.

Lemma wellNumbered_run ops : forall entries,
  wellNumbered entries -> wellNumbered (runLedger ops entries).
Proof.
  induction ops as [|op ops IH]; intros entries Hwn; [assumption|].
  change (runLedger (op :: ops) entries)
    with (runLedger ops (ledgerStep entries op)).
  apply IH, wellNumbered_step, Hwn.
Qed.

Lemma ledgerStep_ids_prefix entries op :
  exists more, map id (ledgerStep entries op) = map id entries ++ more.
Proof.
  destruct op; cbn.
  - eexists. apply map_app.
  - exists []. rewrite recordDistribution_ids, app_nil_r. reflexivity.
  - eexists. apply map_app.
Qed.

Lemma runLedger_ids_prefix ops : forall entries,
  exists more, map id (runLedger ops entries) = map id entries ++ more.
Proof.
  induction ops as [|op ops IH]; intros entries.
  - exists []. cbn. rewrite app_nil_r. reflexivity.
  - change (runLedger (op :: ops) entries)
      with (runLedger ops (ledgerStep entries op)).
    destruct (IH (ledgerStep entries op)) as [m1 H1].
    destruct (ledgerStep_ids_prefix entries op) as [m2 H2].
    exists (m2 ++ m1). rewrite H1, H2, app_assoc. reflexivity.
Qed.

Lemma seq_sorted n : forall s, StronglySorted lt (seq s n).
Proof.
  induction n as [|n IH]; intros s; cbn; constructor; [apply IH|].
  apply Forall_forall. intros x Hx.
  apply list_elem_of_In, in_seq in Hx. lia.
Qed.

Lemma seq_max n : list_max (seq 1 n) = n.
Proof.
  induction n as [|n IH]; [reflexivity|].
  rewrite seq_S, list_max_app, IH. cbn. lia.
Qed.

(** C10. When no entry carries the id, [recordDistribution] hands back
    the ledger it was given: no error, no entry touched, nothing
    recorded on any [distributions] list. *)
Theorem C10_missing_entry_is_silent_noop
    (ledgerEntryId : nat) (txid toAddress toName : string) (amt : Z)
    (now : string) (entries : list LedgerEntry) :
  Forall (fun e => id e <> ledgerEntryId) entries ->
  recordDistribution ledgerEntryId txid toAddress toName amt now entries
  = entries.
Proof.
  intros Hnone. unfold recordDistribution.
  assert (list_find (fun e => id e = ledgerEntryId) entries = None) as ->
    by (apply list_find_None; exact Hnone).
  reflexivity.
Qed.

Lemma C10_missing_entry_witness :
  let e := mkEntry 1 (incoming "0xt1" "ST1" 5000 "wallet-auditor") "t0" [] in
  Forall (fun e => id e <> 7%nat) [e]
  /\ recordDistribution 7 "0xd" "ST2" "provider-a" 1500 "t1" [e] = [e].
Proof.
  cbn zeta.
  assert (H : Forall
    (fun e => id e <> 7%nat)
    [mkEntry 1 (incoming "0xt1" "ST1" 5000 "wallet-auditor") "t0" []]).
  { repeat constructor. cbn. lia. }
  split; [exact H|].
  exact (C10_missing_entry_is_silent_noop 7 "0xd" "ST2" "provider-a" 1500
           "t1" _ H).
Defined.

Lemma ledgerStep_assigned entries op :
  let new := option_list (assignedId entries op) in
  map id (ledgerStep entries op) = map id entries ++ new
  /\ length (ledgerStep entries op) = (length entries + length new)%nat
  /\ new = seq (S (length entries)) (length new).
Proof.
  destruct op; cbn.
  - rewrite map_app, length_app. cbn.
    split; [reflexivity|]. split; [reflexivity|]. f_equal. lia.
  - rewrite recordDistribution_ids, recordDistribution_length, app_nil_r.
    split; [reflexivity|]. split; [lia | reflexivity].
  - rewrite map_app, length_app. cbn.
    split; [reflexivity|]. split; [reflexivity|]. f_equal. lia.
Qed.

Lemma assignedIds_seq ops : forall entries,
  assignedIds ops entries
  = seq (S (length entries)) (length (assignedIds ops entries))
  /\ map id (runLedger ops entries) = map id entries ++ assignedIds ops entries.
Proof.
  induction ops as [|op ops IH]; intros entries.
  - cbn. rewrite app_nil_r. split; reflexivity.
  - change (runLedger (op :: ops) entries)
      with (runLedger ops (ledgerStep entries op)).
    cbn [assignedIds].
    destruct (IH (ledgerStep entries op)) as [IH1 IH2].
    destruct (ledgerStep_assigned entries op) as (Hids & Hlen & Hnew).
    cbn zeta in Hids, Hlen, Hnew.
    split.
    + rewrite length_app, seq_app, <- Hnew. f_equal.
      rewrite IH1 at 1. f_equal. rewrite Hlen. lia.
    + rewrite IH2, Hids, app_assoc. reflexivity.
Qed.

(** C6, as the code has it.  [recordIncomingPayment] and
    [recordNegotiation] append the entry they return and give it the id
    [entries.length + 1].  So, whatever ledger was loaded, the ids handed
    out over any sequence of calls are consecutive from the loaded length
    plus one: strictly increasing, without repetition among themselves
    and at least 1, and they are the ids that end up appended to the
    ledger.  When the loaded ledger is numbered 1..n (the empty one, or
    one this module wrote), every id in the ledger stays unique, no id
    handed out was in the loaded ledger, and the next id is the largest
    id in use plus one. *)
Theorem C6_ids_strictly_increasing
    (ops : list LedgerOp) (entries0 : list LedgerEntry) :
  let entries := runLedger ops entries0 in
  let ids := assignedIds ops entries0 in
  ids = seq (S (length entries0)) (length ids)
  /\ StronglySorted lt ids
  /\ NoDup ids
  /\ Forall (fun i => 1 <= i)%nat ids
  /\ map id entries = map id entries0 ++ ids
  /\ (forall txid from amt skillId ts now,
        let r := recordIncomingPayment txid from amt skillId ts now
                   entries in
        snd r = entries ++ [fst r] /\ id (fst r) = S (length entries))
  /\ (forall bountyId oldReward newReward updatedBy now,
        let r := recordNegotiation bountyId oldReward newReward updatedBy
                   now entries in
        snd r = entries ++ [fst r] /\ id (fst r) = S (length entries))
  /\ (map id entries0 = seq 1 (length entries0) ->
      StronglySorted lt (map id entries)
      /\ NoDup (map id entries)
      /\ Forall (fun i => 1 <= i)%nat (map id entries)
      /\ Forall (fun i => i ∉ map id entries0) ids
      /\ S (length entries) = S (list_max (map id entries))
      /\ Forall (fun i => i < S (length entries))%nat (map id entries)).
Proof.
  intros entries ids.
  destruct (assignedIds_seq ops entries0) as [Hseq Hids].
  fold ids in Hseq, Hids. fold entries in Hids.
  assert (Hin : forall s n x, x ∈ seq s n -> (s <= x < s + n)%nat)
    by (intros s n x Hx; apply list_elem_of_In, in_seq in Hx; exact Hx).
  split; [exact Hseq|].
  split; [rewrite Hseq; apply seq_sorted|].
  split; [rewrite Hseq; apply NoDup_ListNoDup, seq_NoDup|].
  split.
  { rewrite Hseq. apply Forall_forall. intros x Hx. apply Hin in Hx. lia. }
  split; [exact Hids|].
  split.
  { intros. cbn. split; [reflexivity | lia]. }
  split.
  { intros. cbn. split; [reflexivity | lia]. }
  intros Hwn0.
  assert (Hwn : wellNumbered entries) by (apply wellNumbered_run, Hwn0).
  unfold wellNumbered in Hwn.
  split; [rewrite Hwn; apply seq_sorted|].
  split; [rewrite Hwn; apply NoDup_ListNoDup, seq_NoDup|].
  split.
  { rewrite Hwn. apply Forall_forall. intros x Hx. apply Hin in Hx. lia. }
  split.
  { rewrite Hwn0, Hseq. apply Forall_forall. intros x Hx Hx0.
    apply Hin in Hx. apply Hin in Hx0. lia. }
  split; [rewrite Hwn, seq_max; reflexivity|].
  rewrite Hwn. apply Forall_forall. intros x Hx. apply Hin in Hx. lia.
Qed.

Lemma C6_ids_witness :
  map id (@nil LedgerEntry) = seq 1 (length (@nil LedgerEntry))
  /\ assignedIds
       [OpIncoming "0xt1" "ST1" 5000 "wallet-auditor" None "t0";
        OpNegotiation "bounty-1" "5000" "8000" None "t1";
        OpDistribution 1 "0xd1" "ST-A" "A" 1500 "t2";
        OpIncoming "0xt2" "ST1" 3000 "stacks-intel" None "t3"] []
     = [1; 2; 3]%nat
  /\ NoDup (map id (runLedger
       [OpIncoming "0xt1" "ST1" 5000 "wallet-auditor" None "t0";
        OpNegotiation "bounty-1" "5000" "8000" None "t1";
        OpDistribution 1 "0xd1" "ST-A" "A" 1500 "t2";
        OpIncoming "0xt2" "ST1" 3000 "stacks-intel" None "t3"] [])).
Proof.
  split; [reflexivity|].
  destruct (C6_ids_strictly_increasing
    [OpIncoming "0xt1" "ST1" 5000 "wallet-auditor" None "t0";
     OpNegotiation "bounty-1" "5000" "8000" None "t1";
     OpDistribution 1 "0xd1" "ST-A" "A" 1500 "t2";
     OpIncoming "0xt2" "ST1" 3000 "stacks-intel" None "t3"] [])
    as (Hseq & _ & _ & _ & _ & _ & _ & Hloaded).
  split; [exact Hseq|].
  exact (proj1 (proj2 (Hloaded eq_refl))).
Defined.

(** C6 as stated fails on a loaded ledger that is not numbered 1..n: the
    id is the length plus one, not the largest id plus one.  With a
    single loaded entry of id 2 the next entry gets id 2 again. *)
Lemma C6_counterexample :
  let loaded :=
    [mkEntry 2 (incoming "0xold" "ST1" 5000 "wallet-auditor") "t0" []] in
  let r := recordIncomingPayment "0xnew" "ST2" 3000 "stacks-intel" None "t1"
             loaded in
  id (fst r) = 2%nat
  /\ id (fst r) <> S (list_max (map id loaded))
  /\ map id (snd r) = [2; 2]%nat
  /\ ~ NoDup (map id (snd r)).
Proof.
  cbn zeta. split; [reflexivity|]. split; [cbn; lia|].
  split; [reflexivity|].
  cbn. intros H. apply NoDup_cons in H as [H _]. apply H. left.
Qed.

(** *** The summary *)

Lemma addDistributions_sum dists : forall td,
  addDistributions dists td = Ok (td + sumZ (map d_amount dists)).
Proof.
  induction dists as [|d dists IH]; intros td.
  - cbn. rewrite Z.add_0_r. reflexivity.
  - cbn [addDistributions BigInt bind map]. rewrite IH.
    unfold sumZ. cbn [fold_right]. rewrite Z.add_assoc. reflexivity.
Qed.

Lemma incomingTotal_cons e entries :
  incomingTotal (e :: entries)
  = default 0 (amount e) + incomingTotal entries.
Proof. unfold incomingTotal. cbn. destruct (amount e); reflexivity. Qed.

Lemma sumZ_app l1 l2 : sumZ (l1 ++ l2) = sumZ l1 + sumZ l2.
Proof.
  unfold sumZ. induction l1 as [|x l1 IH]; [reflexivity|].
  cbn [app fold_right]. rewrite IH. lia.
Qed.

Lemma distributedTotal_cons e entries :
  distributedTotal (e :: entries)
  = sumZ (map d_amount (distributions e)) + distributedTotal entries.
Proof. unfold distributedTotal. cbn. rewrite map_app, sumZ_app. reflexivity. Qed.

Lemma summaryLoop_spec entries : forall ti td,
  summaryLoop entries ti td =
    if existsb isNegotiation entries
    then Throw "TypeError: Cannot convert undefined to a BigInt"
    else Ok (ti + incomingTotal entries, td + distributedTotal entries).
Proof.
  induction entries as [|e entries IH]; intros ti td.
  - cbn. do 2 f_equal; unfold incomingTotal, distributedTotal; cbn; lia.
  - cbn [summaryLoop existsb].
    rewrite incomingTotal_cons, distributedTotal_cons.
    unfold isNegotiation at 1, amount.
    destruct (entry_type e) as [tx fr a sk | b o n u]; cbn; [|reflexivity].
    rewrite addDistributions_sum. cbn. rewrite IH.
    destruct (existsb isNegotiation entries); [reflexivity|].
    do 2 f_equal; lia.
Qed.

Lemma existsb_isNegotiation_types l1 l2 :
  map entry_type l1 = map entry_type l2 ->
  existsb isNegotiation l1 = existsb isNegotiation l2.
Proof.
  revert l2. induction l1 as [|a l1 IH]; intros [|b l2] H;
    try discriminate; [reflexivity|].
  cbn in H. injection H as Hab Hl. cbn.
  unfold isNegotiation at 1 3. rewrite Hab. f_equal. apply IH, Hl.
Qed.

Lemma negotiation_after_step entries op :
  existsb isNegotiation (ledgerStep entries op)
  = existsb isNegotiation entries || opIsNegotiation op.
Proof.
  destruct op; cbn.
  - rewrite existsb_app. cbn. reflexivity.
  - rewrite orb_false_r.
    apply existsb_isNegotiation_types, recordDistribution_types.
  - rewrite existsb_app. cbn. reflexivity.
Qed.

Lemma negotiation_after_run ops : forall entries,
  existsb isNegotiation (runLedger ops entries)
  = existsb isNegotiation entries || existsb opIsNegotiation ops.
Proof.
  induction ops as [|op ops IH]; intros entries.
  - cbn. rewrite orb_false_r. reflexivity.
  - change (runLedger (op :: ops) entries)
      with (runLedger ops (ledgerStep entries op)).
    rewrite IH, negotiation_after_step. cbn. rewrite orb_assoc. reflexivity.
Qed.

(** C3. On a ledger built from the empty one by any calls, the summary
    is the entry count and the two integer sums exactly when no call was
    a [recordNegotiation]; as soon as one was, its entry has no [amount]
    and [getLedgerSummary] throws instead of returning.  The shortest
    such history is a single [recordNegotiation]. *)
Theorem C3_summary_throws_after_negotiation (ops : list LedgerOp) :
  let entries := runLedger ops [] in
  getLedgerSummary entries =
    (if existsb opIsNegotiation ops
     then Throw "TypeError: Cannot convert undefined to a BigInt"
     else Ok (mkSummary (length entries) (incomingTotal entries)
                (distributedTotal entries)
                (incomingTotal entries - distributedTotal entries)
                entries))
  /\ getLedgerSummary
       (snd (recordNegotiation "bounty-1" "5000" "8000" None "t0" []))
     = Throw "TypeError: Cannot convert undefined to a BigInt".
Proof.
  intros entries. split; [|reflexivity].
  unfold getLedgerSummary. rewrite summaryLoop_spec.
  subst entries. rewrite negotiation_after_run. cbn [existsb orb].
  destruct (existsb opIsNegotiation ops); reflexivity.
Qed.

(** *** The distributor *)

Lemma bigint_div_floor x : 0 <= x -> bigint_div x 100 = x / 100.
Proof. intros H. unfold bigint_div. apply Z.quot_div_nonneg; lia. Qed.

Lemma bigint_div_neg x : x < 0 -> bigint_div x 100 <= 0 /\ x / 100 < 0.
Proof.
  intros H. unfold bigint_div.
  split; Z.to_euclidean_division_equations; lia.
Qed.

Lemma bigint_div_bounds x :
  0 <= x -> 0 <= bigint_div x 100 /\ 100 * bigint_div x 100 <= x.
Proof.
  intros H. unfold bigint_div. Z.to_euclidean_division_equations. lia.
Qed.

(** Rounding towards zero and rounding down skip the same recipients,
    and agree on the share of every recipient that is not skipped. *)
Lemma share_skip_agree dist p :
  (providerAmount dist p <=? 0) = (specShare dist p <=? 0).
Proof.
  unfold providerAmount, specShare.
  destruct (Z_lt_le_dec (dist * sharePercent p) 0) as [Hneg|Hpos].
  - destruct (bigint_div_neg _ Hneg) as [Hq Hd].
    rewrite (proj2 (Z.leb_le _ _) Hq).
    symmetry. apply Z.leb_le. lia.
  - rewrite (bigint_div_floor _ Hpos). reflexivity.
Qed.

Lemma share_agree dist p :
  (providerAmount dist p <=? 0) = false ->
  providerAmount dist p = specShare dist p.
Proof.
  intros H. apply Z.leb_gt in H. unfold providerAmount, specShare in *.
  destruct (Z_lt_le_dec (dist * sharePercent p) 0) as [Hneg|Hpos].
  - destruct (bigint_div_neg _ Hneg). lia.
  - apply bigint_div_floor, Hpos.
Qed.

Lemma truthy_str_empty s : negb (truthy_str s) = bool_decide (s = "").
Proof. unfold truthy_str. destruct (decide (s = "")) as [->|Hne].
  - reflexivity.
  - cbn. symmetry. apply bool_decide_eq_false. exact Hne.
Qed.

Lemma specAttempts_cons dist p providers :
  specAttempts dist (p :: providers)
  = (if decide (address p = "") then []
     else if specShare dist p <=? 0 then []
     else [(name p, specShare dist p)])
    ++ specAttempts dist providers.
Proof.
  unfold specAttempts. cbn.
  destruct (decide (address p = "")); [reflexivity|].
  destruct (specShare dist p <=? 0); reflexivity.
Qed.

Ltac step_provider p :=
  cbn [payProviders]; rewrite specAttempts_cons;
  rewrite truthy_str_empty;
  destruct (decide (address p = "")) as [Hempty|Hfilled];
  [ rewrite (bool_decide_eq_true_2 _ Hempty)
  | rewrite (bool_decide_eq_false_2 _ Hfilled) ].

Lemma payProviders_attempts sendSTX clock eid dist providers :
  forall k entries,
    map payoutKey
        (fst (payProviders sendSTX clock k eid dist providers entries))
    = specAttempts dist providers.
Proof.
  induction providers as [|p providers IH]; intros k entries;
    [reflexivity|].
  step_provider p.
  - apply IH.
  - rewrite <- share_skip_agree.
    destruct (providerAmount dist p <=? 0) eqn:Hskip; [apply IH|].
    rewrite <- (share_agree _ _ Hskip). cbn [app].
    destruct (sendSTX k _ _ _) as [[txid url]|err].
    + specialize (IH (S k)
        (recordDistribution eid txid (address p) (name p)
           (providerAmount dist p) (clock k) entries)).
      destruct (payProviders _ _ _ _ _ _ _) as [rs es].
      cbn in *. rewrite IH. reflexivity.
    + specialize (IH (S k) entries).
      destruct (payProviders _ _ _ _ _ _ _) as [rs es].
      cbn in *. rewrite IH. reflexivity.
Qed.

Lemma entryExists_find eid entries :
  entryExists eid entries
  = bool_decide (is_Some (list_find (fun e => id e = eid) entries)).
Proof.
  unfold entryExists.
  induction entries as [|e entries IH]; [reflexivity|].
  cbn. destruct (decide (id e = eid)) as [He|He].
  - rewrite (proj2 (Nat.eqb_eq _ _) He). reflexivity.
  - rewrite (proj2 (Nat.eqb_neq _ _) He), IH. cbn.
    apply bool_decide_ext. rewrite fmap_is_Some. reflexivity.
Qed.

Lemma entryExists_ids eid l1 l2 :
  map id l1 = map id l2 -> entryExists eid l1 = entryExists eid l2.
Proof.
  unfold entryExists. revert l2.
  induction l1 as [|a l1 IH]; intros [|b l2] H; try discriminate;
    [reflexivity|].
  cbn in H. injection H as Hab Hl. cbn. rewrite Hab. f_equal. apply IH, Hl.
Qed.

Lemma recordedAmounts_recordDistribution eid txid toA toN amt now entries :
  recordedAmounts eid (recordDistribution eid txid toA toN amt now entries)
  = recordedAmounts eid entries
    ++ (if entryExists eid entries then [amt] else []).
Proof.
  rewrite entryExists_find.
  unfold recordDistribution, recordedAmounts.
  destruct (list_find _ entries) as [[i e]|] eqn:Hfind.
  - rewrite bool_decide_eq_true_2 by (eexists; reflexivity).
    pose proof Hfind as (Hi & He & Hleast)%list_find_Some.
    match goal with |- context [<[i:=?e']> entries] =>
      assert (list_find (fun e0 => id e0 = eid) (<[i:=e']> entries)
              = Some (i, e')) as ->
    end.
    { apply list_find_insert_Some. right; left.
      split_and!; [reflexivity | reflexivity | | exact He | exact Hleast].
      eapply lookup_lt_Some, Hi. }
    cbn. rewrite map_app. reflexivity.
  - rewrite Hfind.
    rewrite bool_decide_eq_false_2 by (intros [? ?]; discriminate).
    reflexivity.
Qed.

Lemma payProviders_recorded sendSTX clock eid dist providers :
  forall k entries,
    recordedAmounts eid
      (snd (payProviders sendSTX clock k eid dist providers entries))
    = recordedAmounts eid entries
      ++ (if entryExists eid entries
          then paidAmounts
                 (fst (payProviders sendSTX clock k eid dist providers
                         entries))
          else []).
Proof.
  induction providers as [|p providers IH]; intros k entries.
  - cbn. destruct (entryExists eid entries); rewrite app_nil_r; reflexivity.
  - cbn [payProviders].
    destruct (negb (truthy_str (address p))); [apply IH|].
    destruct (providerAmount dist p <=? 0); [apply IH|].
    destruct (sendSTX k _ _ _) as [[txid url]|err].
    + specialize (IH (S k)
        (recordDistribution eid txid (address p) (name p)
           (providerAmount dist p) (clock k) entries)).
      destruct (payProviders _ _ _ _ _ _ _) as [rs es].
      cbn [fst snd] in *. rewrite IH.
      rewrite recordedAmounts_recordDistribution.
      rewrite (entryExists_ids eid
                 (recordDistribution eid txid (address p) (name p)
                    (providerAmount dist p) (clock k) entries) entries)
        by apply recordDistribution_ids.
      destruct (entryExists eid entries); cbn;
        rewrite <- app_assoc; reflexivity.
    + specialize (IH (S k) entries).
      destruct (payProviders _ _ _ _ _ _ _) as [rs es].
      cbn [fst snd] in *. rewrite IH. reflexivity.
Qed.

Lemma payProviders_paid_bound sendSTX clock eid dist providers :
  forall k entries,
    0 <= dist ->
    Forall (fun p => 0 <= sharePercent p) providers ->
    let paid :=
      paidAmounts
        (fst (payProviders sendSTX clock k eid dist providers entries)) in
    0 <= sumZ paid
    /\ 100 * sumZ paid <= dist * sumZ (map sharePercent providers).
Proof.
  induction providers as [|p providers IH]; intros k entries Hd Hall paid;
    subst paid.
  - cbn. lia.
  - inversion Hall as [|? ? Hp Hrest]; subst.
    assert (Hprod : 0 <= dist * sharePercent p) by lia.
    destruct (bigint_div_bounds _ Hprod) as [Hlo Hhi].
    fold (providerAmount dist p) in Hlo, Hhi.
    assert (Hsum : sumZ (map sharePercent (p :: providers))
                   = sharePercent p + sumZ (map sharePercent providers))
      by reflexivity.
    rewrite Hsum. clear Hsum.
    cbn [payProviders].
    destruct (negb (truthy_str (address p))).
    { destruct (IH (S k) entries Hd Hrest). split; [assumption | nia]. }
    destruct (providerAmount dist p <=? 0).
    { destruct (IH (S k) entries Hd Hrest). split; [assumption | nia]. }
    destruct (sendSTX k _ _ _) as [[txid url]|err].
    + specialize (IH (S k)
        (recordDistribution eid txid (address p) (name p)
           (providerAmount dist p) (clock k) entries) Hd Hrest).
      destruct (payProviders _ _ _ _ _ _ _) as [rs es].
      cbn [fst snd] in *. destruct IH as [IH1 IH2].
      change (paidAmounts (Paid (name p) txid (providerAmount dist p) url
                             :: rs))
        with (providerAmount dist p :: paidAmounts rs).
      change (sumZ (providerAmount dist p :: paidAmounts rs))
        with (providerAmount dist p + sumZ (paidAmounts rs)).
      split; nia.
    + specialize (IH (S k) entries Hd Hrest).
      destruct (payProviders _ _ _ _ _ _ _) as [rs es].
      cbn [fst snd] in *. destruct IH as [IH1 IH2].
      change (paidAmounts (Failed (name p) err (providerAmount dist p)
                             :: rs))
        with (paidAmounts rs).
      split; [assumption | nia].
Qed.

Lemma distributable_bounds feePercent totalAmount :
  0 <= totalAmount -> 0 <= feePercent <= 100 ->
  0 <= platformFee feePercent totalAmount
  /\ 0 <= distributable feePercent totalAmount <= totalAmount.
Proof.
  intros Ht Hf. unfold distributable, platformFee.
  assert (Hprod : 0 <= totalAmount * feePercent) by nia.
  destruct (bigint_div_bounds _ Hprod) as [Hlo Hhi]. nia.
Qed.

Lemma withDistributions_nil e : withDistributions e [] = e.
Proof.
  destruct e. unfold withDistributions. cbn. rewrite app_nil_r. reflexivity.
Qed.

Lemma withDistributions_app e l1 l2 :
  withDistributions (withDistributions e l1) l2
  = withDistributions e (l1 ++ l2).
Proof. unfold withDistributions. cbn. rewrite app_assoc. reflexivity. Qed.

Lemma find_withDistributions eid entries i e more :
  list_find (fun e => id e = eid) entries = Some (i, e) ->
  list_find (fun e => id e = eid) (<[i := withDistributions e more]> entries)
  = Some (i, withDistributions e more).
Proof.
  intros Hfind. pose proof Hfind as (Hi & He & Hleast)%list_find_Some.
  apply list_find_insert_Some. right; left.
  split_and!; [reflexivity | reflexivity | | exact He | exact Hleast].
  eapply lookup_lt_Some, Hi.
Qed.

Lemma specOutcomes_attempts transfer dist recipients : forall k,
  map (fun a => (name (at_recipient a), at_share a))
      (specOutcomes transfer k dist recipients)
  = specAttempts dist recipients.
Proof.
  induction recipients as [|r recipients IH]; intros k; [reflexivity|].
  rewrite specAttempts_cons. cbn [specOutcomes].
  destruct (decide (address r = "")); [apply IH|].
  destruct (specShare dist r <=? 0); [apply IH|].
  cbn. rewrite IH. reflexivity.
Qed.

(** The loop of the code against step 3 of the specification: the
    results are those of the attempts, and the entry, when there is one,
    gains the records of the attempts that went through and no other. *)
Lemma payProviders_spec sendSTX clock eid dist providers :
  forall k entries,
    payProviders sendSTX clock k eid dist providers entries
    = (map specResult (specOutcomes sendSTX k dist providers),
       match list_find (fun e => id e = eid) entries with
       | Some (i, entry) =>
           <[ i := withDistributions entry
                     (omap (specRecord clock)
                        (specOutcomes sendSTX k dist providers)) ]> entries
       | None => entries
       end).
Proof.
  induction providers as [|p providers IH]; intros k entries.
  - cbn. f_equal.
    destruct (list_find _ entries) as [[i e]|] eqn:Hfind; [|reflexivity].
    rewrite withDistributions_nil. symmetry. apply list_insert_id.
    apply list_find_Some in Hfind as (Hi & _). exact Hi.
  - cbn [payProviders specOutcomes]. rewrite truthy_str_empty.
    destruct (decide (address p = "")) as [Hempty|Hfilled].
    { rewrite (bool_decide_eq_true_2 _ Hempty). apply IH. }
    rewrite (bool_decide_eq_false_2 _ Hfilled). cbn zeta.
    rewrite share_skip_agree.
    destruct (specShare dist p <=? 0) eqn:Hskip; [apply IH|].
    rewrite share_agree by (rewrite share_skip_agree; exact Hskip).
    destruct (sendSTX k (address p) (specShare dist p)
                ("moltmarket:" +:+ name p)) as [[txid url]|err].
    + rewrite IH. cbn [map omap list_omap specResult specRecord at_outcome
        at_recipient at_share at_position].
      f_equal.
      destruct (list_find (fun e => id e = eid) entries) as [[i e]|]
        eqn:Hfind.
      * unfold recordDistribution at 1 2. rewrite Hfind.
        fold (withDistributions e
                [mkDistribution txid (address p) (name p) (specShare dist p)
                   (clock k)]).
        rewrite (find_withDistributions _ _ _ _ _ Hfind).
        rewrite list_insert_insert_eq, withDistributions_app. reflexivity.
      * unfold recordDistribution. rewrite Hfind, Hfind. reflexivity.
    + rewrite IH. reflexivity.
Qed.

(** C1, as the code has it.  For a total and a fee percent that are not
    negative the fee is the floor of total * percent / 100 and the rest
    is distributable.  The recipients the loop attempts, in input order,
    are those with an address and a floor share above zero, each with
    that share; the others leave no trace.  Each attempt is one call of
    the transfer collaborator for that address and share, and the
    results returned say what it answered: paid with its txid, or failed
    with its error and the intended amount.  What lands on the entry's
    [distributions] are the records of the attempts whose transfer went
    through, with txid, payee and share, in order, and nothing for a
    transfer that failed; when the entry does not exist the ledger is
    left as it was.  With 5000, 40 percent and A and B at 50 percent
    each: fee 2000, distributable 3000, both attempted with 1500; when
    the entry exists and both transfers succeed, 1500 and 1500 are
    recorded, 3000 in all, and when both fail the ledger is unchanged. *)
Theorem C1_distribution_amounts
    (feePercent : Z)
    (sendSTX : nat -> string -> Z -> string -> result (string * string))
    (clock : nat -> string) (ledgerEntryId : nat) (totalAmount : Z)
    (providers : list Provider) (entries : list LedgerEntry) :
  0 <= totalAmount -> 0 <= feePercent ->
  let fee := platformFee feePercent totalAmount in
  let dist := distributable feePercent totalAmount in
  let run := distributeRevenue feePercent sendSTX clock ledgerEntryId
               totalAmount providers entries in
  let attempts := specOutcomes sendSTX 0 dist providers in
  fee = specFee feePercent totalAmount
  /\ dist = totalAmount - fee
  /\ map (fun a => (name (at_recipient a), at_share a)) attempts
     = specAttempts dist providers
  /\ fst run = map specResult attempts
  /\ snd run
     = match list_find (fun e => id e = ledgerEntryId) entries with
       | Some (i, entry) =>
           <[ i := withDistributions entry
                     (omap (specRecord clock) attempts) ]> entries
       | None => entries
       end
  /\ map payoutKey (fst run) = specAttempts dist providers
  /\ recordedAmounts ledgerEntryId (snd run)
     = recordedAmounts ledgerEntryId entries
       ++ (if entryExists ledgerEntryId entries
           then paidAmounts (fst run) else [])
  /\ (forall addrA addrB send clk eid l,
        addrA <> "" -> addrB <> "" ->
        let runAB := distributeRevenue 40 send clk eid 5000
                       [mkProvider "A" addrA 50; mkProvider "B" addrB 50]
                       l in
        platformFee 40 5000 = 2000
        /\ distributable 40 5000 = 3000
        /\ map payoutKey (fst runAB) = [("A", 1500); ("B", 1500)]
        /\ (entryExists eid l = true ->
            (exists t u, send 0%nat addrA 1500 "moltmarket:A" = Ok (t, u)) ->
            (exists t u, send 1%nat addrB 1500 "moltmarket:B" = Ok (t, u)) ->
            recordedAmounts eid (snd runAB)
            = recordedAmounts eid l ++ [1500; 1500]
            /\ sumZ [1500; 1500] = 3000)
        /\ ((exists err, send 0%nat addrA 1500 "moltmarket:A" = Throw err) ->
            (exists err, send 1%nat addrB 1500 "moltmarket:B" = Throw err) ->
            snd runAB = l)).
Proof.
  intros Ht Hf fee dist run attempts. subst fee dist run attempts.
  split.
  { unfold platformFee, specFee. apply bigint_div_floor. nia. }
  split; [reflexivity|].
  split; [apply specOutcomes_attempts|].
  unfold distributeRevenue at 1 2. rewrite payProviders_spec.
  split; [reflexivity|]. split; [reflexivity|].
  split; [apply payProviders_attempts|].
  split; [apply payProviders_recorded|].
  intros addrA addrB send clk eid l HA HB.
  split; [reflexivity|]. split; [reflexivity|].
  assert (HtA : truthy_str addrA = true)
    by (unfold truthy_str; destruct (decide (addrA = "")); congruence).
  assert (HtB : truthy_str addrB = true)
    by (unfold truthy_str; destruct (decide (addrB = "")); congruence).
  split.
  { unfold distributeRevenue. rewrite payProviders_attempts.
    rewrite !specAttempts_cons. cbn [address name].
    destruct (decide (addrA = "")); [contradiction|].
    destruct (decide (addrB = "")); [contradiction|].
    reflexivity. }
  split.
  { intros Hex (tA & uA & HsA) (tB & uB & HsB).
    split; [|reflexivity].
    unfold distributeRevenue.
    rewrite payProviders_recorded, Hex. f_equal.
    change (distributable 40 5000) with 3000.
    cbn [payProviders address name]. rewrite HtA, HtB.
    change (providerAmount 3000 (mkProvider "A" addrA 50)) with 1500.
    change (providerAmount 3000 (mkProvider "B" addrB 50)) with 1500.
    change (1500 <=? 0) with false. cbn [negb].
    change ("moltmarket:" +:+ "A") with "moltmarket:A".
    change ("moltmarket:" +:+ "B") with "moltmarket:B".
    rewrite HsA, HsB. reflexivity. }
  intros (eA & HsA) (eB & HsB).
  unfold distributeRevenue.
  change (distributable 40 5000) with 3000.
  cbn [payProviders address name]. rewrite HtA, HtB.
  change (providerAmount 3000 (mkProvider "A" addrA 50)) with 1500.
  change (providerAmount 3000 (mkProvider "B" addrB 50)) with 1500.
  change (1500 <=? 0) with false. cbn [negb].
  change ("moltmarket:" +:+ "A") with "moltmarket:A".
  change ("moltmarket:" +:+ "B") with "moltmarket:B".
  rewrite HsA, HsB. reflexivity.
Qed.

Lemma C1_distribution_witness :
  0 <= 5000 /\ 0 <= 40 /\
  snd (distributeRevenue 40
         (fun k _ _ _ => Ok ("0xpaid" +:+ pretty k, "https://explorer.hiro.so"))
         (fun _ => "t1") 1 5000
         [mkProvider "A" "ST-A" 50; mkProvider "B" "ST-B" 50]
         (snd (recordIncomingPayment "tx1" "ST1" 5000 "audit" None "t0"
                 [])))
  = [mkEntry 1 (incoming "tx1" "ST1" 5000 "audit") "t0"
       [mkDistribution "0xpaid0" "ST-A" "A" 1500 "t1";
        mkDistribution "0xpaid1" "ST-B" "B" 1500 "t1"]].
Proof.
  split; [lia|]. split; [lia|].
  destruct (C1_distribution_amounts 40
              (fun k _ _ _ =>
                 Ok ("0xpaid" +:+ pretty k, "https://explorer.hiro.so"))
              (fun _ => "t1") 1 5000
              [mkProvider "A" "ST-A" 50; mkProvider "B" "ST-B" 50]
              (snd (recordIncomingPayment "tx1" "ST1" 5000 "audit" None "t0"
                      []))
              ltac:(lia) ltac:(lia))
    as (_ & _ & _ & _ & Hledger & _).
  rewrite Hledger. vm_compute. reflexivity.
Defined.

(** C1 as stated fails twice over.  When the transfers are refused,
    the same call records nothing at all, so A = 1500 and B = 1500 are
    not on the ledger; and with a negative fee percent the BigInt
    quotient, rounded towards zero, is not the floor. *)
Lemma C1_counterexample :
  let l0 := snd (recordIncomingPayment "tx1" "ST1" 5000 "audit" None "t0"
                   []) in
  let run := distributeRevenue 40
               (fun _ _ _ _ => Throw "broadcast failed")
               (fun _ => "t1") 1 5000
               [mkProvider "A" "ST-A" 50; mkProvider "B" "ST-B" 50] l0 in
  fst run = [Failed "A" "broadcast failed" 1500;
             Failed "B" "broadcast failed" 1500]
  /\ snd run = l0
  /\ recordedAmounts 1 (snd run) = []
  /\ recordedAmounts 1 (snd run) <> [1500; 1500]
  /\ platformFee (-1) 50 = 0
  /\ specFee (-1) 50 = -1.
Proof. cbn zeta. repeat split; try reflexivity. discriminate. Qed.

(** C2, as the code has it.  For a total that is not negative, a fee
    percent between 0 and 100, and recipients whose percents are not
    negative and add up to at most 100, what one call records on the
    entry sums to at most the distributable amount, itself at most the
    total; the sum, the fee and a remainder that is not negative make up
    the total. *)
Theorem C2_recorded_within_distributable
    (feePercent : Z)
    (sendSTX : nat -> string -> Z -> string -> result (string * string))
    (clock : nat -> string) (ledgerEntryId : nat) (totalAmount : Z)
    (providers : list Provider) (entries : list LedgerEntry) :
  0 <= totalAmount -> 0 <= feePercent <= 100 ->
  Forall (fun p => 0 <= sharePercent p) providers ->
  sumZ (map sharePercent providers) <= 100 ->
  let fee := platformFee feePercent totalAmount in
  let dist := distributable feePercent totalAmount in
  let entries' := snd (distributeRevenue feePercent sendSTX clock
                         ledgerEntryId totalAmount providers entries) in
  exists added,
    recordedAmounts ledgerEntryId entries'
    = recordedAmounts ledgerEntryId entries ++ added
    /\ 0 <= sumZ added <= dist
    /\ dist <= totalAmount
    /\ (let remainder := dist - sumZ added in
        sumZ added + fee + remainder = totalAmount /\ 0 <= remainder).
Proof.
  intros Ht Hf Hshares Hsum fee dist entries'. subst fee dist entries'.
  destruct (distributable_bounds feePercent totalAmount Ht Hf)
    as [Hfee [Hd0 Hd1]].
  unfold distributeRevenue.
  pose proof (payProviders_recorded sendSTX clock ledgerEntryId
                (distributable feePercent totalAmount) providers 0 entries)
    as Hrec.
  pose proof (payProviders_paid_bound sendSTX clock ledgerEntryId
                (distributable feePercent totalAmount) providers 0 entries
                Hd0 Hshares) as [Hp0 Hp1].
  destruct (payProviders _ _ _ _ _ _ _) as [rs es]. cbn [fst snd] in *.
  assert (Hle : sumZ (paidAmounts rs)
                <= distributable feePercent totalAmount) by nia.
  destruct (entryExists ledgerEntryId entries).
  - exists (paidAmounts rs). split; [exact Hrec|].
    unfold distributable in *. cbn zeta. lia.
  - exists []. split; [exact Hrec|].
    unfold distributable in *. cbn. lia.
Qed.

Lemma C2_recorded_witness :
  0 <= 5000 /\ 0 <= 40 <= 100
  /\ sumZ (map sharePercent
             [mkProvider "A" "ST-A" 50; mkProvider "B" "ST-B" 50]) <= 100
  /\ exists added,
       recordedAmounts 1
         (snd (distributeRevenue 40
                 (fun _ _ _ _ => Ok ("0xpaid", "https://explorer.hiro.so"))
                 (fun _ => "t1") 1 5000
                 [mkProvider "A" "ST-A" 50; mkProvider "B" "ST-B" 50]
                 (snd (recordIncomingPayment "tx1" "ST1" 5000 "audit" None
                         "t0" []))))
       = [] ++ added
       /\ sumZ added <= 3000.
Proof.
  split; [lia|]. split; [lia|]. split; [cbn; lia|].
  destruct (C2_recorded_within_distributable 40
              (fun _ _ _ _ => Ok ("0xpaid", "https://explorer.hiro.so"))
              (fun _ => "t1") 1 5000
              [mkProvider "A" "ST-A" 50; mkProvider "B" "ST-B" 50]
              (snd (recordIncomingPayment "tx1" "ST1" 5000 "audit" None
                      "t0" []))
              ltac:(lia) ltac:(lia)
              ltac:(repeat constructor; cbn; lia)
              ltac:(cbn; lia))
    as (added & Hrec & [_ Hle] & _).
  exists added. split; [exact Hrec | exact Hle].
Defined.

(** C2 as stated fails: two recipients at 100 percent each are both
    paid the whole distributable amount, twice 3000 against 3000. *)
Lemma C2_counterexample :
  let l0 := snd (recordIncomingPayment "tx1" "ST1" 5000 "audit" None "t0"
                   []) in
  let providers := [mkProvider "A" "ST-A" 100; mkProvider "B" "ST-B" 100] in
  let l1 := snd (distributeRevenue 40
                   (fun _ _ _ _ => Ok ("0xpaid", "https://explorer.hiro.so"))
                   (fun _ => "t1") 1 5000 providers l0) in
  Forall (fun p => 0 <= sharePercent p <= 100) providers
  /\ recordedAmounts 1 l1 = [3000; 3000]
  /\ distributable 40 5000 = 3000
  /\ ~ (sumZ (recordedAmounts 1 l1) <= distributable 40 5000).
Proof.
  cbn zeta. split; [repeat constructor; cbn; lia|].
  split; [reflexivity|]. split; [reflexivity|].
  vm_compute. intros H. apply H. reflexivity.
Qed.

End LedgerFacts.

Module SkillsFacts.
Import JS Skills.

(** *** What the board operations leave alone *)

Lemma submit_ids bountyId submittedBy res now bounties :
  map id (snd (submitBountyWork bountyId submittedBy res now bounties))
  = map id bounties.
Proof.
  unfold submitBountyWork, getBounty.
  destruct (list_find _ bounties) as [[i b]|] eqn:Hfind; [|reflexivity].
  destruct (decide (status b <> "open")); [reflexivity|].
  apply list_find_Some in Hfind as (Hi & _ & _). cbn [snd].
  change (map id) with (fmap (M:=list) id).
  rewrite list_fmap_insert. cbn [id].
  apply list_insert_id. rewrite list_lookup_fmap, Hi. reflexivity.
Qed.

Lemma update_ids bountyId updates now bounties :
  map id (snd (updateBounty bountyId updates now bounties))
  = map id bounties.
Proof.
  unfold updateBounty.
  destruct (list_find _ bounties) as [[i b]|] eqn:Hfind; [|reflexivity].
  destruct (decide (status b <> "open")); [reflexivity|].
  destruct (_ && _); [reflexivity|].
  apply list_find_Some in Hfind as (Hi & _ & _). cbn [snd].
  change (map id) with (fmap (M:=list) id).
  rewrite list_fmap_insert. cbn [id].
  apply list_insert_id. rewrite list_lookup_fmap, Hi. reflexivity.
Qed.

Lemma boardStep_ids bounties op :
  exists more, map id (boardStep bounties op) = map id bounties ++ more.
Proof.
  destruct op; cbn [boardStep].
  - eexists. unfold postBounty. cbn [snd]. apply map_app.
  - exists []. rewrite submit_ids, app_nil_r. reflexivity.
  - exists []. rewrite update_ids, app_nil_r. reflexivity.
Qed.

(** A bounty that is not open is never written to again. *)
Lemma boardStep_closed_frozen bounties op i b :
  bounties !! i = Some b -> status b <> "open" ->
  boardStep bounties op !! i = Some b.
Proof.
  intros Hi Hclosed. destruct op; cbn [boardStep].
  - unfold postBounty. cbn [snd]. apply lookup_app_l_Some, Hi.
  - unfold submitBountyWork, getBounty.
    destruct (list_find _ bounties) as [[j bj]|] eqn:Hfind; [|exact Hi].
    destruct (decide (status bj <> "open")) as [|Hopen]; [exact Hi|].
    apply list_find_Some in Hfind as (Hj & _ & _). cbn [snd].
    rewrite list_lookup_insert_ne; [exact Hi|].
    intros Heq. subst. rewrite Hi in Hj. injection Hj as <-.
    contradiction.
  - unfold updateBounty.
    destruct (list_find _ bounties) as [[j bj]|] eqn:Hfind; [|exact Hi].
    destruct (decide (status bj <> "open")) as [|Hopen]; [exact Hi|].
    destruct (_ && _); [exact Hi|].
    apply list_find_Some in Hfind as (Hj & _ & _). cbn [snd].
    rewrite list_lookup_insert_ne; [exact Hi|].
    intros Heq. subst. rewrite Hi in Hj. injection Hj as <-.
    contradiction.
Qed.

Lemma runBoard_closed_frozen ops : forall bounties i b,
  bounties !! i = Some b -> status b <> "open" ->
  runBoard ops bounties !! i = Some b.
Proof.
  induction ops as [|op ops IH]; intros bounties i b Hi Hclosed;
    [exact Hi|].
  change (runBoard (op :: ops) bounties)
    with (runBoard ops (boardStep bounties op)).
  apply IH; [|exact Hclosed].
  apply boardStep_closed_frozen; assumption.
Qed.

Lemma runBoard_ids ops : forall bounties,
  exists more, map id (runBoard ops bounties) = map id bounties ++ more.
Proof.
  induction ops as [|op ops IH]; intros bounties.
  - exists []. cbn. rewrite app_nil_r. reflexivity.
  - change (runBoard (op :: ops) bounties)
      with (runBoard ops (boardStep bounties op)).
    destruct (IH (boardStep bounties op)) as [m1 H1].
    destruct (boardStep_ids bounties op) as [m2 H2].
    exists (m2 ++ m1). rewrite H1, H2, app_assoc. reflexivity.
Qed.

(** The bounty an id resolves to stays the one at the same position as
    long as the ids in front of it are the same. *)
Lemma getBounty_stable bountyId l l' i b b' more :
  getBounty bountyId l = Some (i, b) ->
  map id l' = map id l ++ more ->
  l' !! i = Some b' ->
  getBounty bountyId l' = Some (i, b').
Proof.
  unfold getBounty. intros (Hi & Hid & Hleast)%list_find_Some Hids Hi'.
  assert (Hlt : (i < length l)%nat) by (eapply lookup_lt_Some, Hi).
  assert (Hsame : forall j x, (j < length l)%nat -> l' !! j = Some x ->
            exists y, l !! j = Some y /\ id y = id x).
  { intros j x Hj Hx.
    destruct (lookup_lt_is_Some_2 l j Hj) as [y Hy]. exists y.
    split; [exact Hy|].
    assert (H1 : map id l' !! j = Some (id x))
      by (change (map id) with (fmap (M:=list) id);
          rewrite list_lookup_fmap, Hx; reflexivity).
    rewrite Hids, lookup_app_l in H1 by (rewrite length_map; exact Hj).
    change (map id) with (fmap (M:=list) id) in H1.
    rewrite list_lookup_fmap, Hy in H1. cbn in H1. congruence. }
  apply list_find_Some. split; [exact Hi'|]. split.
  - destruct (Hsame i b' Hlt Hi') as (y & Hy & Heq).
    rewrite Hi in Hy. injection Hy as <-. congruence.
  - intros j x Hx Hj.
    destruct (Hsame j x ltac:(lia) Hx) as (y & Hy & Heq).
    rewrite <- Heq. eapply Hleast; eassumption.
Qed.

(** C8. For the bounty an id resolves to: if its status is "open", the
    submission is appended, the status becomes "submitted" and both are
    returned; otherwise the call returns the error "Bounty is not open"
    and the board is as it was.  So a submission is accepted only while
    the bounty is open, and once one was accepted the bounty is frozen:
    whatever is done on the board afterwards, it stays as the submission
    left it and every further submission for it gets the same error,
    leaving the board untouched. *)
Theorem C8_submit_only_while_open
    (bountyId submittedBy res now : string) (bounties : list Bounty)
    (i : nat) (bounty : Bounty) :
  getBounty bountyId bounties = Some (i, bounty) ->
  let r := submitBountyWork bountyId submittedBy res now bounties in
  let submission := mkSubmission submittedBy res now in
  let bounty' :=
    mkBounty (id bounty) (title bounty) (description bounty)
             (reward bounty) (postedBy bounty) "submitted"
             (postedAt bounty) (submissions bounty ++ [submission])
             (updatedAt bounty) (negotiationHistory bounty) in
  (status bounty = "open" ->
     r = (Submitted bounty' submission, <[ i := bounty' ]> bounties)
     /\ forall ops s2 r2 now2,
          let later := runBoard ops (snd r) in
          getBounty bountyId later = Some (i, bounty')
          /\ submitBountyWork bountyId s2 r2 now2 later
             = (SubmitError "Bounty is not open", later))
  /\ (status bounty <> "open" ->
        r = (SubmitError "Bounty is not open", bounties))
  /\ (forall b s, fst r = Submitted b s -> status bounty = "open").
Proof.
  intros Hget r submission bounty'.
  assert (Hr : r = if decide (status bounty <> "open")
                   then (SubmitError "Bounty is not open", bounties)
                   else (Submitted bounty' submission,
                         <[ i := bounty' ]> bounties)).
  { subst r. unfold submitBountyWork. rewrite Hget. reflexivity. }
  split; [|split].
  - intros Hopen.
    destruct (decide (status bounty <> "open")) as [Hne|_];
      [contradiction|].
    split; [exact Hr|].
    intros ops s2 r2 now2 later.
    pose proof Hget as (Hi & _ & _)%list_find_Some.
    assert (Hlt : (i < length bounties)%nat) by (eapply lookup_lt_Some, Hi).
    assert (Hat : snd r !! i = Some bounty')
      by (rewrite Hr; cbn [snd]; apply list_lookup_insert_eq, Hlt).
    assert (Hfrozen : later !! i = Some bounty')
      by (apply runBoard_closed_frozen; [exact Hat | discriminate]).
    destruct (runBoard_ids ops (snd r)) as [more Hmore].
    fold later in Hmore.
    pose proof (submit_ids bountyId submittedBy res now bounties) as Hids.
    fold r in Hids. rewrite Hids in Hmore.
    assert (Hget' : getBounty bountyId later = Some (i, bounty'))
      by (eapply getBounty_stable; eassumption).
    split; [exact Hget'|].
    unfold submitBountyWork. rewrite Hget'. reflexivity.
  - intros Hne. rewrite Hr.
    destruct (decide (status bounty <> "open")); [reflexivity|contradiction].
  - intros b s Hs. rewrite Hr in Hs.
    destruct (decide (status bounty <> "open")) as [|Hopen];
      [discriminate|].
    destruct (decide (status bounty = "open")); [assumption|contradiction].
Qed.

Lemma C8_submit_witness :
  let l0 := snd (postBounty "Audit 3 whale wallets" "compare risk scores"
                   (Some "5000") (Some "agent-a") "t0" []) in
  is_Some (getBounty "bounty-1" l0)
  /\ fst (submitBountyWork "bounty-1" "agent-b" "done" "t2"
            (snd (submitBountyWork "bounty-1" "agent-b" "done" "t1" l0)))
     = SubmitError "Bounty is not open".
Proof.
  cbn zeta. split; [eexists; reflexivity|].
  pose proof (C8_submit_only_while_open "bounty-1" "agent-b" "done" "t1"
                (snd (postBounty "Audit 3 whale wallets"
                        "compare risk scores" (Some "5000")
                        (Some "agent-a") "t0" []))
                0 _ eq_refl) as (Hopen & _).
  destruct (Hopen eq_refl) as (_ & Hlater).
  destruct (Hlater [] "agent-b" "done" "t2") as (_ & Hsecond).
  cbn [runBoard fold_left] in Hsecond. rewrite Hsecond. reflexivity.
Defined.

(** C7, as the code has it.  When the update names a poster, as a
    non-empty string, other than the one who posted the bounty, the board
    is left exactly as it was, so the bounty keeps its reward,
    description, negotiationHistory and updatedAt.  The error returned is
    "Only the bounty poster can update the reward" when the bounty is
    open; a bounty that is not open is turned away earlier, with
    "Bounty is not open". *)
Theorem C7_foreign_update_rejected
    (bountyId : string) (updates : Updates) (now : string)
    (bounties : list Bounty) (i : nat) (bounty : Bounty)
    (poster : string) :
  getBounty bountyId bounties = Some (i, bounty) ->
  u_postedBy updates = Some poster ->
  poster <> "" ->
  poster <> postedBy bounty ->
  let r := updateBounty bountyId updates now bounties in
  snd r = bounties
  /\ getBounty bountyId (snd r) = Some (i, bounty)
  /\ (status bounty = "open" -> fst r = UpdateError posterOnlyError)
  /\ (status bounty <> "open" -> fst r = UpdateError notOpenError).
Proof.
  intros Hget Hby Hne Hother r.
  assert (Hguard : truthy_opt (u_postedBy updates)
                   && bool_decide (u_postedBy updates
                                   <> Some (postedBy bounty)) = true).
  { rewrite Hby. cbn. unfold truthy_str.
    destruct (decide (poster = "")); [contradiction|]. cbn.
    apply bool_decide_eq_true. congruence. }
  assert (Hr : r = if decide (status bounty <> "open")
                   then (UpdateError notOpenError, bounties)
                   else (UpdateError posterOnlyError, bounties)).
  { subst r. unfold updateBounty. unfold getBounty in Hget.
    rewrite Hget, Hguard. reflexivity. }
  rewrite Hr.
  destruct (decide (status bounty <> "open")) as [Hclosed|Hopen];
    cbn [fst snd]; (split; [reflexivity|]); (split; [exact Hget|]); split;
    intros H; try reflexivity; contradiction.
Qed.

Lemma C7_foreign_update_witness :
  let l0 := snd (postBounty "Audit 3 whale wallets" "compare risk scores"
                   (Some "5000") (Some "agent-a") "t0" []) in
  let l1 := snd (updateBounty "bounty-1"
                   (mkUpdates (Some "8000") None (Some "agent-a")) "t1"
                   l0) in
  is_Some (getBounty "bounty-1" l1)
  /\ "agent-b" <> ""
  /\ updateBounty "bounty-1"
       (mkUpdates (Some "9000") None (Some "agent-b")) "t2" l1
     = (UpdateError posterOnlyError, l1).
Proof.
  cbn zeta. split; [eexists; reflexivity|]. split; [discriminate|].
  pose proof (C7_foreign_update_rejected "bounty-1"
                (mkUpdates (Some "9000") None (Some "agent-b")) "t2"
                (snd (updateBounty "bounty-1"
                        (mkUpdates (Some "8000") None (Some "agent-a"))
                        "t1"
                        (snd (postBounty "Audit 3 whale wallets"
                                "compare risk scores" (Some "5000")
                                (Some "agent-a") "t0" []))))
                0 _ "agent-b" eq_refl eq_refl
                ltac:(discriminate) ltac:(discriminate))
    as (Hsame & _ & Hopen & _).
  apply injective_projections; [exact (Hopen eq_refl) | exact Hsame].
Defined.

(** C7 as stated fails on a bounty that already has a submission: the
    update by someone else is turned away with "Bounty is not open",
    which is not the authorization error (the bounty is untouched all
    the same). *)
Lemma C7_counterexample :
  let l0 := snd (postBounty "Audit 3 whale wallets" "compare risk scores"
                   (Some "5000") (Some "agent-a") "t0" []) in
  let l1 := snd (submitBountyWork "bounty-1" "agent-c" "done" "t1" l0) in
  let r := updateBounty "bounty-1"
             (mkUpdates (Some "9000") None (Some "agent-b")) "t2" l1 in
  (exists b, getBounty "bounty-1" l1 = Some (0%nat, b)
             /\ postedBy b = "agent-a" /\ status b = "submitted")
  /\ r = (UpdateError "Bounty is not open", l1)
  /\ fst r <> UpdateError "Only the bounty poster can update the reward".
Proof.
  cbn zeta. split; [eexists; repeat split; reflexivity|].
  split; [reflexivity | discriminate].
Qed.

End SkillsFacts.

Module PaymentGateFacts.
Import JS Treasury PaymentGate.

Lemma truthy_opt_Some s : s <> "" -> truthy_opt (Some s) = true.
Proof.
  intros H. cbn. unfold truthy_str.
  destruct (decide (s = "")); [contradiction | reflexivity].
Qed.

Lemma directX402_payer network price asset txid payer :
  directX402 network price asset txid payer !! "payer" = Some payer
  /\ directX402 network price asset txid payer !! "txid" = Some (Str txid)
  /\ directX402 network price asset txid payer !! "verified" = None.
Proof.
  unfold directX402. split; [|split].
  - rewrite !lookup_insert_ne by done. apply lookup_insert_eq.
  - apply lookup_insert_eq.
  - rewrite !lookup_insert_ne by done. apply lookup_empty.
Qed.

(** [sender_address || "unknown"]: the sender when the record has one. *)
Lemma senderOrUnknown_present txData s :
  txData !! "sender_address" = Some (Str s) -> s <> "" ->
  senderOrUnknown txData = Str s.
Proof.
  intros H Hs. unfold senderOrUnknown. rewrite H. cbn.
  unfold truthy_str. destruct (decide (s = "")); [contradiction|].
  reflexivity.
Qed.

Lemma senderOrUnknown_absent txData :
  txData !! "sender_address" = None ->
  senderOrUnknown txData = Str "unknown".
Proof. intros H. unfold senderOrUnknown. rewrite H. reflexivity. Qed.

(** C4, as the code has it.  A non-empty [x-yield-payment] header is
    accepted whatever happened on the yield account before, debit or no
    debit: the gate calls [next()] with a payment whose txid is the
    header, payer "yield-engine" and [yieldPowered: true], and carrying
    no [verified] property.  The balance is the same after as before. *)
Theorem C4_yield_header_accepted_unchecked
    (stacksNetwork : string) (fetch : string -> FetchResult)
    (price : value) (asset : string)
    (acceptedAssets : option (list AssetOption))
    (headers : gmap string string) (token : string)
    (history : list YieldOp) :
  headers !! "x-yield-payment" = Some token ->
  token <> "" ->
  let balance := runYield history initialYield in
  let x402 := yieldX402 price token in
  paymentGate stacksNetwork fetch price asset acceptedAssets headers balance
  = (Next x402, balance)
  /\ x402 !! "txid" = Some (Str token)
  /\ x402 !! "amount" = Some price
  /\ x402 !! "payer" = Some (Str "yield-engine")
  /\ x402 !! "yieldPowered" = Some (Bool true)
  /\ x402 !! "verified" = None.
Proof.
  intros Hhdr Hne balance x402. subst x402. split.
  - unfold paymentGate. rewrite Hhdr, (truthy_opt_Some _ Hne). reflexivity.
  - unfold yieldX402. split; [|split; [|split; [|split]]].
    + apply lookup_insert_eq.
    + rewrite lookup_insert_ne by done. apply lookup_insert_eq.
    + rewrite !lookup_insert_ne by done. apply lookup_insert_eq.
    + rewrite !lookup_insert_ne by done. apply lookup_insert_eq.
    + rewrite !lookup_insert_ne by done. apply lookup_empty.
Qed.

Lemma C4_yield_header_witness :
  ({[ "x-yield-payment" := "yield-payment-1" ]} : gmap string string)
    !! "x-yield-payment" = Some "yield-payment-1"
  /\ "yield-payment-1" <> ""
  /\ snd (paymentGate "testnet" (fun _ => FetchRejects "offline")
            (Str "800") "sBTC" None
            {[ "x-yield-payment" := "yield-payment-1" ]}
            (runYield [Spend 800] initialYield))
     = Fin 620.
Proof.
  assert (Hhdr : ({[ "x-yield-payment" := "yield-payment-1" ]}
                   : gmap string string) !! "x-yield-payment"
                 = Some "yield-payment-1") by reflexivity.
  assert (Hne : "yield-payment-1" <> "") by discriminate.
  split; [exact Hhdr|]. split; [exact Hne|].
  rewrite (proj1 (C4_yield_header_accepted_unchecked "testnet"
                    (fun _ => FetchRejects "offline") (Str "800") "sBTC"
                    None _ "yield-payment-1" [Spend 800] Hhdr Hne)).
  reflexivity.
Defined.

(** C4 as stated fails: on a fresh account, where no debit ever took
    place, the header is accepted all the same. *)
Lemma C4_counterexample :
  let headers : gmap string string :=
    {[ "x-yield-payment" := "yield-payment-1" ]} in
  debitOccurred [] initialYield = false
  /\ paymentGate "testnet" (fun _ => FetchRejects "offline") (Str "800")
       "sBTC" None headers (runYield [] initialYield)
     = (Next (yieldX402 (Str "800") "yield-payment-1"), initialYield).
Proof. cbn zeta. split; reflexivity. Qed.

(** C5, as the code has it.  A non-empty [x-payment-txid] header always
    ends in [next()], never in a rejection.  When no yield header takes
    precedence, the payment attached carries the txid and a payer that
    tells the three outcomes of the lookup apart: the record's
    [sender_address], or "unknown" when it has none, after an OK
    response; "pending" after a response that is not OK; "unverified"
    when the lookup threw.  It carries no [verified] property. *)
Theorem C5_direct_txid_never_rejected
    (stacksNetwork : string) (fetch : string -> FetchResult)
    (price : value) (asset : string)
    (acceptedAssets : option (list AssetOption))
    (headers : gmap string string) (txid : string) (balance : number) :
  headers !! "x-payment-txid" = Some txid ->
  txid <> "" ->
  let gate := paymentGate stacksNetwork fetch price asset acceptedAssets
                headers balance in
  (exists x402, gate = (Next x402, balance))
  /\ (truthy_opt (headers !! "x-yield-payment") = false ->
      exists payer,
        gate = (Next (directX402 stacksNetwork price asset txid payer),
                balance)
        /\ match fetch (verifyUrl stacksNetwork txid) with
           | FetchResponse true (Ok txData) =>
               payer = senderOrUnknown txData
               /\ (forall s, txData !! "sender_address" = Some (Str s) ->
                             s <> "" -> payer = Str s)
               /\ (txData !! "sender_address" = None ->
                   payer = Str "unknown")
           | FetchResponse true (Throw _) => payer = Str "unverified"
           | FetchResponse false _ => payer = Str "pending"
           | FetchRejects _ => payer = Str "unverified"
           end
        /\ directX402 stacksNetwork price asset txid payer !! "payer"
           = Some payer
        /\ directX402 stacksNetwork price asset txid payer !! "verified"
           = None).
Proof.
  intros Hhdr Hne gate.
  assert (Hdirect : truthy_opt (headers !! "x-yield-payment") = false ->
            exists payer,
              gate = (Next (directX402 stacksNetwork price asset txid
                              payer), balance)
              /\ match fetch (verifyUrl stacksNetwork txid) with
                 | FetchResponse true (Ok txData) =>
                     payer = senderOrUnknown txData
                 | FetchResponse true (Throw _) => payer = Str "unverified"
                 | FetchResponse false _ => payer = Str "pending"
                 | FetchRejects _ => payer = Str "unverified"
                 end).
  { intros Hno. subst gate. unfold paymentGate.
    rewrite Hno, Hhdr, (truthy_opt_Some _ Hne).
    change (default "" (Some txid)) with txid.
    destruct (fetch (verifyUrl stacksNetwork txid))
      as [msg | [|] [txData | err]]; eexists; split; reflexivity. }
  split.
  - destruct (truthy_opt (headers !! "x-yield-payment")) eqn:Hy.
    + subst gate. unfold paymentGate. rewrite Hy. eexists. reflexivity.
    + destruct (Hdirect eq_refl) as (payer & Hg & _).
      eexists. exact Hg.
  - intros Hno. destruct (Hdirect Hno) as (payer & Hg & Hpayer).
    exists payer. split; [exact Hg|].
    destruct (directX402_payer stacksNetwork price asset txid payer)
      as (Hp & _ & Hv).
    split; [|split; assumption].
    destruct (fetch (verifyUrl stacksNetwork txid))
      as [msg | [|] [txData | err]]; try exact Hpayer.
    split; [exact Hpayer|]. subst payer. split.
    + intros s. apply senderOrUnknown_present.
    + apply senderOrUnknown_absent.
Qed.

Lemma C5_direct_txid_witness :
  ({[ "x-payment-txid" := "0xabc" ]} : gmap string string)
    !! "x-payment-txid" = Some "0xabc"
  /\ "0xabc" <> ""
  /\ exists x402,
       paymentGate "testnet" (fun _ => FetchRejects "offline") (Str "5000")
         "STX" None {[ "x-payment-txid" := "0xabc" ]} (Fin 1420)
       = (Next x402, Fin 1420).
Proof.
  assert (Hhdr : ({[ "x-payment-txid" := "0xabc" ]} : gmap string string)
                   !! "x-payment-txid" = Some "0xabc") by reflexivity.
  assert (Hne : "0xabc" <> "") by discriminate.
  split; [exact Hhdr|]. split; [exact Hne|].
  exact (proj1 (C5_direct_txid_never_rejected "testnet"
                  (fun _ => FetchRejects "offline") (Str "5000") "STX" None
                  _ "0xabc" (Fin 1420) Hhdr Hne)).
Defined.

(** C5 as stated fails on the field it names: after a successful lookup
    the payment has no [verified] property, let alone [true]; and a
    record without [sender_address] yields the payer "unknown", which is
    not taken from the record. *)
Lemma C5_counterexample :
  let headers : gmap string string := {[ "x-payment-txid" := "0xabc" ]} in
  let found : object :=
    <[ "tx_status" := Str "success" ]>
      (<[ "sender_address" := Str "ST1SENDER" ]> ∅) in
  let bare : object := <[ "tx_status" := Str "success" ]> ∅ in
  let gate record :=
    paymentGate "testnet" (fun _ => FetchResponse true (Ok record))
      (Str "5000") "STX" None headers (Fin 1420) in
  (exists x402, gate found = (Next x402, Fin 1420)
                /\ x402 !! "payer" = Some (Str "ST1SENDER")
                /\ x402 !! "verified" = None
                /\ x402 !! "verified" <> Some (Bool true))
  /\ (exists x402, gate bare = (Next x402, Fin 1420)
                   /\ bare !! "sender_address" = None
                   /\ x402 !! "payer" = Some (Str "unknown")).
Proof.
  cbn zeta. split; eexists; repeat split; try reflexivity. discriminate.
Qed.

End PaymentGateFacts.

(* ===================================================================== *)
(** * Further properties of the modelled code *)
(* ===================================================================== *)

Module TreasuryMore.
Import JS Treasury Observations NumberFacts TreasuryFacts.




Lemma accruedTotal_nonneg ops :
  Forall amountValid ops -> 0 <= accruedTotal ops.
Proof.
  induction 1 as [|op ops Hop _ IH]; [cbn; lia|].
  destruct op as [a rnd | a | a]; cbn in *; lia.
Qed.

Lemma conservation_below_2_53 (ops : list YieldOp) : forall y0 : Z,
  existsb isReset ops = false ->
  Forall amountValid ops ->
  0 <= y0 ->
  y0 + accruedTotal ops <= 2 ^ 53 ->
  runYield ops (Fin y0)
  = Fin (y0 + accruedTotal ops - spentTotal ops (Fin y0))
  /\ 0 <= spentTotal ops (Fin y0) <= y0 + accruedTotal ops.
Proof.
  induction ops as [|op ops IH]; intros y0 Hfree Hall Hy Hbound.
  - cbn in *. split; [f_equal|]; lia.
  - cbn [existsb] in Hfree. apply orb_false_iff in Hfree as [Hop Hrest].
    inversion Hall as [|? ? Hnn Hnns]; subst.
    pose proof (accruedTotal_nonneg ops Hnns) as Hacc.
    change (runYield (op :: ops) (Fin y0))
      with (runYield ops (yieldStep (Fin y0) op)).
    destruct op as [a rnd | a | a]; [| |discriminate].
    + cbn in Hnn. destruct Hnn as [Hnn _].
      assert (Hstep : yieldStep (Fin y0) (Accrue a rnd)
                      = Fin (y0 + default rnd a)).
      { cbn [yieldStep]. unfold accrueSimulatedYield. cbn [snd].
        assert (Hd : default (Fin rnd) (Fin <$> a) = Fin (default rnd a))
          by (destruct a; reflexivity).
        rewrite Hd. cbn [num_add]. apply toNumber_small.
        cbn [accruedTotal] in Hbound. lia. }
      cbn [accruedTotal spentTotal] in *. rewrite Hstep.
      destruct (IH (y0 + default rnd a) Hrest Hnns ltac:(lia) ltac:(lia))
        as [Hrun Hspent].
      rewrite Hrun. split; [f_equal|]; lia.
    + cbn in Hnn. destruct Hnn as [Hnn _]. cbn [accruedTotal] in *.
      cbn [spentTotal yieldStep]. unfold spendSimulatedYield.
      cbn [num_geb]. destruct (Z.leb_spec a y0) as [Hle|Hgt];
        cbn [fst snd success].
      * cbn [num_sub]. rewrite toNumber_small by lia.
        destruct (IH (y0 - a) Hrest Hnns ltac:(lia) ltac:(lia))
          as [Hrun Hspent].
        rewrite Hrun. split; [f_equal|]; lia.
      * destruct (IH y0 Hrest Hnns Hy Hbound) as [Hrun Hspent].
        rewrite Hrun. split; [f_equal|]; lia.
Qed.

(** X2. Without resets, with amounts that are numbers and not negative,
    and as long
    as the starting balance plus everything accrued stays within 2^53,
    the account keeps its books: the balance after a history is the
    starting balance, plus everything accrued, minus the amounts of the
    spends that succeeded, and what was spent is covered by what came
    in.  A refused spend costs nothing.  Beyond 2^53 the books no longer
    balance: at 2^53 an accrual of 1 is lost. *)
Theorem yield_conservation (ops : list YieldOp) (y0 : Z) :
  existsb isReset ops = false ->
  Forall amountValid ops ->
  0 <= y0 ->
  y0 + accruedTotal ops <= 2 ^ 53 ->
  runYield ops (Fin y0)
  = Fin (y0 + accruedTotal ops - spentTotal ops (Fin y0))
  /\ 0 <= spentTotal ops (Fin y0) <= y0 + accruedTotal ops
  /\ runYield [Accrue (Some 1) 1] (Fin (2 ^ 53)) = Fin (2 ^ 53).
Proof.
  intros Hfree Hall Hy Hbound.
  destruct (conservation_below_2_53 ops y0 Hfree Hall Hy Hbound)
    as [Hrun Hspent].
  split; [exact Hrun|]. split; [exact Hspent|].
  vm_compute. reflexivity.
Qed.

Lemma yield_conservation_witness :
  existsb isReset [Spend 800; Accrue (Some 3) 1; Spend 800] = false
  /\ 0 <= 1420
  /\ runYield [Spend 800; Accrue (Some 3) 1; Spend 800] (Fin 1420)
     = Fin (1420 + 3 - 800).
Proof.
  split; [reflexivity|]. split; [lia|].
  rewrite (proj1 (yield_conservation
                    [Spend 800; Accrue (Some 3) 1; Spend 800] 1420
                    eq_refl
                    ltac:(repeat constructor; cbn; try lia;
                          vm_compute; reflexivity)
                    ltac:(lia)
                    ltac:(vm_compute; discriminate))).
  vm_compute. reflexivity.
Defined.

End TreasuryMore.

Module LedgerMore.
Import JS Ledger Observations LedgerFacts.

Lemma grownFrom_refl e : grownFrom e e.
Proof. unfold grownFrom. split_and!; reflexivity. Qed.

Lemma grownFrom_trans e1 e2 e3 :
  grownFrom e1 e2 -> grownFrom e2 e3 -> grownFrom e1 e3.
Proof.
  intros (Hi & Ht & Hs & Hd) (Hi' & Ht' & Hs' & Hd').
  unfold grownFrom. split_and!; try congruence. etrans; eassumption.
Qed.

(** What [recordDistribution] does to each position of the array. *)
Lemma recordDistribution_lookup eid txid toA toN amt now entries i e :
  entries !! i = Some e ->
  exists e',
    recordDistribution eid txid toA toN amt now entries !! i = Some e'
    /\ grownFrom e e'
    /\ (id e <> eid -> e' = e).
Proof.
  intros Hi. unfold recordDistribution.
  destruct (list_find _ entries) as [[j ej]|] eqn:Hfind.
  - apply list_find_Some in Hfind as (Hj & Hid & _).
    destruct (decide (i = j)) as [->|Hne].
    + rewrite Hi in Hj. injection Hj as <-.
      eexists. split; [apply list_lookup_insert_eq; eapply lookup_lt_Some, Hi|].
      split; [|intros Hne; contradiction].
      unfold grownFrom. cbn. split_and!; try reflexivity.
      apply prefix_app_r. reflexivity.
    + exists e. rewrite list_lookup_insert_ne by congruence.
      split; [exact Hi|]. split; [apply grownFrom_refl | reflexivity].
  - exists e. split; [exact Hi|]. split; [apply grownFrom_refl | reflexivity].
Qed.

Lemma ledgerStep_lookup entries op i e :
  entries !! i = Some e ->
  exists e', ledgerStep entries op !! i = Some e' /\ grownFrom e e'.
Proof.
  intros Hi.
  destruct op as [tx fr am sk ts nw | eid tx toA toN am nw | b o n u nw];
    cbn [ledgerStep].
  - exists e. split; [|apply grownFrom_refl].
    unfold recordIncomingPayment. cbn [snd]. apply lookup_app_l_Some, Hi.
  - destruct (recordDistribution_lookup eid tx toA toN am nw entries i e Hi)
      as (e' & H1 & H2 & _).
    exists e'. split; assumption.
  - exists e. split; [|apply grownFrom_refl].
    unfold recordNegotiation. cbn [snd]. apply lookup_app_l_Some, Hi.
Qed.

(** X3. The ledger is append-only.  Whatever calls follow, an entry stays
    at its position with the id, type, payload and timestamp it was
    created with; the only thing that can happen to it is that
    distributions are added at the end of its list. *)
Theorem ledger_append_only (ops : list LedgerOp)
    (entries : list LedgerEntry) (i : nat) (e : LedgerEntry) :
  entries !! i = Some e ->
  exists e', runLedger ops entries !! i = Some e' /\ grownFrom e e'.
Proof.
  revert entries e. induction ops as [|op ops IH]; intros entries e Hi.
  - exists e. split; [exact Hi | apply grownFrom_refl].
  - change (runLedger (op :: ops) entries)
      with (runLedger ops (ledgerStep entries op)).
    destruct (ledgerStep_lookup entries op i e Hi) as (e1 & H1 & G1).
    destruct (IH _ _ H1) as (e2 & H2 & G2).
    exists e2. split; [exact H2 | eapply grownFrom_trans; eassumption].
Qed.

Lemma ledger_append_only_witness :
  let e := mkEntry 1 (incoming "0xt1" "ST1" 5000 "wallet-auditor") "t0" [] in
  [e] !! 0%nat = Some e
  /\ exists e',
       runLedger [OpDistribution 1 "0xd" "ST2" "provider-a" 1500 "t1";
                  OpIncoming "0xt2" "ST1" 3000 "stacks-intel" None "t2"] [e]
         !! 0%nat = Some e'
       /\ grownFrom e e'.
Proof.
  cbn zeta. split; [reflexivity|].
  exact (ledger_append_only
           [OpDistribution 1 "0xd" "ST2" "provider-a" 1500 "t1";
            OpIncoming "0xt2" "ST1" 3000 "stacks-intel" None "t2"]
           [mkEntry 1 (incoming "0xt1" "ST1" 5000 "wallet-auditor") "t0" []]
           0 _ eq_refl).
Defined.

(** *** The summary follows the operations *)

Lemma incomingTotal_app l1 l2 :
  incomingTotal (l1 ++ l2) = incomingTotal l1 + incomingTotal l2.
Proof.
  induction l1 as [|e l1 IH]; [reflexivity|].
  change ((e :: l1) ++ l2) with (e :: (l1 ++ l2)).
  rewrite !incomingTotal_cons, IH. lia.
Qed.

Lemma distributedTotal_app l1 l2 :
  distributedTotal (l1 ++ l2) = distributedTotal l1 + distributedTotal l2.
Proof.
  induction l1 as [|e l1 IH]; [reflexivity|].
  change ((e :: l1) ++ l2) with (e :: (l1 ++ l2)).
  rewrite !distributedTotal_cons, IH. lia.
Qed.

Lemma incomingTotal_types l1 l2 :
  map entry_type l1 = map entry_type l2 ->
  incomingTotal l1 = incomingTotal l2.
Proof.
  revert l2. induction l1 as [|a l1 IH]; intros [|b l2] H;
    try discriminate; [reflexivity|].
  cbn in H. injection H as Hab Hl.
  rewrite !incomingTotal_cons, (IH _ Hl). unfold amount. rewrite Hab.
  reflexivity.
Qed.

Lemma distributedTotal_recordDistribution eid txid toA toN amt now entries :
  distributedTotal (recordDistribution eid txid toA toN amt now entries)
  = distributedTotal entries + (if entryExists eid entries then amt else 0).
Proof.
  rewrite entryExists_find. unfold recordDistribution.
  destruct (list_find _ entries) as [[i e]|] eqn:Hfind.
  - rewrite bool_decide_eq_true_2 by (eexists; reflexivity).
    apply list_find_Some in Hfind as (Hi & _ & _).
    rewrite insert_take_drop by (eapply lookup_lt_Some, Hi).
    rewrite <- (take_drop_middle entries i e Hi) at 3.
    rewrite !distributedTotal_app, !distributedTotal_cons. cbn [distributions].
    rewrite map_app, sumZ_app. cbn. lia.
  - rewrite bool_decide_eq_false_2 by (intros [? ?]; discriminate). lia.
Qed.

Lemma summary_Ok entries s :
  getLedgerSummary entries = Ok s ->
  existsb isNegotiation entries = false
  /\ s = mkSummary (length entries) (incomingTotal entries)
           (distributedTotal entries)
           (incomingTotal entries - distributedTotal entries) entries.
Proof.
  unfold getLedgerSummary. rewrite summaryLoop_spec.
  destruct (existsb isNegotiation entries); [discriminate|].
  cbn. intros H. injection H as <-. split; reflexivity.
Qed.

Lemma summary_of_payments entries :
  existsb isNegotiation entries = false ->
  getLedgerSummary entries
  = Ok (mkSummary (length entries) (incomingTotal entries)
          (distributedTotal entries)
          (incomingTotal entries - distributedTotal entries) entries).
Proof.
  intros H. unfold getLedgerSummary. rewrite summaryLoop_spec, H. reflexivity.
Qed.

(** X4. Wherever the summary can be computed, it follows the ledger
    operations step by step.  Recording an incoming payment of [amt] adds
    one to the payment count and [amt] to both the incoming total and the
    platform balance.  Recording a distribution of [amt] on an entry that
    exists adds [amt] to the distributed total and takes it off the
    platform balance; on an id that matches nothing the totals stay as
    they are. *)
Theorem summary_tracks_operations
    (entries : list LedgerEntry) (s : Summary) :
  getLedgerSummary entries = Ok s ->
  (forall txid from amt skillId ts now,
     let entries' :=
       snd (recordIncomingPayment txid from amt skillId ts now entries) in
     getLedgerSummary entries'
     = Ok (mkSummary (S (totalPayments s))
             (totalIncomingMicroSTX s + amt)
             (totalDistributedMicroSTX s)
             (platformBalanceMicroSTX s + amt) entries'))
  /\ (forall eid txid toAddress toName amt now,
        let entries' :=
          recordDistribution eid txid toAddress toName amt now entries in
        let d := if entryExists eid entries then amt else 0 in
        getLedgerSummary entries'
        = Ok (mkSummary (totalPayments s)
                (totalIncomingMicroSTX s)
                (totalDistributedMicroSTX s + d)
                (platformBalanceMicroSTX s - d) entries')).
Proof.
  intros (Hneg & ->)%summary_Ok. cbn [totalPayments totalIncomingMicroSTX
    totalDistributedMicroSTX platformBalanceMicroSTX]. split.
  - intros txid from amt skillId ts now.
    unfold recordIncomingPayment. cbn [snd].
    rewrite summary_of_payments
      by (rewrite existsb_app, Hneg; reflexivity).
    rewrite length_app, incomingTotal_app, distributedTotal_app.
    cbn [length]. unfold incomingTotal at 2, distributedTotal at 2. cbn.
    f_equal. f_equal; lia.
  - intros eid txid toA toN amt now.
    rewrite summary_of_payments.
    + rewrite recordDistribution_length, distributedTotal_recordDistribution.
      rewrite (incomingTotal_types _ entries)
        by apply recordDistribution_types.
      f_equal. f_equal. lia.
    + rewrite <- Hneg.
      apply existsb_isNegotiation_types, recordDistribution_types.
Qed.

Lemma summary_tracks_operations_witness :
  let e := mkEntry 1 (incoming "0xt1" "ST1" 5000 "wallet-auditor") "t0" [] in
  getLedgerSummary [e] = Ok (mkSummary 1 5000 0 5000 [e])
  /\ exists es,
       getLedgerSummary (recordDistribution 1 "0xd" "ST2" "p" 1500 "t1" [e])
       = Ok (mkSummary 1 5000 1500 3500 es).
Proof.
  cbn zeta. split; [reflexivity|].
  eexists.
  exact (proj2 (summary_tracks_operations
                  [mkEntry 1 (incoming "0xt1" "ST1" 5000 "wallet-auditor")
                     "t0" []]
                  _ eq_refl) 1%nat "0xd" "ST2" "p" 1500 "t1").
Defined.

(** *** The distributor and the rest of the ledger *)

Lemma recordDistribution_missing eid txid toA toN amt now entries :
  entryExists eid entries = false ->
  recordDistribution eid txid toA toN amt now entries = entries.
Proof.
  rewrite entryExists_find. intros H. apply bool_decide_eq_false in H.
  unfold recordDistribution.
  destruct (list_find _ entries) as [[i e]|]; [|reflexivity].
  exfalso. apply H. eexists. reflexivity.
Qed.

Lemma payProviders_missing sendSTX clock eid dist providers :
  forall k entries,
    entryExists eid entries = false ->
    snd (payProviders sendSTX clock k eid dist providers entries) = entries.
Proof.
  induction providers as [|p providers IH]; intros k entries Hno;
    [reflexivity|].
  cbn [payProviders].
  destruct (negb (truthy_str (address p))); [apply IH, Hno|].
  destruct (providerAmount dist p <=? 0); [apply IH, Hno|].
  destruct (sendSTX k _ _ _) as [[txid url]|err].
  - rewrite (recordDistribution_missing _ _ _ _ _ _ _ Hno).
    specialize (IH (S k) entries Hno).
    destruct (payProviders _ _ _ _ _ _ _) as [rs es]. exact IH.
  - specialize (IH (S k) entries Hno).
    destruct (payProviders _ _ _ _ _ _ _) as [rs es]. exact IH.
Qed.

(** X5. When the id handed to [distributeRevenue] matches no entry, the
    transfers are attempted all the same, to the same recipients and for
    the same amounts as otherwise, but the ledger comes back exactly as it
    was: what was paid out is written down nowhere. *)
Theorem distribute_without_entry_pays_unrecorded
    (feePercent : Z)
    (sendSTX : nat -> string -> Z -> string -> result (string * string))
    (clock : nat -> string) (ledgerEntryId : nat) (totalAmount : Z)
    (providers : list Provider) (entries : list LedgerEntry) :
  entryExists ledgerEntryId entries = false ->
  let run := distributeRevenue feePercent sendSTX clock ledgerEntryId
               totalAmount providers entries in
  snd run = entries
  /\ map payoutKey (fst run)
     = specAttempts (distributable feePercent totalAmount) providers.
Proof.
  intros Hno run. subst run. unfold distributeRevenue.
  split; [apply payProviders_missing, Hno | apply payProviders_attempts].
Qed.

Lemma distribute_without_entry_witness :
  entryExists 9 [] = false
  /\ distributeRevenue 40
       (fun _ _ _ _ => Ok ("0xpaid", "https://explorer.hiro.so"))
       (fun _ => "t1") 9 5000 [mkProvider "A" "ST-A" 100] []
     = ([Paid "A" "0xpaid" 3000 "https://explorer.hiro.so"], []).
Proof.
  split; [reflexivity|].
  pose proof (distribute_without_entry_pays_unrecorded 40
                (fun _ _ _ _ => Ok ("0xpaid", "https://explorer.hiro.so"))
                (fun _ => "t1") 9 5000 [mkProvider "A" "ST-A" 100] []
                eq_refl) as [Hledger _].
  apply injective_projections; [reflexivity | exact Hledger].
Defined.

Lemma payProviders_lookup sendSTX clock eid dist providers :
  forall k entries i e,
    entries !! i = Some e ->
    exists e',
      snd (payProviders sendSTX clock k eid dist providers entries) !! i
      = Some e'
      /\ grownFrom e e'
      /\ (id e <> eid -> e' = e).
Proof.
  induction providers as [|p providers IH]; intros k entries i e Hi.
  - exists e. split; [exact Hi|]. split; [apply grownFrom_refl | reflexivity].
  - cbn [payProviders].
    destruct (negb (truthy_str (address p))); [apply IH, Hi|].
    destruct (providerAmount dist p <=? 0); [apply IH, Hi|].
    destruct (sendSTX k _ _ _) as [[txid url]|err].
    + destruct (recordDistribution_lookup eid txid (address p) (name p)
                  (providerAmount dist p) (clock k) entries i e Hi)
        as (e1 & H1 & G1 & S1).
      destruct (IH (S k) _ i e1 H1) as (e2 & H2 & G2 & S2).
      destruct (payProviders _ _ _ _ _ _ _) as [rs es]. cbn [snd] in *.
      exists e2. split; [exact H2|].
      split; [eapply grownFrom_trans; eassumption|].
      intros Hne. rewrite S2 by (destruct G1 as [-> _]; exact Hne).
      apply S1, Hne.
    + destruct (IH (S k) entries i e Hi) as (e2 & H2 & G2 & S2).
      destruct (payProviders _ _ _ _ _ _ _) as [rs es]. cbn [snd] in *.
      exists e2. split; [exact H2|]. split; assumption.
Qed.

Lemma payProviders_length sendSTX clock eid dist providers :
  forall k entries,
    length (snd (payProviders sendSTX clock k eid dist providers entries))
    = length entries.
Proof.
  induction providers as [|p providers IH]; intros k entries; [reflexivity|].
  cbn [payProviders].
  destruct (negb (truthy_str (address p))); [apply IH|].
  destruct (providerAmount dist p <=? 0); [apply IH|].
  destruct (sendSTX k _ _ _) as [[txid url]|err].
  - specialize (IH (S k)
      (recordDistribution eid txid (address p) (name p)
         (providerAmount dist p) (clock k) entries)).
    destruct (payProviders _ _ _ _ _ _ _) as [rs es]. cbn [snd] in *.
    rewrite IH. apply recordDistribution_length.
  - specialize (IH (S k) entries).
    destruct (payProviders _ _ _ _ _ _ _) as [rs es]. exact IH.
Qed.

(** X6. A distribution run adds and removes no entry, and writes to no
    entry but one carrying the id it was given: every other entry is
    found afterwards at its position, identical; an entry with that id
    keeps its id, type, payload and timestamp and can only have gained
    distributions at the end of its list. *)
Theorem distribute_touches_only_its_entry
    (feePercent : Z)
    (sendSTX : nat -> string -> Z -> string -> result (string * string))
    (clock : nat -> string) (ledgerEntryId : nat) (totalAmount : Z)
    (providers : list Provider) (entries : list LedgerEntry) :
  let entries' := snd (distributeRevenue feePercent sendSTX clock
                         ledgerEntryId totalAmount providers entries) in
  length entries' = length entries
  /\ forall i e, entries !! i = Some e ->
       exists e', entries' !! i = Some e'
                  /\ grownFrom e e'
                  /\ (id e <> ledgerEntryId -> e' = e).
Proof.
  intros entries'. subst entries'. unfold distributeRevenue.
  split; [apply payProviders_length|].
  intros i e Hi. apply payProviders_lookup, Hi.
Qed.

Lemma payProviders_nothing_to_share sendSTX clock eid dist providers :
  forall k entries,
    dist <= 0 ->
    Forall (fun p => 0 <= sharePercent p) providers ->
    payProviders sendSTX clock k eid dist providers entries = ([], entries).
Proof.
  induction providers as [|p providers IH]; intros k entries Hd Hall;
    [reflexivity|].
  inversion Hall as [|? ? Hp Hrest]; subst.
  cbn [payProviders].
  destruct (negb (truthy_str (address p))); [apply IH; assumption|].
  assert (Hskip : (providerAmount dist p <=? 0) = true).
  { apply Z.leb_le. unfold providerAmount, bigint_div.
    assert (dist * sharePercent p <= 0) by nia.
    Z.to_euclidean_division_equations. lia. }
  rewrite Hskip. apply IH; assumption.
Qed.

(** X7. When the fee leaves nothing to distribute (a total of zero, or a
    fee of 100 percent or more), recipients with non-negative shares get
    no transfer attempt at all: the run returns an empty result list and
    the ledger as it was.  A fee of exactly 100 percent leaves exactly
    zero of any non-negative total. *)
Theorem distribute_nothing_when_fee_takes_all
    (feePercent : Z)
    (sendSTX : nat -> string -> Z -> string -> result (string * string))
    (clock : nat -> string) (ledgerEntryId : nat) (totalAmount : Z)
    (providers : list Provider) (entries : list LedgerEntry) :
  distributable feePercent totalAmount <= 0 ->
  Forall (fun p => 0 <= sharePercent p) providers ->
  distributeRevenue feePercent sendSTX clock ledgerEntryId totalAmount
    providers entries = ([], entries)
  /\ distributable 100 totalAmount = 0.
Proof.
  intros Hd Hall. split.
  - unfold distributeRevenue. apply payProviders_nothing_to_share; assumption.
  - unfold distributable, platformFee, bigint_div.
    rewrite Z.quot_mul by lia. lia.
Qed.

Lemma distribute_nothing_witness :
  distributable 100 5000 <= 0
  /\ distributeRevenue 100
       (fun _ _ _ _ => Ok ("0xpaid", "https://explorer.hiro.so"))
       (fun _ => "t1") 1 5000
       [mkProvider "A" "ST-A" 70; mkProvider "B" "ST-B" 30]
       (snd (recordIncomingPayment "tx1" "ST1" 5000 "audit" None "t0" []))
     = ([], snd (recordIncomingPayment "tx1" "ST1" 5000 "audit" None "t0"
                   [])).
Proof.
  assert (Hd : distributable 100 5000 <= 0) by (vm_compute; discriminate).
  split; [exact Hd|].
  apply (distribute_nothing_when_fee_takes_all 100
           (fun _ _ _ _ => Ok ("0xpaid", "https://explorer.hiro.so"))
           (fun _ => "t1") 1 5000
           [mkProvider "A" "ST-A" 70; mkProvider "B" "ST-B" 30]
           (snd (recordIncomingPayment "tx1" "ST1" 5000 "audit" None "t0"
                   []))
           Hd).
  repeat constructor; cbn; lia.
Defined.

Lemma specAttempts_rounding dist providers :
  0 <= dist ->
  Forall (fun p => 0 <= sharePercent p /\ address p <> "") providers ->
  let attempted := sumZ (map snd (specAttempts dist providers)) in
  100 * attempted <= dist * sumZ (map sharePercent providers)
  /\ dist * sumZ (map sharePercent providers)
     <= 100 * attempted + 99 * Z.of_nat (length providers).
Proof.
  intros Hd Hall. induction Hall as [|p providers [Hp Ha] Hrest IH].
  - cbn. lia.
  - rewrite specAttempts_cons.
    destruct (decide (address p = "")); [contradiction|].
    cbn zeta in IH |- *. rewrite map_app, sumZ_app.
    change (sumZ (map sharePercent (p :: providers)))
      with (sharePercent p + sumZ (map sharePercent providers)).
    rewrite length_cons, Nat2Z.inj_succ.
    assert (Hprod : 0 <= dist * sharePercent p) by nia.
    unfold specShare in *.
    destruct (Z.leb_spec (dist * sharePercent p / 100) 0) as [Hle|Hgt]; cbn.
    + assert (dist * sharePercent p / 100 = 0)
        by (Z.to_euclidean_division_equations; lia).
      assert (dist * sharePercent p <= 99)
        by (Z.to_euclidean_division_equations; lia).
      nia.
    + assert (100 * (dist * sharePercent p / 100) <= dist * sharePercent p
              <= 100 * (dist * sharePercent p / 100) + 99)
        by (Z.to_euclidean_division_equations; lia).
      nia.
Qed.

(** X8. Rounding costs the recipients less than one unit each.  When
    the distributable amount is not negative, all recipients have an
    address, no share percent is negative and the percents add up to
    100, the amounts of the attempted transfers sum to at most the
    distributable amount and fall short of it by at most 99/100 of a
    unit per recipient; what is not handed out stays with the platform.
    The distributable amount is not negative whenever the total is not
    negative and the fee percent lies between 0 and 100; with a fee
    above 100 percent it is negative, and the bound does not hold. *)
Theorem distribute_rounding_loss_bounded
    (feePercent : Z)
    (sendSTX : nat -> string -> Z -> string -> result (string * string))
    (clock : nat -> string) (ledgerEntryId : nat) (totalAmount : Z)
    (providers : list Provider) (entries : list LedgerEntry) :
  0 <= distributable feePercent totalAmount ->
  Forall (fun p => 0 <= sharePercent p /\ address p <> "") providers ->
  sumZ (map sharePercent providers) = 100 ->
  let dist := distributable feePercent totalAmount in
  let attempted :=
    attemptedTotal (fst (distributeRevenue feePercent sendSTX clock
                           ledgerEntryId totalAmount providers entries)) in
  attempted <= dist
  /\ 100 * (dist - attempted) <= 99 * Z.of_nat (length providers)
  /\ dist - Z.of_nat (length providers) < attempted
  /\ (0 <= totalAmount -> 0 <= feePercent <= 100 ->
      0 <= distributable feePercent totalAmount)
  /\ (distributable 150 5000 = -2500
      /\ attemptedTotal
           (fst (distributeRevenue 150 sendSTX clock ledgerEntryId 5000
                   [mkProvider "A" "ST-A" 70; mkProvider "B" "ST-B" 30]
                   entries))
         = 0).
Proof.
  intros Hd Hall Hsum dist attempted. subst dist attempted.
  split_and!.
  4: { intros Ht Hf.
       apply (distributable_bounds feePercent totalAmount Ht Hf). }
  4: { reflexivity. }
  4: { reflexivity. }
  all: unfold attemptedTotal, distributeRevenue;
    rewrite <- (map_map payoutKey snd), payProviders_attempts;
    destruct (specAttempts_rounding _ providers Hd Hall) as [Hup Hlow];
    cbn zeta in Hup, Hlow; rewrite Hsum in Hup, Hlow;
    assert (Hn : (0 < length providers)%nat)
      by (destruct providers; [cbn in Hsum; discriminate | cbn; lia]);
    lia.
Qed.

Lemma distribute_rounding_witness :
  0 <= distributable 40 5001
  /\ attemptedTotal
       (fst (distributeRevenue 40 (fun _ _ _ _ => Throw "refused")
               (fun _ => "t1") 1 5001
               [mkProvider "A" "ST-A" 70; mkProvider "B" "ST-B" 30] []))
     <= distributable 40 5001.
Proof.
  assert (Hd : 0 <= distributable 40 5001) by (vm_compute; discriminate).
  assert (Hall : Forall (fun p => 0 <= sharePercent p /\ address p <> "")
                   [mkProvider "A" "ST-A" 70; mkProvider "B" "ST-B" 30])
    by (repeat constructor; cbn; try lia; discriminate).
  split; [exact Hd|].
  exact (proj1 (distribute_rounding_loss_bounded 40
                  (fun _ _ _ _ => Throw "refused")
                  (fun _ => "t1") 1 5001
                  [mkProvider "A" "ST-A" 70; mkProvider "B" "ST-B" 30] []
                  Hd Hall eq_refl)).
Defined.

End LedgerMore.

Module SkillsMore.
Import JS Skills BoardObservations SkillsFacts.

(** *** The two functions in terms of the objects they write back *)

Lemma submitBountyWork_found bountyId submittedBy res now bounties i b :
  getBounty bountyId bounties = Some (i, b) ->
  submitBountyWork bountyId submittedBy res now bounties
  = if decide (status b <> "open")
    then (SubmitError "Bounty is not open", bounties)
    else (Submitted (afterSubmit b (mkSubmission submittedBy res now))
            (mkSubmission submittedBy res now),
          <[ i := afterSubmit b (mkSubmission submittedBy res now) ]>
            bounties).
Proof. intros H. unfold submitBountyWork. rewrite H. reflexivity. Qed.

Lemma updateBounty_found bountyId updates now bounties i b :
  getBounty bountyId bounties = Some (i, b) ->
  updateBounty bountyId updates now bounties
  = if decide (status b <> "open")
    then (UpdateError notOpenError, bounties)
    else if truthy_opt (u_postedBy updates)
            && bool_decide (u_postedBy updates <> Some (postedBy b))
    then (UpdateError posterOnlyError, bounties)
    else (Updated (afterUpdate b updates now),
          <[ i := afterUpdate b updates now ]> bounties).
Proof.
  intros H. unfold updateBounty. unfold getBounty in H. rewrite H.
  reflexivity.
Qed.

(** Any property of single bounties that holds of a fresh posting and
    survives an accepted submission and an accepted update holds all over
    every board grown from one where it held. *)
Lemma board_invariant (P : Bounty -> Prop) :
  (forall t d r p now l, P (fst (postBounty t d r p now l))) ->
  (forall b s, P b -> status b = "open" -> P (afterSubmit b s)) ->
  (forall b u now, P b -> status b = "open" -> P (afterUpdate b u now)) ->
  forall ops bounties, Forall P bounties -> Forall P (runBoard ops bounties).
Proof.
  intros Hpost Hsub Hupd.
  induction ops as [|op ops IH]; intros bounties Hall; [exact Hall|].
  change (runBoard (op :: ops) bounties)
    with (runBoard ops (boardStep bounties op)).
  apply IH. destruct op as [t d r p now | bid sb rs now | bid u now];
    cbn [boardStep].
  - unfold postBounty in *. cbn [snd].
    apply Forall_app. split; [exact Hall|]. constructor; [|constructor].
    apply (Hpost t d r p now bounties).
  - destruct (getBounty bid bounties) as [[i b]|] eqn:Hget.
    + rewrite (submitBountyWork_found _ _ _ _ _ _ _ Hget).
      pose proof Hget as (Hi & _ & _)%list_find_Some.
      destruct (decide (status b <> "open")) as [|Hopen]; [exact Hall|].
      cbn [snd]. apply Forall_insert; [exact Hall|].
      apply Hsub.
      * eapply Forall_lookup_1; eassumption.
      * destruct (decide (status b = "open")); [assumption|contradiction].
    + unfold submitBountyWork. rewrite Hget. exact Hall.
  - destruct (getBounty bid bounties) as [[i b]|] eqn:Hget.
    + rewrite (updateBounty_found _ _ _ _ _ _ Hget).
      pose proof Hget as (Hi & _ & _)%list_find_Some.
      destruct (decide (status b <> "open")) as [|Hopen]; [exact Hall|].
      destruct (_ && _); [exact Hall|].
      cbn [snd]. apply Forall_insert; [exact Hall|].
      apply Hupd.
      * eapply Forall_lookup_1; eassumption.
      * destruct (decide (status b = "open")); [assumption|contradiction].
    + unfold updateBounty. unfold getBounty in Hget. rewrite Hget.
      exact Hall.
Qed.

Lemma runBoard_statuses (ops : list BoardOp) :
  Forall (fun b => status b = "open" \/ status b = "submitted")
         (runBoard ops []).
Proof.
  apply board_invariant; [| | |constructor].
  - intros. left. reflexivity.
  - intros. right. reflexivity.
  - intros b u now H _. exact H.
Qed.

(** X9. On a board grown from the empty one, every bounty is either open
    with no submission or submitted with exactly one: a bounty never
    collects a second submission, and no other status ever appears. *)
Theorem board_one_submission_at_most (ops : list BoardOp) :
  Forall submissionsMatchStatus (runBoard ops []).
Proof.
  apply board_invariant; [| | |constructor].
  - intros. left. split; reflexivity.
  - intros b s [[_ Hnone]|[Hst _]] Hopen; [|congruence].
    right. split; [reflexivity|]. cbn. rewrite Hnone. reflexivity.
  - intros b u now [[Hst Hnone]|[Hst _]] Hopen; [|congruence].
    left. split; assumption.
Qed.

Lemma chainEndsAt_snoc h start mid c :
  chainEndsAt h start mid -> oldReward c = mid ->
  chainEndsAt (h ++ [c]) start (newReward c).
Proof.
  revert start. induction h as [|c0 h IH]; intros start Hchain Hold; cbn in *.
  - split; [congruence | reflexivity].
  - destruct Hchain as [H0 Hrest]. split; [exact H0|]. apply IH; assumption.
Qed.

(** X10. On a board grown from the empty one, the negotiation history of
    every bounty is a consistent trail: each record starts from the reward
    the previous record ended with, and the last record ends with the
    bounty's current reward. *)
Theorem board_history_is_a_trail (ops : list BoardOp) :
  Forall historyConsistent (runBoard ops []).
Proof.
  apply board_invariant; [| | |constructor].
  - intros t d r p now l. exists r. reflexivity.
  - intros b s [start Hchain] _. exists start. exact Hchain.
  - intros b u now [start Hchain] _. exists start.
    unfold afterUpdate. cbn [negotiationHistory reward].
    unfold default at 1. cbn [from_option Datatypes.id].
    match goal with
    | |- chainEndsAt (_ ++ [?c]) _ _ =>
        apply (chainEndsAt_snoc _ start (reward b) c Hchain)
    end.
    reflexivity.
Qed.

(** *** Ids *)

Lemma boardStep_length_ids bounties op :
  map id bounties = map bountyIdAt (seq 0 (length bounties)) ->
  map id (boardStep bounties op)
  = map bountyIdAt (seq 0 (length (boardStep bounties op))).
Proof.
  intros H. destruct op as [t d r p now | bid sb rs now | bid u now];
    cbn [boardStep].
  - unfold postBounty. cbn [snd].
    rewrite map_app, length_app, seq_app, map_app, H. cbn. reflexivity.
  - rewrite submit_ids.
    rewrite <- (length_map id (snd (submitBountyWork _ _ _ _ _))), submit_ids.
    rewrite length_map. exact H.
  - rewrite update_ids.
    rewrite <- (length_map id (snd (updateBounty _ _ _ _))), update_ids.
    rewrite length_map. exact H.
Qed.

Lemma runBoard_numbered ops : forall bounties,
  map id bounties = map bountyIdAt (seq 0 (length bounties)) ->
  map id (runBoard ops bounties)
  = map bountyIdAt (seq 0 (length (runBoard ops bounties))).
Proof.
  induction ops as [|op ops IH]; intros bounties H; [exact H|].
  change (runBoard (op :: ops) bounties)
    with (runBoard ops (boardStep bounties op)).
  apply IH, boardStep_length_ids, H.
Qed.

Lemma bountyIdAt_inj : Inj (=) (=) bountyIdAt.
Proof.
  intros a b H. unfold bountyIdAt in H.
  apply (inj (String.app "bounty-")) in H.
  apply (inj pretty) in H. lia.
Qed.

(** X11. On a board grown from the empty one the bounty at position k
    (counting from 0) has the id "bounty-" followed by k+1 in decimal, so
    no two bounties share an id, whatever was posted, submitted or
    updated in between. *)
Theorem board_ids_unique (ops : list BoardOp) :
  let board := runBoard ops [] in
  map id board = map bountyIdAt (seq 0 (length board))
  /\ NoDup (map id board).
Proof.
  intros board.
  assert (H : map id board = map bountyIdAt (seq 0 (length board)))
    by (apply runBoard_numbered; reflexivity).
  split; [exact H|]. rewrite H.
  pose proof bountyIdAt_inj as Hinj.
  apply (NoDup_fmap_2 bountyIdAt). apply NoDup_seq.
Qed.

(** X12. Posting and looking up go together: on a board grown from the
    empty one, the bounty returned by [postBounty] is open, has no
    submission, sits at the end of the board, and is the one [getBounty]
    returns for its id. *)
Theorem post_then_get (ops : list BoardOp)
    (title description : string) (reward postedBy : option string)
    (now : string) :
  let board := runBoard ops [] in
  let posted := postBounty title description reward postedBy now board in
  getBounty (id (fst posted)) (snd posted) = Some (length board, fst posted)
  /\ status (fst posted) = "open"
  /\ submissions (fst posted) = []
  /\ snd posted = board ++ [fst posted].
Proof.
  intros board posted. subst posted. unfold postBounty. cbn [fst snd].
  split; [|repeat split].
  unfold getBounty. apply list_find_Some. cbn [id].
  split; [|split].
  - rewrite lookup_app_r by lia. rewrite Nat.sub_diag. reflexivity.
  - reflexivity.
  - intros j y Hy Hj Hid.
    rewrite lookup_app_l in Hy by exact Hj.
    assert (Hids : map id board = map bountyIdAt (seq 0 (length board)))
      by (apply runBoard_numbered; reflexivity).
    assert (Hyid : map id board !! j = Some (id y))
      by (change (map id) with (fmap (M:=list) id);
          rewrite list_lookup_fmap, Hy; reflexivity).
    rewrite Hids in Hyid.
    change (map bountyIdAt) with (fmap (M:=list) bountyIdAt) in Hyid.
    rewrite list_lookup_fmap, lookup_seq_lt in Hyid by exact Hj.
    cbn in Hyid. injection Hyid as Hyid.
    rewrite <- Hyid in Hid.
    change ("bounty-" +:+ pretty (length board + 1)%nat)
      with (bountyIdAt (length board)) in Hid.
    apply bountyIdAt_inj in Hid. lia.
Qed.

(** X13. For the bounty an id resolves to, an update is accepted exactly
    when the bounty is open and the update either names no poster (none,
    or the empty string) or names the one who posted it: naming nobody is
    enough to be let through.  An accepted update leaves the bounty open,
    with the same poster and submissions, stamps [updatedAt], sets the
    reward if one was given, and adds exactly one record to the history,
    from the old reward to the resulting one (the two are equal when only
    the description changed).  A refused update changes nothing. *)
Theorem update_accepted_exactly_when
    (bountyId : string) (updates : Updates) (now : string)
    (bounties : list Bounty) (i : nat) (b : Bounty) :
  getBounty bountyId bounties = Some (i, b) ->
  let r := updateBounty bountyId updates now bounties in
  let accepted :=
    status b = "open"
    /\ (truthy_opt (u_postedBy updates) = false
        \/ u_postedBy updates = Some (postedBy b)) in
  ((exists b', fst r = Updated b') <-> accepted)
  /\ (accepted ->
      exists b',
        r = (Updated b', <[ i := b' ]> bounties)
        /\ status b' = "open"
        /\ id b' = id b
        /\ postedBy b' = postedBy b
        /\ submissions b' = submissions b
        /\ updatedAt b' = Some now
        /\ reward b' = (if truthy_opt (u_reward updates)
                        then u_reward updates else reward b)
        /\ negotiationHistory b'
           = Some (default [] (negotiationHistory b)
                     ++ [mkChange "reward_updated" (reward b) (reward b')
                           now]))
  /\ (~ accepted -> snd r = bounties).
Proof.
  intros Hget r accepted. subst r.
  rewrite (updateBounty_found _ _ _ _ _ _ Hget).
  assert (Hguard :
    truthy_opt (u_postedBy updates)
    && bool_decide (u_postedBy updates <> Some (postedBy b)) = false
    <-> (truthy_opt (u_postedBy updates) = false
         \/ u_postedBy updates = Some (postedBy b))).
  { rewrite andb_false_iff, bool_decide_eq_false. split.
    - intros [H|H]; [left; exact H|].
      right. destruct (decide (u_postedBy updates = Some (postedBy b)));
        [assumption | contradiction].
    - intros [H|H]; [left; exact H | right; intros Hn; contradiction]. }
  destruct (decide (status b <> "open")) as [Hclosed|Hopen].
  - cbn [fst snd]. split; [|split].
    + split; [intros [b' H]; discriminate|].
      intros [Hst _]. contradiction.
    + intros [Hst _]. contradiction.
    + reflexivity.
  - assert (Hst : status b = "open")
      by (destruct (decide (status b = "open")); [assumption|contradiction]).
    destruct (truthy_opt (u_postedBy updates)
              && bool_decide (u_postedBy updates <> Some (postedBy b)))
      eqn:Hg.
    + assert (Hno : ~ accepted).
      { intros [_ Hp]. apply Hguard in Hp. congruence. }
      cbn [fst snd]. split; [|split].
      * split; [intros [b' H]; discriminate | intros H; contradiction].
      * intros H; contradiction.
      * reflexivity.
    + assert (Hyes : accepted) by (split; [exact Hst | apply Hguard, eq_refl]).
      cbn [fst snd]. split; [|split].
      * split; [intros _; exact Hyes | intros _; eexists; reflexivity].
      * intros _. exists (afterUpdate b updates now).
        unfold afterUpdate. cbn.
        split_and!; try reflexivity. exact Hst.
      * intros H; contradiction.
Qed.

Lemma update_accepted_witness :
  let l0 := snd (postBounty "Audit 3 whale wallets" "compare risk scores"
                   (Some "5000") (Some "agent-a") "t0" []) in
  is_Some (getBounty "bounty-1" l0)
  /\ exists b',
       fst (updateBounty "bounty-1"
              (mkUpdates (Some "8000") None (Some "agent-a")) "t1" l0)
       = Updated b'
       /\ negotiationHistory b'
          = Some [mkChange "reward_updated" (Some "5000") (Some "8000") "t1"].
Proof.
  cbn zeta. split; [eexists; reflexivity|].
  destruct (update_accepted_exactly_when "bounty-1"
              (mkUpdates (Some "8000") None (Some "agent-a")) "t1"
              (snd (postBounty "Audit 3 whale wallets" "compare risk scores"
                      (Some "5000") (Some "agent-a") "t0" []))
              0 _ eq_refl) as (_ & Hacc & _).
  destruct (Hacc (conj eq_refl (or_intror eq_refl)))
    as (b' & Hr & _ & _ & _ & _ & _ & Hrew & Hhist).
  exists b'. split; [rewrite Hr; reflexivity|].
  rewrite Hhist, Hrew. reflexivity.
Defined.

Lemma filter_status_partition (l : list Bounty) :
  Forall (fun b => status b = "open" \/ status b = "submitted") l ->
  (length (listBounties (Some "open") l)
   + length (listBounties (Some "submitted") l) = length l)%nat.
Proof.
  unfold listBounties. cbn [truthy_opt].
  change (truthy_str "open") with true.
  change (truthy_str "submitted") with true. cbn iota.
  induction 1 as [|b l Hb _ IH]; [reflexivity|].
  rewrite !filter_cons.
  destruct Hb as [Hst|Hst]; rewrite Hst.
  - rewrite decide_True by reflexivity.
    rewrite decide_False by discriminate. cbn [length]. lia.
  - rewrite decide_False by discriminate.
    rewrite decide_True by reflexivity. cbn [length]. lia.
Qed.

(** X14. [listBounties] with a status returns, in board order, exactly the
    bounties with that status; with no status, or the empty string, it
    returns the whole board.  On a board grown from the empty one the
    open and the submitted bounties together are the whole board: every
    bounty shows in exactly one of the two listings. *)
Theorem listBounties_partition (ops : list BoardOp) (st : string) :
  let board := runBoard ops [] in
  listBounties None board = board
  /\ listBounties (Some "") board = board
  /\ (st <> "" ->
      listBounties (Some st) board = filter (fun b => status b = st) board
      /\ Forall (fun b => status b = st) (listBounties (Some st) board))
  /\ (length (listBounties (Some "open") board)
      + length (listBounties (Some "submitted") board) = length board)%nat.
Proof.
  intros board. split; [reflexivity|]. split; [reflexivity|]. split.
  - intros Hne. unfold listBounties. cbn [truthy_opt]. unfold truthy_str.
    destruct (decide (st = "")); [contradiction|].
    assert (Heq : filter (fun b => Some (status b) = Some st) board
                  = filter (fun b => status b = st) board).
    { apply list_filter_iff. intros b. split; congruence. }
    rewrite Heq. split; [reflexivity|].
    apply Forall_forall. intros b Hb.
    apply list_elem_of_filter in Hb as [Hb _]. exact Hb.
  - apply filter_status_partition, runBoard_statuses.
Qed.

End SkillsMore.

Module ApiMore.
Import JS Treasury Ledger Config Catalogue Api Observations NumberFacts
       LedgerFacts LedgerMore.

(** *** The yield routes *)

(** X15. [POST /treasury/yield/spend] with an amount and a balance that
    are integer numbers answers 200 exactly when the amount is positive and
    covered by the balance, and then leaves the binary64 difference of
    the two: exactly balance - amount as long as the balance is at most
    2^53; in every other case it answers 400 and the balance is
    untouched.  So a request never makes a non-negative balance
    negative, and up to 2^53 never raises it, although
    [spendSimulatedYield] itself, handed a negative amount, would add it
    to the balance.  Above 2^53 the deduction is rounded: at 2^53 + 2 a
    spend of 1 is answered 200 with 2^53 remaining. *)
Theorem postYieldSpend_guarded (amount : option Z) (y : Z) :
  (forall a, amount = Some a -> isDouble a) -> isDouble y ->
  let r := postYieldSpend (Fin <$> amount) (Fin y) in
  (spendStatus (fst r) = 200%nat
   <-> exists a, amount = Some a /\ 0 < a <= y)
  /\ (forall a, amount = Some a -> 0 < a <= y ->
        r = (SpendDone (Fin a) (toNumber (y - a)), toNumber (y - a)))
  /\ (forall a, amount = Some a -> 0 < a <= y -> y <= 2 ^ 53 ->
        r = (SpendDone (Fin a) (Fin (y - a)), Fin (y - a)))
  /\ (spendStatus (fst r) = 400%nat -> snd r = Fin y)
  /\ (y <= 2 ^ 53 -> num_geb (Fin y) (snd r) = true)
  /\ (0 <= y -> num_geb (snd r) (Fin 0) = true)
  /\ (forall a, isDouble a -> a < 0 -> 0 <= y ->
        snd (spendSimulatedYield (Fin a) (Fin y)) = toNumber (y - a))
  /\ (isDouble (2 ^ 53 + 2)
      /\ postYieldSpend (Some (Fin 1)) (Fin (2 ^ 53 + 2))
         = (SpendDone (Fin 1) (Fin (2 ^ 53)), Fin (2 ^ 53))).
Proof.
  intros _ _ r.
  assert (Hr : r = match amount with
                   | Some a =>
                       if decide (0 < a <= y)
                       then (SpendDone (Fin a) (toNumber (y - a)),
                             toNumber (y - a))
                       else if decide (a <= 0) then (SpendInvalid, Fin y)
                       else (SpendInsufficient (Fin y) (Some (Fin a)), Fin y)
                   | None => (SpendInvalid, Fin y)
                   end).
  { subst r. unfold postYieldSpend. destruct amount as [a|]; [|reflexivity].
    cbn [fmap option_fmap option_map num_falsy num_leb num_geb].
    destruct (Z.eqb_spec a 0) as [->|Hnz]; cbn [orb].
    { rewrite decide_False by lia. rewrite decide_True by lia. reflexivity. }
    destruct (Z.leb_spec a 0) as [Hle|Hpos].
    { rewrite decide_False by lia. rewrite decide_True by lia. reflexivity. }
    unfold spendSimulatedYield. cbn [num_geb num_sub].
    destruct (Z.leb_spec a y) as [Hge|Hlt];
      cbn [success remaining needed fst snd].
    - rewrite decide_True by lia. reflexivity.
    - rewrite decide_False by lia. rewrite decide_False by lia.
      reflexivity. }
  clearbody r. subst r.
  split.
  { destruct amount as [a|].
    - destruct (decide (0 < a <= y)) as [Hok|Hno].
      + cbn. split; [intros _; exists a; split; [reflexivity | exact Hok]
                    | reflexivity].
      + destruct (decide (a <= 0)); cbn;
          (split; [discriminate|]); intros (a' & Heq & Hok);
          injection Heq as <-; contradiction.
    - cbn. split; [discriminate|]. intros (a' & Heq & _). discriminate. }
  split.
  { intros a -> Hok. rewrite decide_True by exact Hok. reflexivity. }
  split.
  { intros a -> Hok Hy. rewrite decide_True by exact Hok.
    rewrite toNumber_small by lia. reflexivity. }
  split.
  { destruct amount as [a|]; [|reflexivity].
    destruct (decide (0 < a <= y)); [discriminate|].
    destruct (decide (a <= 0)); reflexivity. }
  split.
  { intros Hy. destruct amount as [a|]; [|cbn; apply Z.leb_refl].
    destruct (decide (0 < a <= y)).
    - cbn [snd]. rewrite toNumber_small by lia. cbn. apply Z.leb_le. lia.
    - destruct (decide (a <= 0)); cbn; apply Z.leb_refl. }
  split.
  { intros Hy. destruct amount as [a|]; [|cbn; apply Z.leb_le; exact Hy].
    destruct (decide (0 < a <= y)).
    - cbn [snd]. apply toNumber_nonneg. lia.
    - destruct (decide (a <= 0)); cbn; apply Z.leb_le; exact Hy. }
  split.
  { intros a _ Ha Hy. unfold spendSimulatedYield. cbn [num_geb].
    destruct (Z.leb_spec a y); [reflexivity | lia]. }
  split; [split; vm_compute; reflexivity | vm_compute; reflexivity].
Qed.

Lemma postYieldSpend_witness :
  isDouble 800 /\ isDouble 1420
  /\ postYieldSpend (Some (Fin 800)) (Fin 1420)
     = (SpendDone (Fin 800) (Fin 620), Fin 620).
Proof.
  assert (H800 : isDouble 800) by (split; vm_compute; reflexivity).
  assert (H1420 : isDouble 1420) by (split; vm_compute; reflexivity).
  split; [exact H800|]. split; [exact H1420|].
  destruct (postYieldSpend_guarded (Some 800) 1420
              ltac:(intros a [= <-]; exact H800) H1420)
    as (_ & _ & Hexact & _).
  exact (Hexact 800 eq_refl ltac:(lia) ltac:(lia)).
Defined.

(** *** The execute handler *)

Lemma wellNumbered_lookup entries i e :
  wellNumbered entries -> entries !! i = Some e -> Ledger.id e = S i.
Proof.
  unfold wellNumbered. intros Hwn Hi.
  assert (H : map Ledger.id entries !! i = Some (Ledger.id e))
    by (change (map Ledger.id) with (fmap (M:=list) Ledger.id);
        rewrite list_lookup_fmap, Hi; reflexivity).
  rewrite Hwn, lookup_seq_lt in H by (eapply lookup_lt_Some, Hi).
  cbn in H. congruence.
Qed.

Lemma find_fresh_entry entries e :
  wellNumbered entries ->
  Ledger.id e = S (length entries) ->
  list_find (fun x => Ledger.id x = S (length entries)) (entries ++ [e])
  = Some (length entries, e).
Proof.
  intros Hwn He. apply list_find_Some. split; [|split].
  - rewrite lookup_app_r by lia. rewrite Nat.sub_diag. reflexivity.
  - exact He.
  - intros j y Hy Hj Hid. rewrite lookup_app_l in Hy by exact Hj.
    rewrite (wellNumbered_lookup _ _ _ Hwn Hy) in Hid. lia.
Qed.

Lemma payProviders_on_fresh_entry sendSTX clock dist providers entries e0 :
  wellNumbered entries ->
  Ledger.id e0 = S (length entries) ->
  let run := payProviders sendSTX clock 0 (S (length entries)) dist providers
               (entries ++ [e0]) in
  exists e',
    snd run = entries ++ [e']
    /\ grownFrom e0 e'
    /\ map d_amount (distributions e')
       = map d_amount (distributions e0) ++ paidAmounts (fst run).
Proof.
  intros Hwn He0 run.
  pose proof (payProviders_length sendSTX clock (S (length entries)) dist
                providers 0 (entries ++ [e0])) as Hlen.
  pose proof (payProviders_lookup sendSTX clock (S (length entries)) dist
                providers 0 (entries ++ [e0])) as Hlook.
  pose proof (payProviders_recorded sendSTX clock (S (length entries)) dist
                providers 0 (entries ++ [e0])) as Hrec.
  fold run in Hlen, Hlook, Hrec.
  rewrite length_app in Hlen. cbn [length] in Hlen.
  destruct (Hlook (length entries) e0) as (e' & Hlast & Hgrown & _).
  { rewrite lookup_app_r by lia. rewrite Nat.sub_diag. reflexivity. }
  assert (Heq : snd run = entries ++ [e']).
  { apply list_eq. intros i.
    destruct (decide (i < length entries)%nat) as [Hlt|Hge].
    - destruct (lookup_lt_is_Some_2 entries i Hlt) as [x Hx].
      destruct (Hlook i x) as (x' & Hx' & _ & Hsame).
      { rewrite lookup_app_l by exact Hlt. exact Hx. }
      rewrite Hx', lookup_app_l, Hx by exact Hlt. f_equal. apply Hsame.
      rewrite (wellNumbered_lookup _ _ _ Hwn Hx). lia.
    - destruct (decide (i = length entries)) as [->|Hne].
      + rewrite Hlast, lookup_app_r by lia. rewrite Nat.sub_diag.
        reflexivity.
      + rewrite !lookup_ge_None_2; [reflexivity| |].
        * rewrite length_app. cbn. lia.
        * rewrite Hlen. lia. }
  exists e'. split; [exact Heq|]. split; [exact Hgrown|].
  assert (He' : Ledger.id e' = S (length entries))
    by (destruct Hgrown as [-> _]; exact He0).
  unfold recordedAmounts in Hrec. rewrite Heq in Hrec.
  rewrite (find_fresh_entry entries e' Hwn He') in Hrec.
  rewrite (find_fresh_entry entries e0 Hwn He0) in Hrec.
  rewrite entryExists_find, (find_fresh_entry entries e0 Hwn He0) in Hrec.
  rewrite bool_decide_eq_true_2 in Hrec by (eexists; reflexivity).
  exact Hrec.
Qed.

Lemma executePaid_appends cfg feePercent sendSTX clock skill txid amount
    output now entries :
  wellNumbered entries ->
  let r := executePaid cfg feePercent sendSTX clock skill txid amount
             (Ok output) now entries in
  exists e,
    snd r = entries ++ [e]
    /\ Ledger.id e = S (length entries)
    /\ entry_type e = incoming txid "agent" amount (sk_id skill)
    /\ map d_amount (distributions e) = paidAmounts (distributionsOf (fst r)).
Proof.
  intros Hwn r. subst r.
  unfold executePaid, recordIncomingPayment.
  destruct (existsb _ _).
  - unfold distributeRevenue. cbn [Ledger.id].
    replace (length entries + 1)%nat with (S (length entries)) by lia.
    match goal with
    | |- context [payProviders _ _ _ _ ?d ?ps (entries ++ [?e0])] =>
        destruct (payProviders_on_fresh_entry sendSTX clock d ps entries e0
                    Hwn eq_refl) as (e' & Heq & Hgrown & Hamounts)
    end.
    destruct (payProviders _ _ _ _ _ _ _) as [rs es]. cbn [fst snd] in *.
    exists e'. destruct Hgrown as (Hid & Hty & _ & _).
    split; [exact Heq|]. split; [rewrite Hid; reflexivity|].
    split; [rewrite Hty; reflexivity|]. exact Hamounts.
  - cbn [fst snd distributionsOf]. eexists. split; [reflexivity|].
    cbn. split; [lia|]. split; reflexivity.
Qed.

(** X16. On a ledger numbered 1..n the execute handler keeps payment and
    payouts together.  When the skill throws, the answer is 500 and the
    ledger is untouched, although the payment was accepted.  Otherwise
    the ledger gains exactly one entry, numbered n+1, of type incoming,
    from "agent", for the paid amount and the skill; the earlier entries
    are as they were; and the amounts on the new entry's distributions
    are the amounts of the payouts reported as paid in the response, in
    order. *)
Theorem executePaid_records_on_its_entry
    (cfg : Configuration) (feePercent : Z)
    (sendSTX : nat -> string -> Z -> string -> JS.result (string * string))
    (clock : nat -> string) (skill : Skill) (txid : string) (amount : Z)
    (executed : JS.result string) (now : string)
    (entries : list LedgerEntry) :
  wellNumbered entries ->
  let r := executePaid cfg feePercent sendSTX clock skill txid amount
             executed now entries in
  match executed with
  | Throw err => r = (ExecutionFailed err, entries)
  | Ok output =>
      exists e,
        snd r = entries ++ [e]
        /\ Ledger.id e = S (length entries)
        /\ entry_type e = incoming txid "agent" amount (sk_id skill)
        /\ map d_amount (distributions e)
           = paidAmounts (distributionsOf (fst r))
  end.
Proof.
  intros Hwn r. subst r. destruct executed as [output|err]; [|reflexivity].
  apply executePaid_appends, Hwn.
Qed.

Lemma executePaid_witness :
  wellNumbered []
  /\ exists e,
       snd (executePaid
              (mkConfiguration "key" "ST-PLATFORM"
                 {[ "a" := mkWallet "ka" "ST-A" ]})
              40 (fun _ _ _ _ => Ok ("0xpaid", "https://explorer.hiro.so"))
              (fun _ => "t1")
              (mkSkill "wallet-auditor" "Stacks Wallet Auditor" 5000 "STX"
                 None
                 [mkProviderSpec "chain-data-provider" "a" 70;
                  mkProviderSpec "risk-analysis-provider" "b" 30])
              "0xt1" 5000 (Ok "report") "t0" [])
       = [e]
       /\ map d_amount (distributions e) = [2100].
Proof.
  assert (Hwn : wellNumbered []) by reflexivity.
  split; [exact Hwn|].
  destruct (executePaid_records_on_its_entry
              (mkConfiguration "key" "ST-PLATFORM"
                 {[ "a" := mkWallet "ka" "ST-A" ]})
              40 (fun _ _ _ _ => Ok ("0xpaid", "https://explorer.hiro.so"))
              (fun _ => "t1")
              (mkSkill "wallet-auditor" "Stacks Wallet Auditor" 5000 "STX"
                 None
                 [mkProviderSpec "chain-data-provider" "a" 70;
                  mkProviderSpec "risk-analysis-provider" "b" 30])
              "0xt1" 5000 (Ok "report") "t0" [] Hwn)
    as (e & Heq & _ & _ & Hamounts).
  exists e. split; [exact Heq|]. rewrite Hamounts. reflexivity.
Defined.

(** *** The catalogue *)

Lemma resolveProviders_shares cfg specs :
  map sharePercent (resolveProviders cfg specs) = map ps_sharePercent specs.
Proof. unfold resolveProviders. rewrite map_map. reflexivity. Qed.

Lemma SKILLS_shares :
  Forall (fun sk =>
            0 < sk_price sk
            /\ Forall (fun p => 0 <= ps_sharePercent p) (sk_providers sk)
            /\ sumZ (map ps_sharePercent (sk_providers sk)) = 100)
         SKILLS.
Proof.
  unfold SKILLS.
  repeat (constructor; [split; [reflexivity|]; split;
                          [repeat constructor; discriminate | reflexivity]|]).
  constructor.
Qed.

(** X17. Every skill of the catalogue has a positive price and provider
    shares that are non-negative and add up to 100, and no two skills
    share an id.  So for any fee between 0 and 100 percent, whatever
    provider addresses are configured and however the transfers fare,
    what a paid execution of a catalogue skill pays out is at most the
    distributable part of its price. *)
Theorem catalogue_pays_within_price
    (sk : Skill) (cfg : Configuration) (feePercent : Z)
    (sendSTX : nat -> string -> Z -> string -> JS.result (string * string))
    (clock : nat -> string) (ledgerEntryId : nat)
    (entries : list LedgerEntry) :
  sk ∈ SKILLS ->
  0 <= feePercent <= 100 ->
  let run := distributeRevenue feePercent sendSTX clock ledgerEntryId
               (sk_price sk) (resolveProviders cfg (sk_providers sk))
               entries in
  0 < sk_price sk
  /\ sumZ (map ps_sharePercent (sk_providers sk)) = 100
  /\ NoDup (map sk_id SKILLS)
  /\ getSkill (sk_id sk) = Some sk
  /\ sumZ (paidAmounts (fst run)) <= distributable feePercent (sk_price sk)
  /\ distributable feePercent (sk_price sk) <= sk_price sk.
Proof.
  intros Hin Hfee run. subst run.
  pose proof (proj1 (Forall_forall _ _) SKILLS_shares sk Hin)
    as (Hprice & Hnonneg & Hsum).
  destruct (distributable_bounds feePercent (sk_price sk)
              ltac:(lia) Hfee) as [_ [Hd0 Hd1]].
  split; [exact Hprice|]. split; [exact Hsum|].
  split; [apply (bool_decide_unpack _); vm_compute; exact I|].
  split.
  { unfold SKILLS in Hin.
    repeat (apply elem_of_cons in Hin as [->|Hin]; [reflexivity|]).
    inversion Hin. }
  split; [|exact Hd1].
  unfold distributeRevenue.
  assert (Hall : Forall (fun p => 0 <= sharePercent p)
                   (resolveProviders cfg (sk_providers sk))).
  { unfold resolveProviders. apply Forall_forall. intros p Hp.
    apply list_elem_of_In, in_map_iff in Hp as (ps & <- & Hps).
    cbn. apply (proj1 (Forall_forall _ _) Hnonneg).
    apply list_elem_of_In, Hps. }
  pose proof (payProviders_paid_bound sendSTX clock ledgerEntryId
                (distributable feePercent (sk_price sk))
                (resolveProviders cfg (sk_providers sk)) 0 entries Hd0 Hall)
    as [_ Hbound].
  cbn zeta in Hbound. rewrite resolveProviders_shares, Hsum in Hbound. lia.
Qed.

Lemma catalogue_witness :
  mkSkill "stacks-intel" "Stacks Chain Intelligence" 3000 "STX" None
    [ mkProviderSpec "block-data-provider" "b" 60;
      mkProviderSpec "analytics-provider" "c" 40 ] ∈ SKILLS
  /\ 0 <= 40 <= 100
  /\ distributable 40 3000 <= 3000.
Proof.
  assert (Hin : mkSkill "stacks-intel" "Stacks Chain Intelligence" 3000 "STX"
                  None
                  [ mkProviderSpec "block-data-provider" "b" 60;
                    mkProviderSpec "analytics-provider" "c" 40 ] ∈ SKILLS)
    by (unfold SKILLS; apply elem_of_cons; right;
        apply elem_of_cons; left; reflexivity).
  split; [exact Hin|]. split; [lia|].
  exact (proj2 (proj2 (proj2 (proj2 (proj2
    (catalogue_pays_within_price _
       (mkConfiguration "key" "ST-PLATFORM" ∅) 40
       (fun _ _ _ _ => Throw "refused") (fun _ => "t1") 1 [] Hin
       ltac:(lia))))))).
Defined.

End ApiMore.

Module BountyRoutesMore.
Import JS Skills Api BoardObservations SkillsFacts SkillsMore.

(** X18. [POST /bounties] answers 201 exactly when the body has a
    non-empty title and a non-empty description, and 400 otherwise.  On
    400 the board is untouched; on 201 the new bounty is added at the end
    of the board, open, without submissions, with the next id, the given
    title, description and reward, and "anonymous-agent" as poster when
    none was given. *)
Theorem postBounties_created_iff
    (title description reward postedBy : option string) (now : string)
    (bounties : list Bounty) :
  let r := postBounties title description reward postedBy now bounties in
  (bountyStatus (fst r) = 201%nat
   <-> truthy_opt title = true /\ truthy_opt description = true)
  /\ (bountyStatus (fst r) <> 201%nat ->
      bountyStatus (fst r) = 400%nat /\ snd r = bounties)
  /\ (bountyStatus (fst r) = 201%nat ->
      exists b,
        fst r = Created b
        /\ snd r = bounties ++ [b]
        /\ id b = bountyIdAt (length bounties)
        /\ status b = "open"
        /\ submissions b = []
        /\ Some (Skills.title b) = title
        /\ Some (Skills.description b) = description
        /\ Skills.reward b = reward
        /\ Skills.postedBy b = or_str postedBy "anonymous-agent").
Proof.
  intros r.
  assert (Hr : r = if truthy_opt title && truthy_opt description
                   then (Created (fst (postBounty (default "" title)
                                         (default "" description) reward
                                         postedBy now bounties)),
                         snd (postBounty (default "" title)
                                (default "" description) reward postedBy now
                                bounties))
                   else (BadRequest
                           "Missing required fields: title, description",
                         bounties)).
  { subst r. unfold postBounties.
    destruct (truthy_opt title), (truthy_opt description); reflexivity. }
  clearbody r. subst r.
  destruct (truthy_opt title) eqn:Ht, (truthy_opt description) eqn:Hd;
    cbn [andb fst snd bountyStatus].
  2-4: (split; [split; [discriminate | intros [? ?]; discriminate]|];
        split; [intros _; split; reflexivity | discriminate]).
  split; [split; [intros _; split; reflexivity | reflexivity]|].
  split; [intros H; contradiction|].
  intros _. eexists. split; [reflexivity|].
  unfold postBounty, bountyIdAt. cbn [fst snd id status submissions
    Skills.title Skills.description Skills.reward Skills.postedBy].
  destruct title as [t|]; [|discriminate].
  destruct description as [d|]; [|discriminate].
  split_and!; reflexivity.
Qed.

(** X19. [PATCH /bounties/:id] answers 200, 400 or 404 and changes the
    board only when it answers 200.  A body with neither a reward nor a
    description gets 400 whether or not the bounty exists; with one of
    them, an unknown id gets 404; a bounty that is not open, or an update
    naming another poster, gets 400.  On 200 the bounty was open and its
    history is one record longer. *)
Theorem patchBounty_changes_only_on_200
    (bountyId : string) (reward description postedBy : option string)
    (now : string) (bounties : list Bounty) :
  let r := patchBounty bountyId reward description postedBy now bounties in
  let hasField := truthy_opt reward || truthy_opt description in
  (bountyStatus (fst r) = 200%nat \/ bountyStatus (fst r) = 400%nat
   \/ bountyStatus (fst r) = 404%nat)
  /\ (bountyStatus (fst r) <> 200%nat -> snd r = bounties)
  /\ (hasField = false -> bountyStatus (fst r) = 400%nat)
  /\ (bountyStatus (fst r) = 404%nat
      <-> hasField = true /\ getBounty bountyId bounties = None)
  /\ (bountyStatus (fst r) = 200%nat ->
      exists i b b',
        getBounty bountyId bounties = Some (i, b)
        /\ status b = "open"
        /\ fst r = Updated200 b'
        /\ snd r = <[ i := b' ]> bounties
        /\ length (default [] (negotiationHistory b'))
           = S (length (default [] (negotiationHistory b)))).
Proof.
  intros r hasField. subst r hasField. unfold patchBounty.
  rewrite <- negb_orb.
  destruct (truthy_opt reward || truthy_opt description) eqn:Hfield;
    cbn [negb].
  2:{ cbn [fst snd bountyStatus]. split; [right; left; reflexivity|].
      split; [reflexivity|]. split; [reflexivity|].
      split; [split; [discriminate | intros [? _]; discriminate]|].
      discriminate. }
  destruct (getBounty bountyId bounties) as [[i b]|] eqn:Hget.
  - rewrite (updateBounty_found _ _ _ _ _ _ Hget).
    destruct (decide (status b <> "open")) as [Hclosed|Hopen].
    { cbn [fst snd bountyStatus]. split; [right; left; reflexivity|].
      split; [reflexivity|]. split; [discriminate|].
      split; [split; [discriminate | intros [_ ?]; discriminate]|].
      discriminate. }
    destruct (_ && _).
    { cbn [fst snd bountyStatus]. split; [right; left; reflexivity|].
      split; [reflexivity|]. split; [discriminate|].
      split; [split; [discriminate | intros [_ ?]; discriminate]|].
      discriminate. }
    cbn [fst snd bountyStatus]. split; [left; reflexivity|].
    split; [intros H; contradiction|]. split; [discriminate|].
    split; [split; [discriminate | intros [_ ?]; discriminate]|].
    intros _. exists i, b, (afterUpdate b (mkUpdates reward description
                                             postedBy) now).
    split; [reflexivity|].
    split; [destruct (decide (status b = "open")); [assumption|contradiction]|].
    split; [reflexivity|]. split; [reflexivity|].
    unfold afterUpdate. cbn [negotiationHistory].
    unfold default at 1. cbn [from_option Datatypes.id].
    rewrite length_app. cbn. lia.
  - unfold updateBounty. unfold getBounty in Hget. rewrite Hget.
    cbn [fst snd bountyStatus]. split; [right; right; reflexivity|].
    split; [reflexivity|]. split; [discriminate|].
    split; [split; [intros _; split; reflexivity | reflexivity]|].
    discriminate.
Qed.

End BountyRoutesMore.

Module ConfigMore.
Import JS Config.

(** X20. With the three provider wallets a, b and c in the configuration,
    [validateConfig] returns exactly when both the platform key and the
    platform address are set, and throws "Missing required configuration"
    otherwise.  A provider wallet without an address never stops the
    start: it only adds its warning, in the order a, b, c. *)
Theorem validateConfig_startup (cfg : Configuration) (wa wb wc : Wallet) :
  providers cfg !! "a" = Some wa ->
  providers cfg !! "b" = Some wb ->
  providers cfg !! "c" = Some wc ->
  let warn (w : Wallet) (msg : string) :=
    if truthy_str (w_address w) then [] else [msg] in
  validateConfig cfg
  = if truthy_str (platformPrivateKey cfg)
       && truthy_str (platformAddress cfg)
    then Ok (warn wa "PROVIDER_A_ADDRESS not set. Multi-hop payments to provider a will be skipped."
             ++ warn wb "PROVIDER_B_ADDRESS not set. Multi-hop payments to provider b will be skipped."
             ++ warn wc "PROVIDER_C_ADDRESS not set. Multi-hop payments to provider c will be skipped.")
    else Throw missingConfigurationError.
Proof.
  intros Ha Hb Hc warn. subst warn. unfold validateConfig.
  cbn [providerWarnings]. rewrite Ha, Hb, Hc. cbn [bind].
  destruct (truthy_str (platformPrivateKey cfg)),
           (truthy_str (platformAddress cfg));
    destruct (truthy_str (w_address wa)), (truthy_str (w_address wb)),
             (truthy_str (w_address wc)); reflexivity.
Qed.

Lemma validateConfig_witness :
  let cfg := mkConfiguration "key" "ST-PLATFORM"
               (<[ "a" := mkWallet "ka" "ST-A" ]>
                (<[ "b" := mkWallet "" "" ]>
                 (<[ "c" := mkWallet "kc" "ST-C" ]> ∅))) in
  providers cfg !! "a" = Some (mkWallet "ka" "ST-A")
  /\ validateConfig cfg
     = Ok ["PROVIDER_B_ADDRESS not set. Multi-hop payments to provider b will be skipped."].
Proof.
  cbn zeta.
  assert (Ha : providers (mkConfiguration "key" "ST-PLATFORM"
                 (<[ "a" := mkWallet "ka" "ST-A" ]>
                  (<[ "b" := mkWallet "" "" ]>
                   (<[ "c" := mkWallet "kc" "ST-C" ]> ∅)))) !! "a"
               = Some (mkWallet "ka" "ST-A")) by reflexivity.
  split; [exact Ha|].
  rewrite (validateConfig_startup _ (mkWallet "ka" "ST-A") (mkWallet "" "")
             (mkWallet "kc" "ST-C") Ha eq_refl eq_refl).
  reflexivity.
Defined.

End ConfigMore.

Module GateMore.
Import JS PaymentGate MultiAsset X402.



Lemma toString_printedAs numberToString v :
  printedAs v (toString numberToString v).
Proof.
  destruct v as [|b|z|s]; cbn [printedAs toString]; try exact I;
    [|reflexivity].
  intros Hz. cbn zeta. rewrite (NumberFacts.round53_small z Hz).
  destruct (Z.leb_spec (Z.abs z) (2 ^ 53)); [reflexivity | lia].
Qed.

(** X22. The multi-asset 402 lists one option per accepted asset, in the
    same order, each for the exact scheme, payable to the platform
    address within 300 seconds, with the amount printed as a string (a
    string amount as it is, an integer of at most 2^53 in magnitude with
    all its digits, a larger one as the engine prints it); an option
    carries token details exactly when its asset is sBTC or USDCx.  The
    network id is "stacks:1" on mainnet and "stacks:2147483648" on any
    other network. *)
Theorem multiAsset402_lists_every_option
    (stacksNetwork platformAddress : string) (usdcxContract : option string)
    (getDefaultSBTCContract : string -> string) (numberToString : Z -> string)
    (originalUrl description : string) (offered : list AssetOption) :
  let body := handleMultiAsset402 stacksNetwork platformAddress usdcxContract
                getDefaultSBTCContract numberToString originalUrl description
                offered in
  x402Version body = 2
  /\ resourceUrl body = originalUrl
  /\ length (accepts body) = length offered
  /\ map acc_asset (accepts body) = map opt_asset offered
  /\ map amount (accepts body)
     = map (fun o => toString numberToString (opt_amount o)) offered
  /\ Forall2 (fun o a => printedAs (opt_amount o) (amount a))
             offered (accepts body)
  /\ Forall (fun a =>
               scheme a = "exact"
               /\ payTo a = platformAddress
               /\ maxTimeoutSeconds a = 300
               /\ network a = (if decide (stacksNetwork = "mainnet")
                               then "stacks:1" else "stacks:2147483648")
               /\ (is_Some (extra a)
                   <-> acc_asset a = "sBTC" \/ acc_asset a = "USDCx"))
            (accepts body).
Proof.
  intros body. subst body. unfold handleMultiAsset402. cbn [x402Version
    resourceUrl accepts].
  split; [reflexivity|]. split; [reflexivity|].
  split; [apply length_map|].
  split; [rewrite map_map; reflexivity|].
  split; [rewrite map_map; reflexivity|].
  split.
  { induction offered as [|o offered IH]; constructor; [|exact IH].
    cbn. apply toString_printedAs. }
  apply Forall_forall. intros a Ha.
  apply list_elem_of_In, in_map_iff in Ha as (o & <- & _).
  unfold acceptOf, networkId. cbn.
  split; [reflexivity|]. split; [reflexivity|]. split; [reflexivity|].
  split; [reflexivity|].
  destruct (decide (opt_asset o = "USDCx")) as [Hu|Hu].
  - split; [intros _; right; exact Hu | intros _; eexists; reflexivity].
  - destruct (decide (opt_asset o = "sBTC")) as [Hs|Hs].
    + split; [intros _; left; exact Hs | intros _; eexists; reflexivity].
    + split; [intros [? H]; discriminate | intros [H|H]; contradiction].
Qed.

(** X23. [buildPaymentRequired] never returns an empty [accepts]: with a
    non-empty list of accepted assets it lists one option per asset, in
    order, each with its own amount, and otherwise the single default
    asset at the default amount; amounts are printed as strings (a
    string as it is, an integer of at most 2^53 in magnitude with all
    its digits, a larger one as the engine prints it).  Every option
    is payable to [payTo] and names the network "stacks:1", whatever
    the configured network is; so off mainnet it disagrees, on every
    option, with the network id of the multi-asset 402 of the gate.  In
    a list of accepted assets the contract address and token type are
    set exactly on the sBTC options; the single default option never
    carries them, even for sBTC. *)
Theorem buildPaymentRequired_accepts
    (sbtcContract : string) (numberToString : Z -> string) (payTo : string)
    (amt : value) (resource description asset : string)
    (acceptedAssets : option (list AssetOption)) (maxTimeoutSeconds : Z) :
  let req := buildPaymentRequired sbtcContract numberToString payTo amt resource
               description asset acceptedAssets maxTimeoutSeconds in
  r_accepts req <> []
  /\ map r_asset (r_accepts req)
     = match acceptedAssets with
       | Some (o :: os) => map opt_asset (o :: os)
       | _ => [asset]
       end
  /\ Forall2 (fun v a => r_amount a = toString numberToString v
                         /\ printedAs v (r_amount a))
       match acceptedAssets with
       | Some (o :: os) => map opt_amount (o :: os)
       | _ => [amt]
       end
       (r_accepts req)
  /\ Forall (fun a =>
               r_network a = "stacks:1"
               /\ r_payTo a = payTo
               /\ r_scheme a = "exact"
               /\ r_maxTimeoutSeconds a = maxTimeoutSeconds)
            (r_accepts req)
  /\ match acceptedAssets with
     | Some (o :: os) =>
         Forall (fun a =>
                   (r_contractAddress a
                    = if decide (r_asset a = "sBTC") then Some sbtcContract
                      else None)
                   /\ (r_tokenType a
                       = if decide (r_asset a = "sBTC") then Some "sip-010"
                         else None))
                (r_accepts req)
     | _ =>
         Forall (fun a => r_contractAddress a = None /\ r_tokenType a = None)
                (r_accepts req)
     end
  /\ (forall stacksNetwork platformAddress usdcx sbtcOf url offered,
        stacksNetwork <> "mainnet" ->
        Forall (fun a => network a <> "stacks:1")
               (accepts (handleMultiAsset402 stacksNetwork platformAddress
                           usdcx sbtcOf numberToString url description
                           offered))).
Proof.
  intros req. subst req. unfold buildPaymentRequired. cbn [r_accepts].
  split; [|split; [|split; [|split; [|split]]]].
  - destruct acceptedAssets as [[|o os]|]; discriminate.
  - destruct acceptedAssets as [[|o os]|]; try reflexivity.
    rewrite map_map. reflexivity.
  - assert (Hone : Forall2
              (fun v a => r_amount a = toString numberToString v
                          /\ printedAs v (r_amount a))
              [amt]
              [mkRequiredAccept "exact" "stacks:1" (toString numberToString amt)
                 asset payTo maxTimeoutSeconds None None]).
    { constructor; [|constructor]. cbn.
      split; [reflexivity | apply toString_printedAs]. }
    destruct acceptedAssets as [[|o os]|]; try exact Hone.
    generalize (o :: os). intros l.
    induction l as [|o' l IH]; constructor; [|exact IH].
    cbn. split; [reflexivity | apply toString_printedAs].
  - destruct acceptedAssets as [[|o os]|].
    + constructor; [|constructor]. cbn. split_and!; reflexivity.
    + apply Forall_forall. intros a Ha.
      apply list_elem_of_In, in_map_iff in Ha as (o' & <- & _). cbn.
      split_and!; reflexivity.
    + constructor; [|constructor]. cbn. split_and!; reflexivity.
  - destruct acceptedAssets as [[|o os]|];
      try (constructor; [|constructor]; cbn; split; reflexivity).
    apply Forall_forall. intros a Ha.
    apply list_elem_of_In, in_map_iff in Ha as (o' & <- & _). cbn.
    destruct (decide (opt_asset o' = "sBTC")) as [Hs|Hs].
    + rewrite (bool_decide_eq_true_2 _ Hs). split; reflexivity.
    + rewrite (bool_decide_eq_false_2 _ Hs). split; reflexivity.
  - intros stacksNetwork platformAddress usdcx sbtcOf url offered Hnet.
    unfold handleMultiAsset402. cbn [accepts].
    apply Forall_forall. intros a Ha.
    apply list_elem_of_In, in_map_iff in Ha as (o & <- & _).
    unfold acceptOf, networkId. cbn.
    destruct (decide (stacksNetwork = "mainnet")); [contradiction|].
    discriminate.
Qed.

End GateMore.

Module HiroMore.
Import JS Hiro.




(** X25. The risk score is a sum of at most four of the six penalties:
    it lies between 0 and 60, so the cap at 100 never comes into play.
    The level is "low" below 20, "medium" below 50 and "high" from 50 on.
    A wallet is rated "high" only when it has fewer than 5 transactions
    in total and missing nonces were detected; with 5 transactions or
    more the score is at most 45.  A score of zero means no factor is
    listed. *)
Theorem auditRisk_score_bounds
    (totalTxCount : Z) (activity : Activity)
    (availableMicroSTX lockedMicroSTX : Z)
    (missingNonces : option (list Z)) :
  let r := auditRisk totalTxCount activity availableMicroSTX lockedMicroSTX
             missingNonces in
  0 <= score r <= 60
  /\ (length (factors r) <= 4)%nat
  /\ (level r = "low" <-> score r < 20)
  /\ (level r = "high" <-> 50 <= score r)
  /\ (level r = "high" ->
      totalTxCount < 5
      /\ exists l, missingNonces = Some l /\ l <> [])
  /\ (5 <= totalTxCount -> score r <= 45)
  /\ (score r = 0 <-> factors r = []).
Proof.
  intros r.
  assert (Hr : r = auditRisk totalTxCount activity availableMicroSTX
                     lockedMicroSTX missingNonces) by reflexivity.
  clearbody r. unfold auditRisk in Hr.
  set (b1 := totalTxCount <? 5) in Hr.
  set (b2 := (0 <? sentCount activity)%nat
             && (receivedCount activity =? 0)%nat) in Hr.
  set (b3 := (0 <? receivedCount activity)%nat
             && (sentCount activity =? 0)%nat) in Hr.
  set (b4 := (100000000000 <? availableMicroSTX) && (lockedMicroSTX =? 0))
    in Hr.
  set (b5 := (contractCallCount activity =? 0)%nat && (10 <? totalTxCount))
    in Hr.
  set (b6 := match missingNonces with
             | Some l => (0 <? length l)%nat
             | None => false
             end) in Hr.
  set (s6 := "Missing nonces detected: ["
               +:+ joinNonces (default [] missingNonces) +:+ "]") in Hr.
  assert (H1 : b1 = true -> totalTxCount < 5)
    by (subst b1; intros H; apply Z.ltb_lt, H).
  assert (H15 : b1 = true -> b5 = true -> False).
  { subst b1 b5. intros Ha Hb. apply Z.ltb_lt in Ha.
    apply andb_true_iff in Hb as [_ Hb]. apply Z.ltb_lt in Hb. lia. }
  assert (H23 : b2 = true -> b3 = true -> False).
  { subst b2 b3. intros Ha Hb.
    apply andb_true_iff in Ha as [Ha _]. apply Nat.ltb_lt in Ha.
    apply andb_true_iff in Hb as [_ Hb]. apply Nat.eqb_eq in Hb. lia. }
  assert (H6 : b6 = true -> exists l, missingNonces = Some l /\ l <> []).
  { subst b6. destruct missingNonces as [[|n ns]|]; try discriminate.
    intros _. eexists. split; [reflexivity | discriminate]. }
  clearbody b1 b2 b3 b4 b5 b6 s6.
  destruct b1, b2, b3, b4, b5, b6;
    try (exfalso; apply H15; reflexivity);
    try (exfalso; apply H23; reflexivity);
    cbn in Hr; subst r; cbn [score level factors length];
    (split; [lia|]);
    (split; [lia|]);
    (split; [split; intros H; try discriminate H; try lia; try reflexivity|]);
    (split; [split; intros H; try discriminate H; try lia; try reflexivity|]);
    (split; [intros H;
             first [discriminate H
                   | split; [apply H1; reflexivity | apply H6; reflexivity]]|]);
    (split; [intros H; try lia; pose proof (H1 eq_refl); lia|]);
    (split; intros H; try discriminate H; try lia; try reflexivity).
Qed.

End HiroMore.

Module ExecuteRouteMore.
Import JS Treasury Ledger Config Catalogue PaymentGate MultiAsset Api
       ExecuteRoute Observations LedgerFacts PaymentGateFacts ApiMore.

(** X26. A yield header buys a real execution.  For a skill of the
    catalogue, a request with a non-empty [x-yield-payment] header whose
    skill runs to the end is answered by the paid handler: on a ledger
    numbered 1..n an incoming entry is added with the header as txid and
    the full price of the skill as amount, the providers' shares are sent
    and those that went through are recorded on that entry, and the
    yield balance is the same afterwards as before, whatever the history
    of the account. *)
Theorem yield_header_buys_real_payouts
    (cfg : Configuration) (stacksNetwork : string)
    (usdcxContract : option string)
    (getDefaultSBTCContract : string -> string) (feePercent : Z)
    (sendSTX : nat -> string -> Z -> string -> JS.result (string * string))
    (clock : nat -> string) (fetch : string -> FetchResult)
    (numberToString : Z -> string)
    (skillId originalUrl : string) (headers : gmap string string)
    (token output now : string) (entries : list LedgerEntry)
    (history : list YieldOp) (skill : Skill) :
  getSkill skillId = Some skill ->
  headers !! "x-yield-payment" = Some token ->
  token <> "" ->
  wellNumbered entries ->
  let balance := runYield history initialYield in
  let r := executeRoute cfg stacksNetwork usdcxContract
             getDefaultSBTCContract feePercent sendSTX clock fetch
             numberToString skillId originalUrl headers (Ok output) now entries
             balance in
  snd r = balance
  /\ exists response e,
       fst (fst r) = Handled response
       /\ snd (fst r) = entries ++ [e]
       /\ Ledger.id e = S (length entries)
       /\ entry_type e = incoming token "agent" (sk_price skill) (sk_id skill)
       /\ map d_amount (distributions e)
          = paidAmounts (distributionsOf response).
Proof.
  intros Hskill Hhdr Hne Hwn balance r. subst r. unfold executeRoute.
  rewrite Hskill. unfold paymentGate.
  rewrite Hhdr, (truthy_opt_Some _ Hne).
  change (default "" (Some token)) with token.
  assert (Htx : txidOf (yieldX402 (Str (pretty (sk_price skill))) token)
                = token).
  { unfold txidOf, yieldX402. rewrite lookup_insert_eq. reflexivity. }
  rewrite Htx.
  destruct (executePaid_appends cfg feePercent sendSTX clock skill token
              (sk_price skill) output now entries Hwn)
    as (e & Heq & Hid & Hty & Hamounts).
  destruct (executePaid _ _ _ _ _ _ _ _ _ _) as [response entries'].
  cbn [fst snd] in *. split; [reflexivity|].
  exists response, e. split; [reflexivity|].
  split; [exact Heq|]. split; [exact Hid|]. split; assumption.
Qed.

Lemma yield_header_buys_witness :
  getSkill "stacks-intel"
  = Some (mkSkill "stacks-intel" "Stacks Chain Intelligence" 3000 "STX" None
            [ mkProviderSpec "block-data-provider" "b" 60;
              mkProviderSpec "analytics-provider" "c" 40 ])
  /\ wellNumbered []
  /\ snd (executeRoute
            (mkConfiguration "key" "ST-PLATFORM"
               {[ "b" := mkWallet "kb" "ST-B" ]})
            "testnet" None (fun _ => "sbtc") 40
            (fun _ _ _ _ => Ok ("0xpaid", "https://explorer.hiro.so"))
            (fun _ => "t1") (fun _ => FetchRejects "offline")
            (fun _ => "1e+21")
            "stacks-intel" "/skills/stacks-intel/execute"
            {[ "x-yield-payment" := "yield-payment-1" ]}
            (Ok "report") "t0" [] (runYield [] initialYield))
     = Fin 1420.
Proof.
  assert (Hskill : getSkill "stacks-intel"
            = Some (mkSkill "stacks-intel" "Stacks Chain Intelligence" 3000
                      "STX" None
                      [ mkProviderSpec "block-data-provider" "b" 60;
                        mkProviderSpec "analytics-provider" "c" 40 ]))
    by reflexivity.
  assert (Hwn : wellNumbered []) by reflexivity.
  assert (Hhdr : ({[ "x-yield-payment" := "yield-payment-1" ]}
                   : gmap string string) !! "x-yield-payment"
                 = Some "yield-payment-1") by reflexivity.
  assert (Hne : "yield-payment-1" <> "") by discriminate.
  split; [exact Hskill|]. split; [exact Hwn|].
  exact (proj1 (yield_header_buys_real_payouts
                  (mkConfiguration "key" "ST-PLATFORM"
                     {[ "b" := mkWallet "kb" "ST-B" ]})
                  "testnet" None (fun _ => "sbtc") 40
                  (fun _ _ _ _ => Ok ("0xpaid", "https://explorer.hiro.so"))
                  (fun _ => "t1") (fun _ => FetchRejects "offline")
                  (fun _ => "1e+21")
                  "stacks-intel" "/skills/stacks-intel/execute" _
                  "yield-payment-1" "report" "t0" [] [] _
                  Hskill Hhdr Hne Hwn)).
Defined.

End ExecuteRouteMore.
